(** * diavlos: organization hierarchy and wiki page reconciliation

    Shallow embedding of [diavlos/src/organization/organization.py]
    (class [Organization]) and of its legacy variant [organizations.py].

    Conventions of the embedding.
    - A Python [str] is the list of its Unicode code points ([pystr]).
      Literals of the source are written as Rocq strings and decoded from
      UTF-8 by [lit].
    - A Python [dict] is an association list in insertion order with unique
      keys ([dict_set] overwrites in place, otherwise appends).
    - Code that can raise returns a [result]. *)

From Stdlib Require Import String Ascii.
From Stdlib Require Import List NArith ZArith Bool Arith Lia Permutation.
From Stdlib Require DecimalString.
Import ListNotations.
Open Scope string_scope.
Open Scope list_scope.

Set Implicit Arguments.

(* ================================================================= *)
(** ** Python strings *)

Definition pystr := list N.

Definition pystr_eq_dec : forall a b : pystr, {a = b} + {a <> b} :=
  list_eq_dec N.eq_dec.

(** UTF-8 decoding of a byte sequence (well-formed input assumed; the
    literals of this file are). *)
Fixpoint utf8_decode (bs : list N) : pystr :=
  match bs with
  | [] => []
  | b :: rest =>
    if (b <? 128)%N then b :: utf8_decode rest
    else if (b <? 224)%N then
      match rest with
      | b1 :: r => ((b - 192) * 64 + (b1 - 128))%N :: utf8_decode r
      | _ => []
      end
    else if (b <? 240)%N then
      match rest with
      | b1 :: b2 :: r =>
        ((b - 224) * 4096 + (b1 - 128) * 64 + (b2 - 128))%N :: utf8_decode r
      | _ => []
      end
    else
      match rest with
      | b1 :: b2 :: b3 :: r =>
        ((b - 240) * 262144 + (b1 - 128) * 4096 + (b2 - 128) * 64
         + (b3 - 128))%N :: utf8_decode r
      | _ => []
      end
  end.

Definition lit (s : string) : pystr :=
  utf8_decode (map N_of_ascii (list_ascii_of_string s)).

(** [s.startswith(p)], also the test used at each position of a scan. *)
Fixpoint starts_with (p s : pystr) : bool :=
  match p, s with
  | [], _ => true
  | _ :: _, [] => false
  | a :: p', b :: s' => if N.eq_dec a b then starts_with p' s' else false
  end.

(** [sub in s] *)
Fixpoint contains (sub s : pystr) : bool :=
  starts_with sub s ||
  match s with
  | [] => false
  | _ :: s' => contains sub s'
  end.

(** Left-to-right scan shared by [str.replace] and [re.sub]: at each
    position [matcher] gives the length of the match that starts there, a
    match is replaced by [repl] and the scan resumes after it ([skip]
    counts the characters of the current match still to be dropped).  All
    the matchers of this file give non-empty matches. *)
Fixpoint scan (matcher : pystr -> option nat) (repl : pystr)
         (skip : nat) (s : pystr) : pystr :=
  match s with
  | [] => []
  | c :: s' =>
    match skip with
    | S k => scan matcher repl k s'
    | O =>
      match matcher s with
      | Some (S n) => repl ++ scan matcher repl n s'
      | _ => c :: scan matcher repl 0 s'
      end
    end
  end.

Definition literal_matcher (old s : pystr) : option nat :=
  if starts_with old s then Some (length old) else None.

(** [s.replace(old, new)]: every non-overlapping occurrence, left to right.
    With an empty [old], Python inserts [new] before every character and at
    the end. *)
Definition replace (old new s : pystr) : pystr :=
  match old with
  | [] => new ++ flat_map (fun c => c :: new) s
  | _ :: _ => scan (literal_matcher old) new 0 s
  end.

(** [str.isspace] for one character (CPython's [_PyUnicode_IsWhitespace]). *)
Definition isspace (c : N) : bool :=
  ((9 <=? c) && (c <=? 13) || (28 <=? c) && (c <=? 32)
   || (c =? 133) || (c =? 160) || (c =? 5760)
   || (8192 <=? c) && (c <=? 8202)
   || (c =? 8232) || (c =? 8233) || (c =? 8239) || (c =? 8287)
   || (c =? 12288))%N.

Fixpoint lstrip (s : pystr) : pystr :=
  match s with
  | [] => []
  | c :: s' => if isspace c then lstrip s' else s
  end.

Definition rstrip (s : pystr) : pystr := rev (lstrip (rev s)).

(** [s.strip()] *)
Definition strip (s : pystr) : pystr := rstrip (lstrip s).

(** [sep.join(l)] *)
Fixpoint join (sep : pystr) (l : list pystr) : pystr :=
  match l with
  | [] => []
  | [x] => x
  | x :: l' => x ++ sep ++ join sep l'
  end.

(* ================================================================= *)
(** ** Python dicts with string keys *)

Definition dict (V : Type) := list (pystr * V).

Fixpoint dict_get {V} (k : pystr) (d : dict V) : option V :=
  match d with
  | [] => None
  | (k', v) :: d' => if pystr_eq_dec k k' then Some v else dict_get k d'
  end.

(** [k in d] *)
Definition dict_mem {V} (k : pystr) (d : dict V) : bool :=
  match dict_get k d with Some _ => true | None => false end.

(** [d[k] = v]: an existing key keeps its position. *)
Fixpoint dict_set {V} (k : pystr) (v : V) (d : dict V) : dict V :=
  match d with
  | [] => [(k, v)]
  | (k', v') :: d' =>
    if pystr_eq_dec k k' then (k', v) :: d' else (k', v') :: dict_set k v d'
  end.

Definition dict_keys {V} (d : dict V) : list pystr := map fst d.

(** Exceptions of the modelled code. *)
Inductive exn := KeyError | TypeError | AttributeError.

Inductive result (A : Type) :=
| Ok (a : A)
| Raise (e : exn).
Arguments Ok {A} a.
Arguments Raise {A} e.

Definition bind {A B} (r : result A) (f : A -> result B) : result B :=
  match r with
  | Ok a => f a
  | Raise e => Raise e
  end.

(* ================================================================= *)
(** ** Hierarchy builder: [_fetch_hierarchy_from_api] *)

(** The fields of an organization record that the builder reads.
    [subOrganizationOf = None] is [org_dict.get('subOrganizationOf') is
    None] (key absent or JSON null; the legacy variant tests the key's
    absence). *)
Record org := {
  code : pystr;
  preferredLabel : pystr;
  subOrganizationOf : option pystr
}.

(** A value of [parent_children_orgs]: the one-entry dict
    [{name: children}]; [next(iter(body))] is [body_name] and
    [list(body.values())[0]] is [body_children]. *)
Record body := {
  body_name : pystr;
  body_children : list pystr
}.

(** The inner [for org2 in all_orgs: if org2['code'] == parent_code: ...
    break]. *)
Definition find_org (all_orgs : list org) (parent_code : pystr) : option org :=
  find (fun org2 => if pystr_eq_dec (code org2) parent_code then true else false)
       all_orgs.

(** One iteration of the first loop. *)
Definition hierarchy_step (all_orgs : list org) (parent_children_orgs : dict body)
           (org_dict : org) : dict body :=
  match subOrganizationOf org_dict with
  | None =>
    let orgcode := code org_dict in
    if dict_mem orgcode parent_children_orgs then parent_children_orgs
    else dict_set orgcode
                  {| body_name := preferredLabel org_dict; body_children := [] |}
                  parent_children_orgs
  | Some parent_code =>
    match dict_get parent_code parent_children_orgs with
    | None =>
      match find_org all_orgs parent_code with
      | Some org2 =>
        dict_set parent_code
                 {| body_name := preferredLabel org2;
                    body_children := [preferredLabel org_dict] |}
                 parent_children_orgs
      | None => parent_children_orgs
      end
    | Some parentbody =>
      dict_set parent_code
               {| body_name := body_name parentbody;
                  body_children :=
                    body_children parentbody ++ [preferredLabel org_dict] |}
               parent_children_orgs
    end
  end.

Definition build_parent_children (all_orgs l : list org) : dict body :=
  fold_left (hierarchy_step all_orgs) l [].

Definition parent_children_orgs (all_orgs : list org) : dict body :=
  build_parent_children all_orgs all_orgs.

(** The second loop: [hierarchy[name] = children] for each item. *)
Definition flatten (pco : dict body) : dict (list pystr) :=
  fold_left (fun hierarchy item =>
               dict_set (body_name (snd item)) (body_children (snd item)) hierarchy)
            pco [].

Definition _fetch_hierarchy_from_api (all_orgs : list org) : dict (list pystr) :=
  flatten (parent_children_orgs all_orgs).

(** The (parent name, child name) pairs of a hierarchy. *)
Definition pairs (h : dict (list pystr)) : list (pystr * pystr) :=
  flat_map (fun item => map (fun c => (fst item, c)) (snd item)) h.

Definition same_pairs (h1 h2 : dict (list pystr)) : Prop :=
  forall x, In x (pairs h1) <-> In x (pairs h2).

(* ================================================================= *)
(** ** Wiki pages *)

(** Modelled from the spec: the page objects handed out by
    [diavlos.src.site.Site] (mwclient pages), which are not part of these
    sources.  A page is the spec's WikiPage: it exists or not, has a text,
    [edit] sets the text (creating the page), [delete] removes it. *)
Record page := {
  page_name : pystr;
  page_title : pystr;
  page_exists : bool;
  page_text : pystr
}.

Definition page_edit (p : page) (new_text : pystr) : page :=
  {| page_name := page_name p; page_title := page_title p;
     page_exists := true; page_text := new_text |}.

Definition page_delete (p : page) : page :=
  {| page_name := page_name p; page_title := page_title p;
     page_exists := false; page_text := [] |}.

Definition CATEGORY_PREFIX : pystr := lit "[[Category:".

(** The value of [new_text] when the test [if new_text is not None] of
    [_add_text_to_page] is reached, for a page that is not [None]. *)
Definition new_text_of (p : page) (text : pystr) (replace_text : option pystr)
  : option pystr :=
  if page_exists p then
    let page_text := page_text p in
    match replace_text with
    | Some r =>
      if contains r page_text then Some (replace r text page_text)
      else if negb (contains CATEGORY_PREFIX page_text) then Some text
      else None
    | None =>
      if negb (contains CATEGORY_PREFIX page_text) then Some text else None
    end
  else Some text.

(** [_add_text_to_page(page, text, replace_text)]: the page afterwards and
    the texts passed to [page.edit], in order. *)
Definition _add_text_to_page (pg : option page) (text : pystr)
           (replace_text : option pystr) : option page * list pystr :=
  match pg with
  | None => (None, [])
  | Some p =>
    match new_text_of p text replace_text with
    | Some new_text => (Some (page_edit p new_text), [new_text])
    | None => (Some p, [])
    end
  end.

(** Modelled from the spec: the wiki behind [Site] as a page store.  A name
    outside [wiki_pages] (or [wiki_categories]) is one whose lookup raises. *)
Record wiki := {
  wiki_pages : dict page;
  wiki_categories : dict page;
  wiki_catalogue : list page
}.

(** [_get_site_page]: any exception of the lookup is logged and turned into
    [None]. *)
Definition _get_site_page (w : wiki) (name : pystr) (is_category : bool)
  : option page :=
  if is_category then dict_get name (wiki_categories w)
  else dict_get name (wiki_pages w).

(* ================================================================= *)
(** ** JSON data and the detail fetcher *)

(** The JSON values of the registry's records (numbers are integers). *)
#[warnings="-register-all"]
Inductive pyval :=
| PNone
| PStr (s : pystr)
| PInt (z : Z)
| PList (l : list pyval)
| PDict (d : list (pystr * pyval)).

(** Python truthiness: [if v:]. *)
Definition truthy (v : pyval) : bool :=
  match v with
  | PNone => false
  | PStr s => match s with [] => false | _ => true end
  | PInt z => negb (Z.eqb z 0)
  | PList l => match l with [] => false | _ => true end
  | PDict d => match d with [] => false | _ => true end
  end.

(** [d.get(k)] *)
Definition get (k : pystr) (d : dict pyval) : pyval :=
  match dict_get k d with Some v => v | None => PNone end.

Definition STATUS_TRANSLATION : dict pystr :=
  [(lit "Active", lit "Ενεργός"); (lit "Inactive", lit "Ανενεργός")].

(** [STATUS_TRANSLATION[status]] *)
Definition translate_status (status : pyval) : result pystr :=
  match status with
  | PStr s =>
    match dict_get s STATUS_TRANSLATION with
    | Some t => Ok t
    | None => Raise KeyError
    end
  | PNone | PInt _ => Raise KeyError
  | PList _ | PDict _ => Raise TypeError
  end.

(** Iteration over a value ([for id_ in purpose_ids]). *)
Definition py_iter (v : pyval) : result (list pyval) :=
  match v with
  | PList l => Ok l
  | PStr s => Ok (map (fun c => PStr [c]) s)
  | PDict d => Ok (map (fun kv => PStr (fst kv)) d)
  | PInt _ | PNone => Raise TypeError
  end.

Fixpoint mapM {A B} (f : A -> result B) (l : list A) : result (list B) :=
  match l with
  | [] => Ok []
  | a :: l' => bind (f a) (fun b => bind (mapM f l') (fun bs => Ok (b :: bs)))
  end.

Section FetchDetails.
(** Outcomes of the collaborator calls: [self._name_by_code(code)] (None
    when no data is found), [self._purpose_by_id[id_]] and
    [self._type_by_id[type_id]] (which raise on a missing key). *)
Variable _name_by_code : pyval -> option pystr.
Variable _purpose_by_id : pyval -> result pystr.
Variable _type_by_id : pyval -> result pyval.

Definition replace_parent (d : dict pyval) : dict pyval :=
  let parent_code := get (lit "subOrganizationOf") d in
  if truthy parent_code then
    let parent_name :=
        match _name_by_code parent_code with Some n => n | None => [] end in
    dict_set (lit "subOrganizationOf") (PStr parent_name) d
  else d.

Definition replace_purpose (d : dict pyval) : result (dict pyval) :=
  let purpose_ids := get (lit "purpose") d in
  if truthy purpose_ids then
    bind (py_iter purpose_ids) (fun ids =>
    bind (mapM _purpose_by_id ids) (fun names =>
    Ok (dict_set (lit "purpose") (PStr (join (lit ",") names)) d)))
  else Ok d.

Definition replace_status (d : dict pyval) : result (dict pyval) :=
  let status := get (lit "status") d in
  if truthy status then
    bind (translate_status status) (fun t =>
    Ok (dict_set (lit "status") (PStr t) d))
  else Ok d.

Definition replace_type (d : dict pyval) : result (dict pyval) :=
  let type_id := get (lit "organizationType") d in
  if truthy type_id then
    bind (_type_by_id type_id) (fun t =>
    Ok (dict_set (lit "organizationType") t d))
  else Ok d.

(** The translations [fetch_details_from_api] applies, in place, to the
    data of one organization ([details[org]]). *)
Definition translate_details (data : dict pyval) : result (dict pyval) :=
  bind (replace_purpose (replace_parent data)) (fun d =>
  bind (replace_status d) replace_type).
End FetchDetails.

(* ================================================================= *)
(** ** Template renderer and page update: [update_pages] *)

Definition TEMPLATE_CONTACT_POINT_TELEPHONE : pystr := lit "contactPoint_telephone".

Definition TEMPLATE_FIELD_NAME_SUFFIXES : list pystr :=
  [ lit "code"; lit "preferredLabel"; lit "alternativeLabels";
    lit "description"; lit "url"; TEMPLATE_CONTACT_POINT_TELEPHONE;
    lit "contactPoint_email"; lit "mainAddress_fullAddress";
    lit "mainAddress_postCode"; lit "subOrganizationOf"; lit "identifier";
    lit "purpose"; lit "vatId"; lit "status"; lit "foundationDate";
    lit "terminationDate"; lit "organizationType" ].

Definition TEMPLATE_NAME : pystr := lit "Φορέας".
Definition TEMPLATE_PARAM_PREFIX : pystr := lit "gov_org_".

Definition TEMPLATE_PARAMETERS_TEXT : pystr :=
  concat (map (fun key => lit "|" ++ TEMPLATE_PARAM_PREFIX ++ key ++ lit "=")
              TEMPLATE_FIELD_NAME_SUFFIXES).

Definition TEMPLATE : pystr :=
  lit "{{" ++ TEMPLATE_NAME ++ TEMPLATE_PARAMETERS_TEXT ++ lit "}}".

(** The character of the escape [\n]. *)
Definition NEWLINE : pystr := [10%N].

(** [s.split(sep)] for a one-character separator. *)
Fixpoint split (sep : N) (s : pystr) : list pystr :=
  match s with
  | [] => [[]]
  | c :: s' =>
    if N.eq_dec c sep then [] :: split sep s'
    else match split sep s' with
         | w :: ws => (c :: w) :: ws
         | [] => [[c]]
         end
  end.

(** [xml.sax.saxutils.escape] *)
Definition escape (data : pystr) : pystr :=
  replace (lit "<") (lit "&lt;")
          (replace (lit ">") (lit "&gt;")
                   (replace (lit "&") (lit "&amp;") data)).

(** [str(z)] for an integer. *)
Definition str_of_Z (z : Z) : pystr :=
  lit (DecimalString.NilZero.string_of_int (Z.to_int z)).

(** The longest prefix whose characters satisfy [f]: a [for] loop that
    appends the characters and breaks at the first one failing [f]. *)
Fixpoint take_while (f : N -> bool) (s : pystr) : pystr :=
  match s with
  | [] => []
  | c :: s' => if f c then c :: take_while f s' else []
  end.

(** Length of the longest run of characters satisfying [f] at the head. *)
Fixpoint span (f : N -> bool) (s : pystr) : nat :=
  match s with
  | [] => 0
  | c :: s' => if f c then S (span f s') else 0
  end.

Definition not_brace (c : N) : bool := negb ((c =? 123) || (c =? 125))%N.

(** The pattern [{{Φορέας[^{}]+}}] of [update_pages] at one position.  The
    greedy class takes the longest brace-free run; a shorter run would have
    to be followed by a brace-free character, so backtracking never finds
    another match. *)
Definition TEMPLATE_OPENING : pystr := lit "{{" ++ TEMPLATE_NAME.
Definition TEMPLATE_CLOSING : pystr := lit "}}".

Definition template_block_matcher (s : pystr) : option nat :=
  if starts_with TEMPLATE_OPENING s then
    let rest := skipn (length TEMPLATE_OPENING) s in
    let n := span not_brace rest in
    if Nat.ltb 0 n && starts_with TEMPLATE_CLOSING (skipn n rest)
    then Some (length TEMPLATE_OPENING + n + length TEMPLATE_CLOSING)
    else None
  else None.

(** [re.sub(rf'{{{{{TEMPLATE_NAME}[^{{}}]+}}}}', '', page_text)] *)
Definition remove_template_blocks (page_text : pystr) : pystr :=
  scan template_block_matcher [] 0 page_text.

(** The pattern [' +'] at one position. *)
Definition spaces_matcher (s : pystr) : option nat :=
  match span (fun c => c =? 32)%N s with
  | O => None
  | n => Some n
  end.

Section Template.
(** What the sources take from outside: [str.isdigit] beyond ASCII (the
    Unicode database), [str(value)] of a dict, and the serialization
    [str(template)] of the mwtemplates template built from [TEMPLATE]
    after the given parameter assignments, in order. *)
Variable unicode_isdigit : N -> bool.
Variable str_of_dict : list (pystr * pyval) -> pystr.
Variable serialize : list (pystr * pystr) -> pystr.

(** [c.isdigit()] *)
Definition isdigit (c : N) : bool :=
  if (c <? 128)%N then ((48 <=? c) && (c <=? 57))%N else unicode_isdigit c.

(** The telephone clean-up of [template_text]. *)
Definition clean_telephone (value : pystr) : pystr :=
  let value := replace (lit "+30") [] (replace (lit " ") [] value) in
  take_while isdigit value.

(** [','.join(value)] raises on an item that is not a string. *)
Definition join_items (l : list pyval) : result pystr :=
  bind (mapM (fun v => match v with PStr s => Ok s | _ => Raise TypeError end) l)
       (fun ss => Ok (join (lit ",") ss)).

(** The value looked up for one key of the template. *)
Definition lookup_value (org_details : dict pyval) (key : pystr) : result pyval :=
  if contains (lit "_") key then
    let details_keys := split 95 key in
    match dict_get (nth 0 details_keys []) org_details with
    | None => Ok PNone
    | Some (PDict inner) => Ok (get (nth 1 details_keys []) inner)
    | Some _ => Raise AttributeError
    end
  else Ok (get key org_details).

(** The string assigned to the parameter of [key], if any: the list
    join, [str(value)], the escape and the telephone clean-up. *)
Definition parameter_value (org_details : dict pyval) (key : pystr)
  : result (option pystr) :=
  let finish (value : pystr) : result (option pystr) :=
      let value := escape value in
      Ok (Some (if pystr_eq_dec key TEMPLATE_CONTACT_POINT_TELEPHONE
                then clean_telephone value else value)) in
  bind (lookup_value org_details key) (fun value =>
  match value with
  | PNone => Ok None
  | PList l => bind (join_items l) finish
  | PStr s => finish s
  | PInt z => finish (str_of_Z z)
  | PDict d => finish (str_of_dict d)
  end).

Fixpoint assignments (org_details : dict pyval) (keys : list pystr)
  : result (list (pystr * pystr)) :=
  match keys with
  | [] => Ok []
  | key :: keys' =>
    bind (parameter_value org_details key) (fun v =>
    bind (assignments org_details keys') (fun rest =>
    Ok (match v with
        | Some value => (TEMPLATE_PARAM_PREFIX ++ key, value) :: rest
        | None => rest
        end)))
  end.

(** [template_text(org_details)] *)
Definition template_text (org_details : dict pyval) : result pystr :=
  bind (assignments org_details TEMPLATE_FIELD_NAME_SUFFIXES) (fun params =>
  Ok (replace (lit " |") (lit "|") (serialize params))).

(** [page_text_leftovers] *)
Definition page_text_leftovers (page_text : pystr) : pystr :=
  strip (remove_template_blocks page_text).

(** [new_page_text] *)
Definition new_page_text (new_template_text page_text : pystr) : pystr :=
  new_template_text ++ NEWLINE ++ page_text_leftovers page_text.

(** One iteration of the loop of [update_pages]: the page afterwards. *)
Definition update_page (force_create : bool) (pg : option page)
           (org_details : dict pyval) : result (option page) :=
  match pg with
  | None => Ok None
  | Some p =>
    if force_create || page_exists p then
      bind (template_text org_details) (fun new_template_text =>
      Ok (Some (page_edit p (new_page_text new_template_text (page_text p)))))
    else Ok (Some p)
  end.
End Template.

(** A serialization to evaluate the renderer with: the parameters of
    [TEMPLATE] in their order, each with its assigned value. *)
Definition plain_serialize (params : list (pystr * pystr)) : pystr :=
  lit "{{" ++ TEMPLATE_NAME
      ++ concat (map (fun key =>
                        let name := TEMPLATE_PARAM_PREFIX ++ key in
                        lit "|" ++ name ++ lit "="
                            ++ match dict_get name params with
                               | Some v => v
                               | None => []
                               end)
                     TEMPLATE_FIELD_NAME_SUFFIXES)
      ++ lit "}}".

(* ================================================================= *)
(** ** Pruner: [delete_old] *)

(** [re.sub(' +', ' ', label.strip())] *)
Definition normalize_label (label : pystr) : pystr :=
  scan spaces_matcher (lit " ") 0 (strip label).

Definition latest_org_names (all_orgs : list org) : list pystr :=
  map (fun o => normalize_label (preferredLabel o)) all_orgs.

(** [x in l] for a list of strings. *)
Definition str_in (x : pystr) (l : list pystr) : bool :=
  if in_dec pystr_eq_dec x l then true else false.

(** What [delete_old] does to the outside: the lines it prints and the
    names of the pages it deletes, both in order. *)
Record effects := {
  printed : list pystr;
  deleted : list pystr
}.

Definition print (line : pystr) (e : effects) : effects :=
  {| printed := printed e ++ [line]; deleted := deleted e |}.

Definition mark_deleted (name : pystr) (l : list page) : list page :=
  map (fun p => if pystr_eq_dec (page_name p) name then page_delete p else p) l.

Definition mark_deleted_dict (name : pystr) (d : dict page) : dict page :=
  map (fun kv => (fst kv,
                  if pystr_eq_dec (page_name (snd kv)) name
                  then page_delete (snd kv) else snd kv)) d.

(** [page.delete(reason=...)] *)
Definition delete (p : page) (st : wiki * effects) : wiki * effects :=
  let (w, e) := st in
  ({| wiki_pages := mark_deleted_dict (page_name p) (wiki_pages w);
      wiki_categories := mark_deleted_dict (page_name p) (wiki_categories w);
      wiki_catalogue := mark_deleted (page_name p) (wiki_catalogue w) |},
   {| printed := printed e; deleted := deleted e ++ [page_name p] |}).

(** The body of the loop of [delete_old] for one catalogue page. *)
Definition delete_old_step (names : list pystr) (dry_run : bool)
           (org_page : page) (st : wiki * effects)
  : (wiki * effects) * result unit :=
  let org_page_title := page_title org_page in
  if negb (str_in org_page_title names) then
    if dry_run then
      ((fst st, print (lit "SHOULD BE DELETED: " ++ org_page_title) (snd st)),
       Ok tt)
    else
      let st := delete org_page st in
      match _get_site_page (fst st) org_page_title true with
      | None => (st, Raise AttributeError)
      | Some org_category_page =>
        if page_exists org_category_page then
          let st := delete org_category_page st in
          ((fst st,
            print (lit "PAGE AND CATEGORY WAS DELETED: " ++ org_page_title)
                  (snd st)), Ok tt)
        else
          ((fst st,
            print (lit "PAGE WAS DELETED: " ++ org_page_title) (snd st)),
           Ok tt)
      end
  else (st, Ok tt).

Fixpoint delete_old_loop (names : list pystr) (dry_run : bool)
         (org_pages : list page) (st : wiki * effects)
  : (wiki * effects) * result unit :=
  match org_pages with
  | [] => (st, Ok tt)
  | org_page :: rest =>
    match delete_old_step names dry_run org_page st with
    | (st', Ok _) => delete_old_loop names dry_run rest st'
    | (st', Raise e) => (st', Raise e)
    end
  end.

(** [delete_old(dry_run)], given the records [self._all()] returns; the
    catalogue pages are those listed when the loop starts. *)
Definition delete_old (all_orgs : list org) (dry_run : bool) (w : wiki)
  : (wiki * effects) * result unit :=
  delete_old_loop (latest_org_names all_orgs) dry_run (wiki_catalogue w)
                  (w, {| printed := []; deleted := [] |}).

Definition mk_org (c l : string) (p : option string) : org :=
  {| code := lit c; preferredLabel := lit l;
     subOrganizationOf := option_map lit p |}.

Definition CATEGORY : pystr := lit "[[Category:Φορείς]]".

(** Two calls in a row with the same text and marker. *)
Definition add_text_twice (pg : option page) (text : pystr)
           (replace_text : option pystr) : option page :=
  fst (_add_text_to_page (fst (_add_text_to_page pg text replace_text))
                         text replace_text).

Definition sample_page (exists_ : bool) (text : string) : page :=
  {| page_name := lit "Category:X"; page_title := lit "X";
     page_exists := exists_; page_text := lit text |}.

Definition sample_wiki : wiki :=
  {| wiki_pages := [(lit "Φορέας:A", sample_page true "[[Category:A]]")];
     wiki_categories := [];
     wiki_catalogue := [] |}.

(** Sample inputs. *)
Definition no_digit (_ : N) : bool := false.
Definition no_repr (_ : list (pystr * pyval)) : pystr := [].

Definition sample_details : dict pyval :=
  [ (lit "code", PStr (lit "12"));
    (lit "preferredLabel", PStr (lit "A"));
    (lit "contactPoint",
     PDict [(lit "telephone", PStr (lit "+30 21 0123 4567ext2"))]);
    (lit "status", PStr (lit "Active")) ].

Definition sample_catalogue_page (title : string) : page :=
  {| page_name := lit "Φορέας:" ++ lit title; page_title := lit title;
     page_exists := true; page_text := lit "[[Category:Κατάλογος Φορέων]]" |}.

Definition sample_category_page (title : string) : page :=
  {| page_name := lit "Category:" ++ lit title; page_title := lit title;
     page_exists := true; page_text := lit "[[Category:Φορείς]]" |}.

Definition sample_catalogue_wiki : wiki :=
  {| wiki_pages := [];
     wiki_categories := [(lit "C", sample_category_page "C")];
     wiki_catalogue := [ sample_catalogue_page "A"; sample_catalogue_page "B";
                         sample_catalogue_page "C" ] |}.

Definition sample_upstream : list org :=
  [mk_org "1" "A" None; mk_org "2" "B" (Some "1")].

(** The titles [delete_old] acts on: those outside the upstream names. *)
Definition flagged (all_orgs : list org) (w : wiki) : list pystr :=
  filter (fun t => negb (str_in t (latest_org_names all_orgs)))
         (map page_title (wiki_catalogue w)).

(** A block the pattern of [update_pages] matches: the opening, a
    non-empty brace-free body, the closing. *)
Definition is_template_block (b : pystr) : Prop :=
  exists body, body <> [] /\ Forall (fun c => not_brace c = true) body /\
               b = TEMPLATE_OPENING ++ body ++ TEMPLATE_CLOSING.

(** A text made of stretches of other text with blocks in between. *)
Definition interleave (p0 : pystr) (segs : list (pystr * pystr)) : pystr :=
  p0 ++ concat (map (fun bp => fst bp ++ snd bp) segs).

(** No opening brace in a stretch of text. *)
Definition no_open_brace (p : pystr) : Prop := ~ In 123%N p.

Definition count_open_braces (s : pystr) : nat := count_occ N.eq_dec s 123%N.

Definition sample_empty_page : page :=
  {| page_name := lit "Φορέας:A"; page_title := lit "A";
     page_exists := true; page_text := [] |}.

Definition two_blocks_page : pystr := lit "{{Φορέας|a=1}}X{{Φορέας|b=2}}".

(** The telephone clean-up as the specification words it: strip the
    spaces, strip a leading "+30", cut at the first character that is not a
    digit. *)
Definition spec_clean_telephone (unicode_isdigit : N -> bool) (value : pystr)
  : pystr :=
  let value := replace (lit " ") [] value in
  let value := if starts_with (lit "+30") value then skipn 3 value else value in
  take_while (isdigit unicode_isdigit) value.

Definition not_space (c : N) : bool := negb (c =? 32)%N.

(** ** Reading the hierarchy builder *)

Definition codes (l : list org) : list pystr := map code l.

(** [o] names [c] as its parent. *)
Definition has_parent (c : pystr) (o : org) : bool :=
  match subOrganizationOf o with
  | Some p => if pystr_eq_dec p c then true else false
  | None => false
  end.

(** The names of the records of [l] whose parent code is [c], in order. *)
Definition children_of (c : pystr) (l : list org) : list pystr :=
  map preferredLabel (filter (has_parent c) l).

(** What holds of the entry of code [c] once the records [l] have been
    processed: its children are the records naming [c] as parent, and its
    name is that of a record with code [c] which is a root or a parent. *)
Definition node_ok (all_orgs l : list org) (c : pystr) (b : body) : Prop :=
  body_children b = children_of c l /\
  exists o, In o all_orgs /\ code o = c /\ preferredLabel o = body_name b /\
            (subOrganizationOf o = None \/
             exists o', In o' l /\ subOrganizationOf o' = Some c).

(** What holds of a code without entry. *)
Definition absent_ok (all_orgs l : list org) (c : pystr) : Prop :=
  (forall o, In o l -> subOrganizationOf o = Some c -> ~ In c (codes all_orgs)) /\
  (forall o, In o l -> subOrganizationOf o = None -> code o <> c).

Definition builder_inv (all_orgs l : list org) (d : dict body) : Prop :=
  NoDup (dict_keys d) /\
  forall c, match dict_get c d with
            | Some b => node_ok all_orgs l c b
            | None => absent_ok all_orgs l c
            end.

Definition entry_of (item : pystr * body) : pystr * list pystr :=
  (body_name (snd item), body_children (snd item)).

(** Sample records: an orphan that is itself a parent, and two roots of
    the same name with children. *)
Definition orphan_orgs : list org :=
  [mk_org "1" "A" (Some "99"); mk_org "2" "B" (Some "1")].

Definition homonym_orgs : list org :=
  [mk_org "1" "X" None; mk_org "2" "X" None; mk_org "3" "a" (Some "1");
   mk_org "4" "b" (Some "2"); mk_org "5" "b" (Some "2")].

Definition same_code_orgs : list org :=
  [mk_org "1" "X" None; mk_org "1" "Y" None; mk_org "3" "a" (Some "1")].

Definition plain_orgs : list org :=
  [mk_org "1" "P" None; mk_org "2" "A" (Some "1"); mk_org "3" "B" (Some "1");
   mk_org "4" "C" (Some "99")].

(* ================================================================= *)
(** ** Page reconciler: [_create_pages] and [recreate_tree] *)

Definition NAMESPACE : pystr := lit "Φορέας".
Definition CATALOGUE_CATEGORY_NAME : pystr := lit "Κατάλογος Φορέων".
Definition CATALOGUE_CATEGORY : pystr :=
  lit "[[Category:" ++ CATALOGUE_CATEGORY_NAME ++ lit "]]".

(** A page object is the wiki's page: what a call leaves of it is what the
    wiki holds afterwards under the name it was looked up with.  (The
    listing [wiki_catalogue] is what the API returned; category membership
    is not recomputed from the page texts.) *)
Definition store_page (is_category : bool) (name : pystr) (pg : option page)
           (w : wiki) : wiki :=
  match pg with
  | None => w
  | Some p =>
    if is_category then
      {| wiki_pages := wiki_pages w;
         wiki_categories := dict_set name p (wiki_categories w);
         wiki_catalogue := wiki_catalogue w |}
    else
      {| wiki_pages := dict_set name p (wiki_pages w);
         wiki_categories := wiki_categories w;
         wiki_catalogue := wiki_catalogue w |}
  end.

(** [_add_text_to_page(self._get_site_page(name, is_category), text,
    replace_text)] on the wiki; the second component logs the edits made,
    as (looked-up name, new text). *)
Definition add_text_at (is_category : bool) (name text : pystr)
           (replace_text : option pystr) (st : wiki * list (pystr * pystr))
  : wiki * list (pystr * pystr) :=
  let r := _add_text_to_page (_get_site_page (fst st) name is_category)
                             text replace_text in
  (store_page is_category name (fst r) (fst st),
   snd st ++ map (fun t => (name, t)) (snd r)).

(** [_create_pages(name, parent_category)] *)
Definition _create_pages (name : pystr) (parent_category : option pystr)
           (st : wiki * list (pystr * pystr)) : wiki * list (pystr * pystr) :=
  let parent_category' :=
      match parent_category with None => CATEGORY | Some pc => pc end in
  let replace_text :=
      match parent_category with None => None | Some _ => Some CATEGORY end in
  let st := add_text_at true name parent_category' replace_text st in
  add_text_at false (NAMESPACE ++ lit ":" ++ name) CATALOGUE_CATEGORY None st.

(** [recreate_tree], given the hierarchy [self._hierarchy()] returns. *)
Definition recreate_tree (hierarchy : dict (list pystr)) (w : wiki)
  : wiki * list (pystr * pystr) :=
  fold_left
    (fun st item =>
       let st := _create_pages (fst item) None st in
       let parent_category := lit "[[Category:" ++ fst item ++ lit "]]" in
       fold_left (fun st child => _create_pages child (Some parent_category) st)
                 (snd item) st)
    hierarchy (w, []).

(** A page that exists and carries a category marker. *)
Definition categorized (p : page) : Prop :=
  page_exists p = true /\ contains CATEGORY_PREFIX (page_text p) = true.

(** The names a hierarchy mentions, parents and children. *)
Definition hierarchy_names (h : dict (list pystr)) : list pystr :=
  flat_map (fun item => fst item :: snd item) h.

Definition hierarchy_children (h : dict (list pystr)) : list pystr :=
  flat_map (fun item => snd item) h.

Definition sample_hierarchy : dict (list pystr) :=
  [(lit "A", [lit "B"; lit "C"]); (lit "B", [lit "D"])].

Definition blank_page (name title : string) : page :=
  {| page_name := lit name; page_title := lit title;
     page_exists := false; page_text := [] |}.

Definition blank_wiki : wiki :=
  {| wiki_pages := [(lit "Φορέας:A", blank_page "Φορέας:A" "A");
                    (lit "Φορέας:B", blank_page "Φορέας:B" "B");
                    (lit "Φορέας:D", blank_page "Φορέας:D" "D")];
     wiki_categories := [(lit "B", blank_page "Category:B" "B");
                         (lit "A", blank_page "Category:A" "A");
                         (lit "C", blank_page "Category:C" "C")];
     wiki_catalogue := [] |}.

(** The pages of one kind, by the name they are looked up with. *)
Definition wiki_dict (is_category : bool) (w : wiki) : dict page :=
  if is_category then wiki_categories w else wiki_pages w.

(** Every reachable page of that kind and name is categorized. *)
Definition categorized_at (is_category : bool) (name : pystr) (w : wiki) : Prop :=
  forall p, dict_get name (wiki_dict is_category w) = Some p -> categorized p.

Definition content_name (name : pystr) : pystr := NAMESPACE ++ lit ":" ++ name.

Definition categorizing (pc : option pystr) : Prop :=
  forall t, pc = Some t -> contains CATEGORY_PREFIX t = true.

(** The loop over the children of one parent, and the body of the loop of
    [recreate_tree]. *)
Definition create_children (parent : pystr) (children : list pystr)
           (st : wiki * list (pystr * pystr)) : wiki * list (pystr * pystr) :=
  fold_left (fun st child =>
               _create_pages child
                             (Some (lit "[[Category:" ++ parent ++ lit "]]")) st)
            children st.

Definition tree_step (st : wiki * list (pystr * pystr))
           (item : pystr * list pystr) : wiki * list (pystr * pystr) :=
  create_children (fst item) (snd item) (_create_pages (fst item) None st).

(** A wiki on which [recreate_tree] has nothing left to do for [h]. *)
Definition settled (h : dict (list pystr)) (w : wiki) : Prop :=
  (forall n, In n (hierarchy_names h) ->
             categorized_at true n w /\ categorized_at false (content_name n) w) /\
  (forall n p, In n (hierarchy_children h) ->
               dict_get n (wiki_categories w) = Some p ->
               contains CATEGORY (page_text p) = false).

(** Nothing is removed from [w] to [w']: every page is still there under
    its name, and an existing page still exists. *)
Definition stays (w w' : wiki) : Prop :=
  wiki_catalogue w' = wiki_catalogue w /\
  forall c n p, dict_get n (wiki_dict c w) = Some p ->
    exists p', dict_get n (wiki_dict c w') = Some p' /\
               page_name p' = page_name p /\
               (page_exists p = true -> page_exists p' = true).

(** A JSON object. *)
Definition is_object (v : pyval) : bool :=
  match v with PDict _ => true | _ => false end.

(** ** Reading [normalize_label] *)

Definition is_blank (c : N) : bool := (c =? 32)%N.

(** Runs of spaces squeezed to one space, read character by character;
    [after_space] tells that the previous character was a space. *)
Fixpoint squeeze (after_space : bool) (s : pystr) : pystr :=
  match s with
  | [] => []
  | c :: s' =>
    if is_blank c then
      if after_space then squeeze true s' else c :: squeeze true s'
    else c :: squeeze false s'
  end.

(** No two spaces in a row (and no leading space when [after_space]). *)
Fixpoint single_spaced (after_space : bool) (s : pystr) : bool :=
  match s with
  | [] => true
  | c :: s' =>
    if is_blank c then negb after_space && single_spaced true s'
    else single_spaced false s'
  end.

(* ================================================================= *)
(** ** Tree teardown: [nuke_tree] *)

(** Modelled from the spec: what the wiki answers during the teardown.  A
    page either has no [members()] (the call raises [AttributeError]: it
    is not a category) or is a category with the pages its listing
    returns; the listings are taken as they are when they are made. *)
#[warnings="-register-all"]
Inductive wiki_node :=
| PlainPage (p : page)
| CategoryPage (p : page) (members : list wiki_node).

Definition node_page (n : wiki_node) : page :=
  match n with PlainPage p => p | CategoryPage p _ => p end.

Definition is_category_node (n : wiki_node) : bool :=
  match n with PlainPage _ => false | CategoryPage _ _ => true end.

(** [recurse_delete(page)]: the names of the pages deleted, in order. *)
Fixpoint recurse_delete (n : wiki_node) : list pystr :=
  match n with
  | PlainPage p =>
    if page_exists p then
      if starts_with NAMESPACE (page_name p) then [page_name p] else []
    else []
  | CategoryPage p members =>
    if page_exists p then flat_map recurse_delete members ++ [page_name p]
    else []
  end.

(** [nuke_tree], given the members of the root category. *)
Definition nuke_tree (root_members : list wiki_node) : list pystr :=
  flat_map recurse_delete root_members.

(** The pages the teardown comes to: the members of the root category and,
    below them, the members of every existing category. *)
Inductive visited (forest : list wiki_node) : wiki_node -> Prop :=
| visited_root n : In n forest -> visited forest n
| visited_member p members n :
    visited forest (CategoryPage p members) ->
    page_exists p = true -> In n members -> visited forest n.

(** The test of the [finally] clause. *)
Definition deletable (n : wiki_node) : bool :=
  page_exists (node_page n)
  && (is_category_node n || starts_with NAMESPACE (page_name (node_page n))).

Definition sample_node (category : bool) (name : string) (exists_ : bool)
           (members : list wiki_node) : wiki_node :=
  let p := {| page_name := lit name; page_title := lit name;
              page_exists := exists_; page_text := [] |} in
  if category then CategoryPage p members else PlainPage p.

Definition sample_forest : list wiki_node :=
  [ sample_node true "Category:A" true
      [ sample_node false "Φορέας:A" true [];
        sample_node false "Help:A" true [];
        sample_node true "Category:B" false
          [ sample_node false "Φορέας:B" true [] ] ];
    sample_node false "Φορέας:C" false [] ].

(* ================================================================= *)
(** ** Snapshots: [_fetch_data] and [_data] *)

Section Snapshot.
(** The files are a dict from file name to the pickled value ([_unpickle]
    gives back what [_pickle] wrote; a missing file is
    [FileNotFoundError]).  A fetch function is run on the files and gives
    its data and the files as it leaves them: the fetchers of [_hierarchy]
    and [_details] call [self._all()], which may pickle the organization
    list.  The last component of [_data] counts the calls of the fetch
    function. *)
Variable A : Type.

Definition _fetch_data (fetch_func : dict A -> A * dict A)
           (pickle_data_to_file : option pystr) (files : dict A) : A * dict A :=
  let (data, files) := fetch_func files in
  match pickle_data_to_file with
  | Some file => (data, dict_set file data files)
  | None => (data, files)
  end.

Definition _data (file : pystr) (fetch_from_api_func : dict A -> A * dict A)
           (fetch_from_api : bool) (files : dict A) : (A * dict A) * nat :=
  if fetch_from_api then (_fetch_data fetch_from_api_func (Some file) files, 1)
  else
    match dict_get file files with
    | Some data => ((data, files), 0)
    | None => (_fetch_data fetch_from_api_func (Some file) files, 1)
    end.
End Snapshot.

(** A fetch function that, like [_fetch_hierarchy_from_api], first reads
    another snapshot through [_data]. *)
Definition sample_inner_fetch (files : dict (list pystr))
  : list pystr * dict (list pystr) :=
  ([lit "A"; lit "B"], files).

Definition sample_outer_fetch (files : dict (list pystr))
  : list pystr * dict (list pystr) :=
  let '((all_orgs, files), _) :=
      _data (lit "org_all") sample_inner_fetch false files in
  (rev all_orgs, files).

(* ================================================================= *)
(** ** Name index: [_code_by_name] *)

(** [s.split()]: the words between runs of whitespace; [word] holds the
    characters of the current word, last first. *)
Fixpoint split_words (word : pystr) (s : pystr) : list pystr :=
  match s with
  | [] => match word with [] => [] | _ => [rev word] end
  | c :: s' =>
    if isspace c then
      match word with
      | [] => split_words [] s'
      | _ => rev word :: split_words [] s'
      end
    else split_words (c :: word) s'
  end.

(** [' '.join(label.split())] *)
Definition index_name (label : pystr) : pystr :=
  join (lit " ") (split_words [] label).

(** The dict comprehension over [self._all()]. *)
Definition build_index (all_orgs : list org) : dict pystr :=
  fold_left (fun d org_dict =>
               dict_set (index_name (preferredLabel org_dict)) (code org_dict) d)
            all_orgs [].

(** [_code_by_name(name)]: the code and the index [self.__code_by_name]
    afterwards; [all_orgs] is what [self._all()] returns. *)
Definition _code_by_name (all_orgs : list org) (name : pystr)
           (index : dict pystr) : option pystr * dict pystr :=
  match dict_get name index with
  | Some code => (Some code, index)
  | None =>
    let index := build_index all_orgs in
    (dict_get name index, index)
  end.

(* ================================================================= *)
(** ** Units of an organization: [units] *)

(** A unit of the organization tree: its fields other than [children], and
    its children when it has the key. *)
#[warnings="-register-all"]
Inductive unit_tree :=
| UnitNode (fields : dict pyval) (children : option (list unit_tree)).

Definition unit_fields (u : unit_tree) : dict pyval :=
  match u with UnitNode fields _ => fields end.

Definition unit_children (u : unit_tree) : list unit_tree :=
  match u with
  | UnitNode _ (Some children) => children
  | UnitNode _ None => []
  end.

(** [add_sub_unit(unit)]: what it appends to [units], in order; each unit
    is appended without its [children]. *)
Fixpoint add_sub_unit (u : unit_tree) : list (dict pyval) :=
  match u with
  | UnitNode fields children =>
    match children with
    | Some cs => flat_map add_sub_unit cs
    | None => []
    end ++ [fields]
  end.

(** [unit['unitType'] in unit_types], for a list of integers. *)
Definition unit_type_in (unit_types : list Z) (unit : dict pyval) : result bool :=
  match dict_get (lit "unitType") unit with
  | None => Raise KeyError
  | Some (PInt z) => Ok (existsb (Z.eqb z) unit_types)
  | Some _ => Ok false
  end.

Fixpoint filter_units (unit_types : list Z) (units : list (dict pyval))
  : result (list (dict pyval)) :=
  match units with
  | [] => Ok []
  | unit :: rest =>
    bind (unit_type_in unit_types unit) (fun keep =>
    bind (filter_units unit_types rest) (fun kept =>
    Ok (if keep then unit :: kept else kept)))
  end.

(** [units(name, unit_types)], given the outcomes of
    [self._code_by_name(name)] and of [self._tree_by_code(org_code)] (the
    children of the tree; [None] when the request fails). *)
Definition units (org_code : option pystr) (org_tree : option (list unit_tree))
           (unit_types : option (list Z)) : result (list (dict pyval)) :=
  match org_code with
  | None => Ok []
  | Some _ =>
    let units :=
        match org_tree with
        | Some children => flat_map add_sub_unit children
        | None => []
        end in
    match unit_types with
    | None => Ok units
    | Some types => filter_units types units
    end
  end.

(** The units below a list of trees, at any depth. *)
Inductive unit_below (forest : list unit_tree) : unit_tree -> Prop :=
| unit_below_top u : In u forest -> unit_below forest u
| unit_below_child u v :
    unit_below forest u -> In v (unit_children u) -> unit_below forest v.

Fixpoint count_units (u : unit_tree) : nat :=
  match u with
  | UnitNode _ children =>
    S (match children with
       | Some cs => list_sum (map count_units cs)
       | None => 0
       end)
  end.

Definition sample_unit (code : string) (type : Z) (children : option (list unit_tree))
  : unit_tree :=
  UnitNode [(lit "code", PStr (lit code)); (lit "unitType", PInt type)] children.

Definition sample_units : list unit_tree :=
  [ sample_unit "1" 41 (Some [sample_unit "2" 4 None; sample_unit "3" 3 (Some [])]);
    sample_unit "4" 41 None ].

(* ================================================================= *)
(** ** Page names: [_all_page_names] *)

Section PageNames.
(** The answer of the wiki to the [allpages] query with the given
    [apcontinue] ([None] for the first query): the titles and the
    [apcontinue] value of the answer. *)
Variable api : option pystr -> list pystr * option pystr.

(** The [while] loop, for at most [fuel] queries. *)
Fixpoint page_names_from (fuel : nat) (apcontinue : option pystr)
  : option (list pystr) :=
  match fuel with
  | O => None
  | S fuel' =>
    let answer := api apcontinue in
    match snd answer with
    | None => Some (fst answer)
    | Some continue_value =>
      match page_names_from fuel' (Some continue_value) with
      | Some rest => Some (fst answer ++ rest)
      | None => None
      end
    end
  end.

Definition _all_page_names (fuel : nat) (without_namespace : bool)
  : option (list pystr) :=
  match page_names_from fuel None with
  | Some page_names =>
    Some (if without_namespace
          then map (replace (NAMESPACE ++ lit ":") []) page_names
          else page_names)
  | None => None
  end.

(** The answers from a query on: they end, and give these titles. *)
Inductive answers : option pystr -> list pystr -> Prop :=
| answers_last c : snd (api c) = None -> answers c (fst (api c))
| answers_more c c' rest :
    snd (api c) = Some c' -> answers (Some c') rest ->
    answers c (fst (api c) ++ rest).
End PageNames.

Definition sample_api (apcontinue : option pystr) : list pystr * option pystr :=
  match apcontinue with
  | None => ([lit "Φορέας:A"; lit "Φορέας:B"], Some (lit "C"))
  | Some _ => ([lit "Φορέας:C"], None)
  end.

(* ================================================================= *)
(** ** The loop of [update_pages] *)

Section UpdatePages.
Variable unicode_isdigit : N -> bool.
Variable str_of_dict : list (pystr * pyval) -> pystr.
Variable serialize : list (pystr * pystr) -> pystr.

(** One iteration on the wiki: the page of [org] is looked up, updated and
    what the update leaves of it is the wiki's page; an exception leaves
    the wiki as the iteration found it. *)
Definition update_pages_step (force_create : bool) (w : wiki)
           (item : pystr * dict pyval) : wiki * result unit :=
  let name := NAMESPACE ++ lit ":" ++ fst item in
  match update_page unicode_isdigit str_of_dict serialize force_create
                    (_get_site_page w name false) (snd item) with
  | Ok pg => (store_page false name pg w, Ok tt)
  | Raise e => (w, Raise e)
  end.

(** [update_pages(details=details, force_create=force_create)] *)
Fixpoint update_pages (force_create : bool) (details : dict (dict pyval))
         (w : wiki) : wiki * result unit :=
  match details with
  | [] => (w, Ok tt)
  | item :: rest =>
    match update_pages_step force_create w item with
    | (w', Ok _) => update_pages force_create rest w'
    | (w', Raise e) => (w', Raise e)
    end
  end.

(** Whether [template_text] assigns the parameter of [key]: its value is
    found and is not [None]. *)
Definition has_value (org_details : dict pyval) (key : pystr) : bool :=
  match lookup_value org_details key with
  | Ok PNone => false
  | _ => true
  end.
End UpdatePages.

(* ================================================================= *)
(** ** Reading a scan *)

(** A match begins at the head of [s]. *)
Definition match_starts (is_match : pystr -> Prop) (s : pystr) : Prop :=
  exists b rest, is_match b /\ s = b ++ rest.

(** No match begins at a position of the stretch [p] of the text
    [p ++ rest]. *)
Definition no_match_in (is_match : pystr -> Prop) (p rest : pystr) : Prop :=
  forall a c t, p = a ++ c :: t -> ~ match_starts is_match (c :: t ++ rest).

(** [substituted is_match repl text result]: [result] is [text] with every
    match replaced by [repl], the matches taken from left to right, each
    at the first position, after the match before it, where a match
    begins. *)
Inductive substituted (is_match : pystr -> Prop) (repl : pystr)
  : pystr -> pystr -> Prop :=
| substituted_end : forall p,
    no_match_in is_match p [] -> substituted is_match repl p p
| substituted_match : forall p b rest rest',
    no_match_in is_match p (b ++ rest) ->
    is_match b ->
    substituted is_match repl rest rest' ->
    substituted is_match repl (p ++ b ++ rest) (p ++ repl ++ rest').

(** The string a looked-up value is turned into before the escape, if the
    value is not [None]: [','.join(value)] for a list, [str(value)]
    otherwise. *)
Definition value_text (str_of_dict : list (pystr * pyval) -> pystr)
           (value : pyval) : result (option pystr) :=
  match value with
  | PNone => Ok None
  | PList l => bind (join_items l) (fun s => Ok (Some s))
  | PStr s => Ok (Some s)
  | PInt z => Ok (Some (str_of_Z z))
  | PDict d => Ok (Some (str_of_dict d))
  end.

(** Detail records with the given telephone. *)
Definition telephone_details (telephone : string) : dict pyval :=
  [ (lit "code", PStr (lit "12"));
    (lit "contactPoint", PDict [(lit "telephone", PStr (lit telephone))]) ].

(** A page with a block of another template before the block of
    [TEMPLATE_NAME], and a text whose block has braces inside. *)
Definition infobox_page : page :=
  {| page_name := lit "Φορέας:A"; page_title := lit "A";
     page_exists := true;
     page_text := lit "{{Infobox|x=1}} text {{Φορέας|a=1}}" |}.

Definition nested_block_text : pystr := lit "{{Φορέας|a={{b}}}}".






(** The block rendered from [sample_details] with [plain_serialize]. *)
Definition sample_rendered : pystr :=
  replace (lit " |") (lit "|")
          (plain_serialize
             [(lit "gov_org_code", lit "12");
              (lit "gov_org_preferredLabel", lit "A");
              (lit "gov_org_contactPoint_telephone", lit "2101234567");
              (lit "gov_org_status", lit "Active")]).

(* ================================================================= *)
(** * Properties *)

(** ** Strings *)

Example decode_name : lit "Φορέας" = [934; 959; 961; 941; 945; 962]%N.
Proof. reflexivity. Qed.

Lemma starts_with_app p r : starts_with p (p ++ r) = true.
Proof.
  induction p as [|a p IH]; simpl; [reflexivity|].
  destruct (N.eq_dec a a); [exact IH | congruence].
Qed.

Lemma starts_with_inv p : forall s,
  starts_with p s = true -> exists r, s = p ++ r.
Proof.
  induction p as [|a p IH]; intros s H; simpl in *.
  - exists s; reflexivity.
  - destruct s as [|b s]; [discriminate|].
    destruct (N.eq_dec a b) as [->|]; [|discriminate].
    destruct (IH _ H) as [r ->]. exists r; reflexivity.
Qed.

Lemma contains_intro sub : forall a b, contains sub (a ++ sub ++ b) = true.
Proof.
  induction a as [|c a IH]; intros b.
  - simpl app. destruct (sub ++ b) eqn:E; simpl; rewrite <- ?E;
      rewrite starts_with_app; reflexivity.
  - simpl. rewrite IH. apply orb_true_r.
Qed.

Lemma contains_inv sub : forall s,
  contains sub s = true -> exists a b, s = a ++ sub ++ b.
Proof.
  induction s as [|c s IH]; simpl; intros H.
  - rewrite orb_false_r in H. destruct (starts_with_inv _ _ H) as [r ->].
    exists [], r; reflexivity.
  - apply orb_true_iff in H. destruct H as [H|H].
    + destruct (starts_with_inv _ _ H) as [r ->]. exists [], r; reflexivity.
    + destruct (IH H) as (a & b & ->). exists (c :: a), b; reflexivity.
Qed.

Lemma contains_trans x y z :
  contains x y = true -> contains y z = true -> contains x z = true.
Proof.
  intros H1 H2.
  destruct (contains_inv _ _ H1) as (a & b & ->).
  destruct (contains_inv _ _ H2) as (a' & b' & ->).
  replace (a' ++ (a ++ x ++ b) ++ b') with ((a' ++ a) ++ x ++ (b ++ b'))
    by (rewrite <- !app_assoc; reflexivity).
  apply contains_intro.
Qed.

(** A scan that is dropping the rest of a match [a] resumes after it. *)
Lemma scan_skip m repl a : forall s,
  scan m repl (length a) (a ++ s) = scan m repl 0 s.
Proof.
  induction a as [|c a IH]; intros s; simpl.
  - destruct s; reflexivity.
  - apply IH.
Qed.

Lemma scan_match m repl b s :
  b <> [] -> m (b ++ s) = Some (length b) ->
  scan m repl 0 (b ++ s) = repl ++ scan m repl 0 s.
Proof.
  intros Hb Hm. destruct b as [|c b]; [congruence|].
  simpl in *. rewrite Hm. rewrite scan_skip. reflexivity.
Qed.

Lemma scan_no_match m repl c s :
  m (c :: s) = None ->
  scan m repl 0 (c :: s) = c :: scan m repl 0 s.
Proof. intros H; simpl; rewrite H; reflexivity. Qed.

(** A stretch of text in which no match starts is copied. *)
Lemma scan_plain m repl : forall p s,
  (forall a c t, p = a ++ c :: t -> m (c :: t ++ s) = None) ->
  scan m repl 0 (p ++ s) = p ++ scan m repl 0 s.
Proof.
  induction p as [|c p IH]; intros s H; [reflexivity|].
  rewrite <- app_comm_cons, scan_no_match by (apply (H [] c p); reflexivity).
  rewrite IH; [reflexivity|].
  intros a c' t ->. apply (H (c :: a) c' t). reflexivity.
Qed.

(** *** Scans read as substitutions *)

Section ScanSubstitution.
(** A matcher that finds the matches of [is_match], and only those. *)
Variable matcher : pystr -> option nat.
Variable is_match : pystr -> Prop.
Variable repl : pystr.
Hypothesis matcher_complete : forall b rest,
  is_match b -> b <> [] /\ matcher (b ++ rest) = Some (length b).
Hypothesis matcher_sound : forall s n,
  matcher s = Some n -> match_starts is_match s.

Lemma no_match_none s : ~ match_starts is_match s -> matcher s = None.
Proof.
  intros H. destruct (matcher s) as [n|] eqn:E; [|reflexivity].
  exfalso. apply H. exact (matcher_sound E).
Qed.

Lemma none_no_match s : matcher s = None -> ~ match_starts is_match s.
Proof.
  intros H (b & rest & Hb & ->).
  destruct (matcher_complete rest Hb) as [_ Hm]. congruence.
Qed.

(** The first position where a match begins, if there is one. *)
Lemma leftmost_match : forall s,
  no_match_in is_match s [] \/
  exists p b rest, s = p ++ b ++ rest /\ no_match_in is_match p (b ++ rest) /\
                   is_match b.
Proof.
  induction s as [|c s IH].
  - left. intros a c t E. destruct a; discriminate.
  - destruct (matcher (c :: s)) as [n|] eqn:Em.
    + right. destruct (matcher_sound Em) as (b & rest & Hb & E).
      exists [], b, rest. split; [exact E|]. split; [|exact Hb].
      intros a c' t E'. destruct a; discriminate.
    + pose proof (none_no_match Em) as Hc.
      destruct IH as [Hfree | (p & b & rest & E & Hfree & Hb)].
      * left. intros a c' t E. destruct a as [|a0 a].
        -- injection E as <- <-. rewrite app_nil_r. exact Hc.
        -- injection E as _ E. exact (Hfree a c' t E).
      * right. exists (c :: p), b, rest. split; [rewrite E; reflexivity|].
        split; [|exact Hb].
        intros a c' t E'. destruct a as [|a0 a].
        -- injection E' as <- <-. rewrite <- E. exact Hc.
        -- injection E' as _ E'. exact (Hfree a c' t E').
Qed.

Lemma scan_no_match_in p s :
  no_match_in is_match p s ->
  scan matcher repl 0 (p ++ s) = p ++ scan matcher repl 0 s.
Proof.
  intros H. apply scan_plain. intros a c t E.
  apply no_match_none. exact (H a c t E).
Qed.

Lemma scan_substituted_bounded : forall n s,
  length s <= n -> substituted is_match repl s (scan matcher repl 0 s).
Proof.
  induction n as [|n IH]; intros s Hlen.
  - destruct s; [|simpl in Hlen; lia]. apply substituted_end.
    intros a c t E. destruct a; discriminate.
  - destruct (leftmost_match s) as [Hfree | (p & b & rest & -> & Hfree & Hb)].
    + pose proof (scan_no_match_in Hfree) as E.
      rewrite app_nil_r in E. simpl in E. rewrite app_nil_r in E.
      rewrite E. apply substituted_end. exact Hfree.
    + destruct (matcher_complete rest Hb) as [Hne Hm].
      rewrite (scan_no_match_in Hfree), (scan_match _ _ _ Hne Hm).
      apply substituted_match; [exact Hfree | exact Hb |].
      apply IH. rewrite !length_app in Hlen.
      destruct b; [congruence|]. simpl in Hlen. lia.
Qed.

(** The scan replaces every match, left to right... *)
Lemma scan_substituted s : substituted is_match repl s (scan matcher repl 0 s).
Proof. apply (@scan_substituted_bounded (length s)). apply le_n. Qed.

(** ... and nothing else does. *)
Lemma substituted_scan s r :
  substituted is_match repl s r -> r = scan matcher repl 0 s.
Proof.
  induction 1 as [p Hfree | p b rest rest' Hfree Hb _ IH].
  - pose proof (scan_no_match_in Hfree) as E.
    rewrite app_nil_r in E. simpl in E. rewrite app_nil_r in E.
    symmetry. exact E.
  - destruct (matcher_complete rest Hb) as [Hne Hm].
    rewrite (scan_no_match_in Hfree), (scan_match _ _ _ Hne Hm), IH.
    reflexivity.
Qed.
End ScanSubstitution.

(** After a replacement that found its marker, the new text is there. *)
Lemma replace_contains_new old new : forall s,
  contains old s = true -> contains new (replace old new s) = true.
Proof.
  intros s H. destruct old as [|o old].
  - simpl. apply (contains_intro new [] _).
  - unfold replace. induction s as [|c s IH].
    + simpl in H. discriminate.
    + simpl scan. unfold literal_matcher at 1.
      destruct (starts_with (o :: old) (c :: s)) eqn:E.
      * simpl length. apply (contains_intro new [] _).
      * simpl in H. simpl in E. rewrite E in H. simpl in H.
        apply contains_trans with (y := scan (literal_matcher (o :: old)) new 0 s).
        -- apply IH. destruct s; simpl in *; exact H.
        -- replace (c :: scan (literal_matcher (o :: old)) new 0 s)
             with ([c] ++ scan (literal_matcher (o :: old)) new 0 s ++ [])
             by (rewrite app_nil_r; reflexivity).
           apply contains_intro.
Qed.

(* ================================================================= *)
(** ** Idempotent write rule: [_add_text_to_page] *)

(** C9. An existing page whose text has the category prefix and not the
    replace marker (if one is given) is left as it is: no edit is made. *)
Theorem categorized_page_is_not_edited :
  forall (p : page) (text : pystr) (replace_text : option pystr),
    page_exists p = true ->
    contains CATEGORY_PREFIX (page_text p) = true ->
    (forall r, replace_text = Some r -> contains r (page_text p) = false) ->
    _add_text_to_page (Some p) text replace_text = (Some p, []).
Proof.
  intros p text replace_text Hex Hcat Hr.
  unfold _add_text_to_page, new_text_of. rewrite Hex.
  destruct replace_text as [r|].
  - rewrite (Hr r eq_refl), Hcat. reflexivity.
  - rewrite Hcat. reflexivity.
Qed.

Lemma categorized_page_is_not_edited_witness :
  _add_text_to_page (Some (sample_page true "[[Category:A]] text"))
                    (lit "[[Category:B]]") (Some CATEGORY)
  = (Some (sample_page true "[[Category:A]] text"), []).
Proof.
  apply categorized_page_is_not_edited.
  - reflexivity.
  - vm_compute. reflexivity.
  - intros r H. injection H as <-. vm_compute. reflexivity.
Defined.

(** C10. When the lookup of a page raises, [_get_site_page] gives [None],
    and [_add_text_to_page] on it returns without any edit. *)
Theorem failed_lookup_is_a_no_op :
  forall (w : wiki) (name : pystr) (is_category : bool)
         (text : pystr) (replace_text : option pystr),
    dict_get name (if is_category then wiki_categories w else wiki_pages w)
    = None ->
    _get_site_page w name is_category = None /\
    _add_text_to_page (_get_site_page w name is_category) text replace_text
    = (None, []).
Proof.
  intros w name is_category text replace_text H.
  assert (E : _get_site_page w name is_category = None).
  { unfold _get_site_page. destruct is_category; exact H. }
  rewrite E. split; reflexivity.
Qed.

Lemma failed_lookup_is_a_no_op_witness :
  _get_site_page sample_wiki (lit "B") true = None /\
  _add_text_to_page (_get_site_page sample_wiki (lit "B") true)
                    CATEGORY None = (None, []).
Proof.
  apply failed_lookup_is_a_no_op. reflexivity.
Defined.

(** C3 fails as stated: on an existing page with text "a", ensuring "ab"
    with the marker "a" gives "ab" after one call and "abb" after two. *)
Lemma add_text_twice_differs :
  option_map page_text
    (fst (_add_text_to_page (Some (sample_page true "a")) (lit "ab")
                            (Some (lit "a")))) = Some (lit "ab") /\
  option_map page_text
    (add_text_twice (Some (sample_page true "a")) (lit "ab") (Some (lit "a")))
  = Some (lit "abb") /\
  add_text_twice (Some (sample_page true "a")) (lit "ab") (Some (lit "a"))
  <> fst (_add_text_to_page (Some (sample_page true "a")) (lit "ab")
                            (Some (lit "a"))).
Proof.
  split; [vm_compute; reflexivity|].
  split; [vm_compute; reflexivity|].
  vm_compute. intros H. discriminate H.
Qed.

(** C3, amended.  Without a marker the rule is idempotent.  With a marker
    it is, provided the ensured text carries the category prefix and the
    marker does not occur in the page text the first call leaves. *)
Theorem add_text_idempotent :
  forall (pg : option page) (text : pystr) (replace_text : option pystr),
    (forall r, replace_text = Some r ->
       contains CATEGORY_PREFIX text = true /\
       forall p1, fst (_add_text_to_page pg text replace_text) = Some p1 ->
                  contains r (page_text p1) = false) ->
    add_text_twice pg text replace_text
    = fst (_add_text_to_page pg text replace_text).
Proof.
  intros pg text replace_text H. unfold add_text_twice.
  destruct pg as [p|]; [|reflexivity].
  destruct replace_text as [r|].
  - destruct (H r eq_refl) as [Hcat Hgone]. clear H.
    unfold _add_text_to_page at 2 3. unfold _add_text_to_page in Hgone.
    destruct (new_text_of p text (Some r)) as [nt|] eqn:E; simpl fst in *.
    + specialize (Hgone _ eq_refl). simpl in Hgone.
      assert (Hnt : contains CATEGORY_PREFIX nt = true).
      { unfold new_text_of in E. destruct (page_exists p).
        - destruct (contains r (page_text p)) eqn:Er.
          + injection E as <-.
            eapply contains_trans; [exact Hcat|].
            apply replace_contains_new. exact Er.
          + destruct (negb (contains CATEGORY_PREFIX (page_text p)));
              [injection E as <-; exact Hcat | discriminate].
        - injection E as <-. exact Hcat. }
      unfold _add_text_to_page, new_text_of. simpl.
      rewrite Hgone, Hnt. reflexivity.
    + unfold _add_text_to_page. rewrite E. reflexivity.
  - clear H. unfold _add_text_to_page at 2 3.
    destruct (new_text_of p text None) as [nt|] eqn:E; simpl fst.
    + assert (nt = text) as ->.
      { unfold new_text_of in E. destruct (page_exists p).
        - destruct (negb (contains CATEGORY_PREFIX (page_text p)));
            [injection E as <-; reflexivity | discriminate].
        - injection E as <-; reflexivity. }
      unfold _add_text_to_page, new_text_of. simpl.
      destruct (contains CATEGORY_PREFIX text); reflexivity.
    + unfold _add_text_to_page. rewrite E. reflexivity.
Qed.

Lemma add_text_idempotent_witness :
  add_text_twice (Some (sample_page true "[[Category:Φορείς]] text"))
                 (lit "[[Category:B]]") (Some CATEGORY)
  = fst (_add_text_to_page (Some (sample_page true "[[Category:Φορείς]] text"))
                           (lit "[[Category:B]]") (Some CATEGORY)).
Proof.
  apply add_text_idempotent.
  intros r H. injection H as <-. split.
  - vm_compute. reflexivity.
  - intros p1 H1. vm_compute in H1. injection H1 as <-. vm_compute. reflexivity.
Defined.

(* ================================================================= *)
(** ** Dicts *)

Lemma dict_get_set_same V (k : pystr) (v : V) : forall d,
  dict_get k (dict_set k v d) = Some v.
Proof.
  induction d as [|[k' v'] d IH]; simpl.
  - destruct (pystr_eq_dec k k); congruence.
  - destruct (pystr_eq_dec k k') as [->|Hn]; simpl.
    + destruct (pystr_eq_dec k' k'); congruence.
    + destruct (pystr_eq_dec k k'); [contradiction|exact IH].
Qed.

Lemma dict_get_set_other V (k k' : pystr) (v : V) : forall d,
  k <> k' -> dict_get k (dict_set k' v d) = dict_get k d.
Proof.
  intros d Hn. induction d as [|[k0 v0] d IH]; simpl.
  - destruct (pystr_eq_dec k k'); [contradiction|reflexivity].
  - destruct (pystr_eq_dec k' k0) as [->|]; simpl.
    + destruct (pystr_eq_dec k k0); [contradiction|reflexivity].
    + destruct (pystr_eq_dec k k0); [reflexivity|exact IH].
Qed.

Lemma get_set_same k v d : get k (dict_set k v d) = v.
Proof. unfold get. rewrite dict_get_set_same. reflexivity. Qed.

Lemma get_set_other k k' v d : k <> k' -> get k (dict_set k' v d) = get k d.
Proof. intros H. unfold get. rewrite dict_get_set_other by exact H. reflexivity. Qed.

(* ================================================================= *)
(** ** Status translation in [fetch_details_from_api] *)

Section StatusTranslation.
Variable _name_by_code : pyval -> option pystr.
Variable _purpose_by_id : pyval -> result pystr.
Variable _type_by_id : pyval -> result pyval.

Lemma status_after_parent d :
  get (lit "status") (replace_parent _name_by_code d) = get (lit "status") d.
Proof.
  unfold replace_parent.
  destruct (truthy (get (lit "subOrganizationOf") d)); [|reflexivity].
  apply get_set_other. vm_compute. discriminate.
Qed.

Lemma status_after_purpose d d1 :
  replace_purpose _purpose_by_id d = Ok d1 ->
  get (lit "status") d1 = get (lit "status") d.
Proof.
  unfold replace_purpose.
  destruct (truthy (get (lit "purpose") d)).
  - destruct (py_iter (get (lit "purpose") d)) as [ids|]; simpl; [|discriminate].
    destruct (mapM _purpose_by_id ids) as [names|]; simpl; [|discriminate].
    intros H. injection H as <-. apply get_set_other. vm_compute. discriminate.
  - intros H. injection H as <-. reflexivity.
Qed.

Lemma status_after_type d d1 :
  replace_type _type_by_id d = Ok d1 ->
  get (lit "status") d1 = get (lit "status") d.
Proof.
  unfold replace_type.
  destruct (truthy (get (lit "organizationType") d)).
  - destruct (_type_by_id (get (lit "organizationType") d)); simpl; [|discriminate].
    intros H. injection H as <-. apply get_set_other. vm_compute. discriminate.
  - intros H. injection H as <-. reflexivity.
Qed.


End StatusTranslation.


(* ================================================================= *)
(** ** Pruner *)



(** A real run on the sample wiki deletes the page of C and its category. *)
Example real_run_deletes :
  let '(w, e, r) := delete_old sample_upstream false sample_catalogue_wiki in
  r = Ok tt /\
  deleted e = [lit "Φορέας:C"; lit "Category:C"] /\
  printed e = [lit "PAGE AND CATEGORY WAS DELETED: C"] /\
  map page_exists (wiki_catalogue w) = [true; true; false].
Proof. vm_compute. repeat split; reflexivity. Qed.

(* ================================================================= *)
(** ** Page text merge of [update_pages] *)

Lemma lstrip_spec : forall s,
  exists l, s = l ++ lstrip s /\ Forall (fun c => isspace c = true) l /\
            (forall c r, lstrip s = c :: r -> isspace c = false).
Proof.
  induction s as [|c s (l & E & Hl & Hh)]; simpl.
  - exists []. repeat split; [constructor | discriminate].
  - destruct (isspace c) eqn:Ec.
    + exists (c :: l). repeat split.
      * simpl. congruence.
      * constructor; assumption.
      * exact Hh.
    + exists []. repeat split; [constructor|].
      intros c' r H. injection H as <- _. exact Ec.
Qed.

(** [strip] cuts whitespace, and only whitespace, from both ends. *)
Lemma strip_spec s :
  exists l r, s = l ++ strip s ++ r /\
              Forall (fun c => isspace c = true) l /\
              Forall (fun c => isspace c = true) r /\
              (forall c t, strip s = c :: t -> isspace c = false) /\
              (forall c t, strip s = t ++ [c] -> isspace c = false).
Proof.
  destruct (lstrip_spec s) as (l & El & Hl & Hhead).
  destruct (lstrip_spec (rev (lstrip s))) as (r & Er & Hr & Hlast).
  assert (E2 : lstrip s = strip s ++ rev r).
  { unfold strip, rstrip. rewrite <- rev_app_distr, <- Er, rev_involutive.
    reflexivity. }
  exists l, (rev r). repeat split.
  - rewrite <- E2. exact El.
  - exact Hl.
  - apply Forall_rev. exact Hr.
  - intros c t H. rewrite H in E2. apply (Hhead c (t ++ rev r)). exact E2.
  - intros c t H. unfold strip, rstrip in H.
    apply (f_equal (@rev N)) in H. rewrite rev_involutive, rev_app_distr in H.
    simpl in H. apply (Hlast c (rev t)). exact H.
Qed.

Lemma count_open_braces_app a b :
  count_open_braces (a ++ b) = count_open_braces a + count_open_braces b.
Proof. apply count_occ_app. Qed.

Lemma count_open_braces_space l :
  Forall (fun c => isspace c = true) l -> count_open_braces l = 0.
Proof.
  induction 1 as [|c l Hc _ IH]; [reflexivity|].
  unfold count_open_braces in *. simpl.
  destruct (N.eq_dec c 123) as [->|]; [discriminate Hc | exact IH].
Qed.

Lemma count_open_braces_strip s :
  count_open_braces (strip s) = count_open_braces s.
Proof.
  destruct (strip_spec s) as (l & r & E & Hl & Hr & _).
  rewrite E at 2. rewrite !count_open_braces_app.
  rewrite (count_open_braces_space Hl), (count_open_braces_space Hr). lia.
Qed.

Lemma count_open_braces_body body :
  Forall (fun c => not_brace c = true) body -> count_open_braces body = 0.
Proof.
  induction 1 as [|c l Hc _ IH]; [reflexivity|].
  unfold count_open_braces in *. simpl.
  destruct (N.eq_dec c 123) as [->|]; [discriminate Hc | exact IH].
Qed.

Lemma count_open_braces_block b :
  is_template_block b -> count_open_braces b = 2.
Proof.
  intros (body & _ & Hbody & ->).
  rewrite !count_open_braces_app, (count_open_braces_body Hbody). reflexivity.
Qed.

Lemma span_body body : forall rest,
  Forall (fun c => not_brace c = true) body ->
  span not_brace (body ++ TEMPLATE_CLOSING ++ rest) = length body.
Proof.
  intros rest H. induction H as [|c l Hc _ IH]; [reflexivity|].
  simpl. rewrite Hc. f_equal. exact IH.
Qed.

Lemma skipn_exact (a b : pystr) : skipn (length a) (a ++ b) = b.
Proof. induction a; simpl; auto. Qed.

Lemma block_is_matched b rest :
  is_template_block b ->
  b <> [] /\ template_block_matcher (b ++ rest) = Some (length b).
Proof.
  intros (body & Hne & Hbody & ->). split; [discriminate|].
  unfold template_block_matcher. rewrite <- !app_assoc.
  rewrite starts_with_app, skipn_exact, (span_body rest Hbody), skipn_exact.
  rewrite starts_with_app.
  destruct body as [|c body]; [congruence|].
  simpl Nat.ltb. simpl andb. rewrite !length_app. f_equal.
Qed.

Lemma starts_with_other_head a p c s :
  a <> c -> starts_with (a :: p) (c :: s) = false.
Proof. intros H. simpl. destruct (N.eq_dec a c); [contradiction|reflexivity]. Qed.

Lemma no_match_without_open_brace c s :
  c <> 123%N -> template_block_matcher (c :: s) = None.
Proof.
  intros H. unfold template_block_matcher.
  change TEMPLATE_OPENING with (123%N :: tl TEMPLATE_OPENING).
  rewrite starts_with_other_head by congruence. reflexivity.
Qed.

Lemma plain_is_kept p s :
  no_open_brace p ->
  remove_template_blocks (p ++ s) = p ++ remove_template_blocks s.
Proof.
  intros H. apply scan_plain. intros a c t ->.
  apply no_match_without_open_brace.
  intros ->. apply H. apply in_or_app. right. left. reflexivity.
Qed.

Lemma blocks_are_removed : forall segs,
  Forall (fun bp => is_template_block (fst bp) /\ no_open_brace (snd bp)) segs ->
  remove_template_blocks (concat (map (fun bp => fst bp ++ snd bp) segs))
  = concat (map snd segs).
Proof.
  induction 1 as [|[b p] segs [Hb Hp] _ IH]; [reflexivity|].
  simpl in *. rewrite <- app_assoc.
  destruct (block_is_matched (p ++ concat (map (fun bp => fst bp ++ snd bp) segs)) Hb)
    as [Hne Hm].
  unfold remove_template_blocks at 1.
  rewrite (scan_match _ _ _ Hne Hm). simpl.
  fold (remove_template_blocks (p ++ concat (map (fun bp => fst bp ++ snd bp) segs))).
  rewrite (plain_is_kept _ Hp), IH. reflexivity.
Qed.

(** C4 fails as stated: on a page with two blocks both are removed, so the
    new text is not the rendered block, a newline and what removing one
    block (whichever) leaves. *)
Lemma merge_removes_both_blocks :
  new_page_text (lit "T") two_blocks_page = lit "T" ++ NEWLINE ++ lit "X" /\
  forall pre b post,
    two_blocks_page = pre ++ b ++ post -> is_template_block b ->
    new_page_text (lit "T") two_blocks_page
    <> lit "T" ++ NEWLINE ++ strip (pre ++ post).
Proof.
  split; [vm_compute; reflexivity|].
  intros pre b post E Hb H.
  assert (C1 : count_open_braces two_blocks_page = 4) by reflexivity.
  assert (C2 : count_open_braces (new_page_text (lit "T") two_blocks_page) = 0)
    by reflexivity.
  assert (C3 : count_open_braces (lit "T") = 0) by reflexivity.
  assert (C4 : count_open_braces NEWLINE = 0) by reflexivity.
  rewrite H in C2. rewrite E in C1.
  rewrite !count_open_braces_app, count_open_braces_strip,
    count_open_braces_app, C3, C4 in C2.
  rewrite !count_open_braces_app, (count_open_braces_block Hb) in C1.
  lia.
Qed.

Lemma span_firstn f : forall s,
  Forall (fun c => f c = true) (firstn (span f s) s).
Proof.
  induction s as [|c s IH]; simpl; [constructor|].
  destruct (f c) eqn:E; simpl; constructor; assumption.
Qed.

Lemma span_positive f s : 0 < span f s -> firstn (span f s) s <> [].
Proof.
  destruct s as [|c s]; simpl; [lia|].
  destruct (f c); simpl; [discriminate | lia].
Qed.

(** Where the pattern matches, a block begins. *)
Lemma matched_is_block s n :
  template_block_matcher s = Some n -> match_starts is_template_block s.
Proof.
  unfold template_block_matcher. intros H.
  destruct (starts_with TEMPLATE_OPENING s) eqn:Eo; [|discriminate].
  destruct (starts_with_inv _ _ Eo) as [r ->].
  rewrite skipn_exact in H.
  destruct (Nat.ltb 0 (span not_brace r)
            && starts_with TEMPLATE_CLOSING (skipn (span not_brace r) r)) eqn:Ec;
    [|discriminate].
  apply andb_true_iff in Ec. destruct Ec as [Hpos Hc].
  apply Nat.ltb_lt in Hpos.
  destruct (starts_with_inv _ _ Hc) as [rest Erest].
  exists (TEMPLATE_OPENING ++ firstn (span not_brace r) r ++ TEMPLATE_CLOSING), rest.
  split.
  - exists (firstn (span not_brace r) r).
    split; [apply span_positive; exact Hpos|].
    split; [apply span_firstn | reflexivity].
  - rewrite <- !app_assoc, <- Erest, firstn_skipn. reflexivity.
Qed.

(** Removing the blocks is the substitution of every block by nothing. *)
Lemma blocks_are_substituted page_text kept :
  substituted is_template_block [] page_text kept <->
  kept = remove_template_blocks page_text.
Proof.
  split.
  - apply (@substituted_scan template_block_matcher is_template_block []).
    + intros b rest Hb. exact (@block_is_matched b rest Hb).
    + exact matched_is_block.
  - intros ->.
    apply (@scan_substituted template_block_matcher is_template_block []).
    + intros b rest Hb. exact (@block_is_matched b rest Hb).
    + exact matched_is_block.
Qed.

(** C4, amended.  Whatever the text of the page, the merge removes every
    template block: reading the text from left to right, each block that
    begins at the first position, after the block removed before it, where
    a block begins; a block being the opening marker, a non-empty span
    without braces and the closing marker.  The page is set to the
    rendered block, a newline and the remaining text with the whitespace
    at both ends (and nothing else) cut. *)
Theorem update_removes_every_block :
  forall (unicode_isdigit : N -> bool)
         (str_of_dict : list (pystr * pyval) -> pystr)
         (serialize : list (pystr * pystr) -> pystr)
         (force_create : bool) (p : page) (org_details : dict pyval)
         (rendered : pystr),
    force_create || page_exists p = true ->
    template_text unicode_isdigit str_of_dict serialize org_details = Ok rendered ->
    exists kept leftovers l r,
      substituted is_template_block [] (page_text p) kept /\
      (forall kept', substituted is_template_block [] (page_text p) kept' ->
                     kept' = kept) /\
      kept = l ++ leftovers ++ r /\
      Forall (fun c => isspace c = true) l /\
      Forall (fun c => isspace c = true) r /\
      (forall c s, leftovers = c :: s -> isspace c = false) /\
      (forall c s, leftovers = s ++ [c] -> isspace c = false) /\
      update_page unicode_isdigit str_of_dict serialize force_create (Some p)
                  org_details
      = Ok (Some (page_edit p (rendered ++ NEWLINE ++ leftovers))).
Proof.
  intros u sd ser force p d rendered Hcond Hr.
  destruct (strip_spec (remove_template_blocks (page_text p)))
    as (l & r & E & Hl & Hr' & Hhead & Hlast).
  exists (remove_template_blocks (page_text p)),
         (strip (remove_template_blocks (page_text p))), l, r.
  split; [apply blocks_are_substituted; reflexivity|].
  split; [intros kept' H; apply blocks_are_substituted; exact H|].
  repeat split; try assumption.
  unfold update_page. rewrite Hcond, Hr. reflexivity.
Qed.

Lemma sample_block_1 : is_template_block (lit "{{Φορέας|a=1}}").
Proof.
  exists (lit "|a=1"). split; [discriminate|]. split; [|reflexivity].
  vm_compute. repeat constructor.
Qed.

Lemma sample_block_2 : is_template_block (lit "{{Φορέας|b=2}}").
Proof.
  exists (lit "|b=2"). split; [discriminate|]. split; [|reflexivity].
  vm_compute. repeat constructor.
Qed.

Lemma update_removes_every_block_witness :
  exists kept leftovers l r,
    substituted is_template_block [] (page_text infobox_page) kept /\
    (forall kept', substituted is_template_block [] (page_text infobox_page) kept' ->
                   kept' = kept) /\
    kept = l ++ leftovers ++ r /\
    Forall (fun c => isspace c = true) l /\
    Forall (fun c => isspace c = true) r /\
    (forall c s, leftovers = c :: s -> isspace c = false) /\
    (forall c s, leftovers = s ++ [c] -> isspace c = false) /\
    update_page no_digit no_repr plain_serialize false (Some infobox_page)
                sample_details
    = Ok (Some (page_edit infobox_page (sample_rendered ++ NEWLINE ++ leftovers))).
Proof.
  apply update_removes_every_block.
  - reflexivity.
  - vm_compute. reflexivity.
Defined.

(** A block of another template stays, the block after it goes; a block
    with braces inside is no match and stays. *)
Example infobox_block_is_kept :
  remove_template_blocks (page_text infobox_page) = lit "{{Infobox|x=1}} text " /\
  update_page no_digit no_repr plain_serialize false (Some infobox_page)
              sample_details
  = Ok (Some (page_edit infobox_page
                (sample_rendered ++ NEWLINE ++ lit "{{Infobox|x=1}} text"))).
Proof. split; vm_compute; reflexivity. Qed.

Example nested_block_is_kept :
  remove_template_blocks nested_block_text = nested_block_text.
Proof. vm_compute. reflexivity. Qed.

(** With no parameter assigned, the sample serialization is [TEMPLATE]. *)
Example plain_serialize_template : plain_serialize [] = TEMPLATE.
Proof. vm_compute. reflexivity. Qed.

(** C8 fails as stated: merged into an empty page, the rendered block is
    followed by a newline. *)
Lemma empty_page_merge_keeps_newline :
  exists rendered,
    template_text no_digit no_repr plain_serialize sample_details = Ok rendered /\
    update_page no_digit no_repr plain_serialize false (Some sample_empty_page)
                sample_details
    = Ok (Some (page_edit sample_empty_page (rendered ++ NEWLINE))) /\
    rendered ++ NEWLINE <> rendered.
Proof.
  eexists. split; [vm_compute; reflexivity|].
  split; [vm_compute; reflexivity|].
  intros H. apply (f_equal (@length N)) in H. rewrite length_app in H.
  simpl in H. lia.
Qed.

(** C8, amended.  Rendering a detail record and merging it into a page
    whose text was empty sets the page to the rendered block followed by
    one newline: nothing is left over from the old text. *)
Theorem empty_page_gets_block_and_newline :
  forall (unicode_isdigit : N -> bool)
         (str_of_dict : list (pystr * pyval) -> pystr)
         (serialize : list (pystr * pystr) -> pystr)
         (force_create : bool) (p : page) (org_details : dict pyval)
         (rendered : pystr),
    page_text p = [] ->
    force_create || page_exists p = true ->
    template_text unicode_isdigit str_of_dict serialize org_details = Ok rendered ->
    page_text_leftovers (page_text p) = [] /\
    update_page unicode_isdigit str_of_dict serialize force_create (Some p)
                org_details
    = Ok (Some (page_edit p (rendered ++ NEWLINE))).
Proof.
  intros u sd ser force p d rendered Htext Hcond Hr.
  rewrite Htext. split; [reflexivity|].
  unfold update_page. rewrite Hcond, Hr. simpl.
  rewrite Htext. unfold new_page_text. rewrite app_assoc.
  change (page_text_leftovers []) with (@nil N). rewrite app_nil_r.
  reflexivity.
Qed.

Lemma empty_page_gets_block_and_newline_witness :
  page_text_leftovers (page_text sample_empty_page) = [] /\
  update_page no_digit no_repr plain_serialize false (Some sample_empty_page)
              sample_details
  = Ok (Some (page_edit sample_empty_page
                (replace (lit " |") (lit "|")
                   (plain_serialize
                      [(lit "gov_org_code", lit "12");
                       (lit "gov_org_preferredLabel", lit "A");
                       (lit "gov_org_contactPoint_telephone", lit "2101234567");
                       (lit "gov_org_status", lit "Active")])
                 ++ NEWLINE))).
Proof.
  apply empty_page_gets_block_and_newline.
  - reflexivity.
  - reflexivity.
  - vm_compute. reflexivity.
Defined.

(* ================================================================= *)
(** ** Telephone clean-up of [template_text] *)

Lemma literal_matcher_single a c s :
  literal_matcher [a] (c :: s) = if N.eq_dec a c then Some 1 else None.
Proof. unfold literal_matcher. simpl. destruct (N.eq_dec a c); reflexivity. Qed.

Lemma scan_single a : forall s,
  scan (literal_matcher [a]) [] 0 s
  = filter (fun c => if N.eq_dec a c then false else true) s.
Proof.
  induction s as [|c s IH]; [reflexivity|].
  cbn [scan filter]. rewrite literal_matcher_single.
  destruct (N.eq_dec a c); [exact IH | f_equal; exact IH].
Qed.

Lemma replace_space s : replace (lit " ") [] s = filter not_space s.
Proof.
  change (replace (lit " ") [] s) with (scan (literal_matcher [32%N]) [] 0 s).
  rewrite scan_single. apply filter_ext. intros c. unfold not_space.
  destruct (N.eq_dec 32 c) as [<-|Hn]; [reflexivity|].
  destruct (N.eqb_spec c 32); [congruence|reflexivity].
Qed.

Lemma take_while_spec f : forall s,
  exists rest, s = take_while f s ++ rest /\
               Forall (fun c => f c = true) (take_while f s) /\
               (forall c r, rest = c :: r -> f c = false).
Proof.
  induction s as [|c s (rest & E & Hall & Hrest)]; simpl.
  - exists []. repeat split; [constructor | discriminate].
  - destruct (f c) eqn:Ec.
    + exists rest. repeat split.
      * simpl. congruence.
      * constructor; assumption.
      * exact Hrest.
    + exists (c :: s). repeat split; [constructor|].
      intros c' r H. injection H as <- _. exact Ec.
Qed.

Lemma country_code_not_at c s :
  c <> 43%N -> literal_matcher (lit "+30") (c :: s) = None.
Proof.
  intros H. unfold literal_matcher.
  change (lit "+30") with [43%N; 51%N; 48%N].
  rewrite starts_with_other_head by congruence. reflexivity.
Qed.

Lemma replace_scan old new s :
  old <> [] -> replace old new s = scan (literal_matcher old) new 0 s.
Proof. destruct old; [congruence|reflexivity]. Qed.

Lemma country_code_kept_text p s :
  ~ In 43%N p ->
  replace (lit "+30") [] (p ++ s) = p ++ replace (lit "+30") [] s.
Proof.
  intros H. rewrite !(@replace_scan (lit "+30")) by discriminate.
  apply scan_plain. intros a c t ->.
  apply country_code_not_at.
  intros ->. apply H. apply in_or_app. right. left. reflexivity.
Qed.

Lemma country_code_removed_everywhere : forall ps,
  Forall (fun p => ~ In 43%N p) ps ->
  replace (lit "+30") [] (concat (map (fun p => lit "+30" ++ p) ps))
  = concat ps.
Proof.
  induction 1 as [|p ps Hp _ IH]; [reflexivity|].
  cbn [map concat]. rewrite <- app_assoc.
  rewrite (@replace_scan (lit "+30")) by discriminate.
  rewrite scan_match;
    [| discriminate
     | unfold literal_matcher; rewrite starts_with_app; reflexivity].
  rewrite <- (@replace_scan (lit "+30")) by discriminate.
  rewrite (@country_code_kept_text p _ Hp), IH. reflexivity.
Qed.

(** Replacing a literal is the substitution of every occurrence. *)
Lemma replace_substituted old new s r :
  old <> [] ->
  substituted (eq old) new s r <-> r = replace old new s.
Proof.
  intros Hne. rewrite (@replace_scan old new s Hne).
  assert (Hc : forall b rest, old = b ->
                 b <> [] /\ literal_matcher old (b ++ rest) = Some (length b)).
  { intros b rest <-. split; [exact Hne|].
    unfold literal_matcher. rewrite starts_with_app. reflexivity. }
  assert (Hs : forall t n, literal_matcher old t = Some n ->
                 match_starts (eq old) t).
  { intros t n H. unfold literal_matcher in H.
    destruct (starts_with old t) eqn:E; [|discriminate].
    destruct (starts_with_inv _ _ E) as [rest ->].
    exists old, rest. split; reflexivity. }
  split.
  - apply (@substituted_scan (literal_matcher old) (eq old) new Hc Hs).
  - intros ->. apply (@scan_substituted (literal_matcher old) (eq old) new Hc Hs).
Qed.

(** The telephone parameter is the clean-up of the escaped text of the
    value. *)
Lemma parameter_value_telephone unicode_isdigit str_of_dict org_details value text :
  lookup_value org_details TEMPLATE_CONTACT_POINT_TELEPHONE = Ok value ->
  value_text str_of_dict value = Ok (Some text) ->
  parameter_value unicode_isdigit str_of_dict org_details
                  TEMPLATE_CONTACT_POINT_TELEPHONE
  = Ok (Some (clean_telephone unicode_isdigit (escape text))).
Proof.
  intros Hl Ht. unfold parameter_value. rewrite Hl. cbn [bind].
  destruct (pystr_eq_dec TEMPLATE_CONTACT_POINT_TELEPHONE
                         TEMPLATE_CONTACT_POINT_TELEPHONE) as [_|Hn];
    [|congruence].
  destruct value as [| | | |]; cbn [value_text] in Ht.
  all: try (injection Ht as <-; reflexivity).
  all: try discriminate.
  destruct (join_items _) as [joined|e]; cbn [bind] in *;
    [injection Ht as <-; reflexivity | discriminate].
Qed.

(** C5 fails as stated: a "+30" that is not leading is removed too. *)
Lemma inner_country_code_is_removed :
  clean_telephone no_digit (lit "210+3055") = lit "21055" /\
  spec_clean_telephone no_digit (lit "210+3055") = lit "210" /\
  clean_telephone no_digit (lit "210+3055")
  <> spec_clean_telephone no_digit (lit "210+3055") /\
  parameter_value no_digit no_repr (telephone_details "210+3055")
                  TEMPLATE_CONTACT_POINT_TELEPHONE
  = Ok (Some (lit "21055")).
Proof.
  split; [vm_compute; reflexivity|].
  split; [vm_compute; reflexivity|].
  split; [vm_compute; discriminate|].
  vm_compute. reflexivity.
Qed.

(** C5, amended.  Whatever the telephone value, its text (the list join or
    [str(value)], then the escape) is cleaned by dropping every space,
    removing every occurrence of "+30" read from left to right (wherever
    it is), then cutting at the first character that is not a digit: the
    parameter is the longest prefix of digits of what the first two steps
    leave.  The telephone "+30 21 0123 4567ext2" gives "2101234567". *)
Theorem telephone_parameter_is_cleaned :
  forall (unicode_isdigit : N -> bool)
         (str_of_dict : list (pystr * pyval) -> pystr)
         (org_details : dict pyval) (value : pyval) (text : pystr),
    lookup_value org_details TEMPLATE_CONTACT_POINT_TELEPHONE = Ok value ->
    value_text str_of_dict value = Ok (Some text) ->
    (exists cleaned without_code rest,
        parameter_value unicode_isdigit str_of_dict org_details
                        TEMPLATE_CONTACT_POINT_TELEPHONE
        = Ok (Some cleaned) /\
        substituted (eq (lit "+30")) [] (filter not_space (escape text))
                    without_code /\
        (forall other,
            substituted (eq (lit "+30")) [] (filter not_space (escape text)) other ->
            other = without_code) /\
        without_code = cleaned ++ rest /\
        Forall (fun c => isdigit unicode_isdigit c = true) cleaned /\
        (forall c r, rest = c :: r -> isdigit unicode_isdigit c = false)) /\
    parameter_value unicode_isdigit str_of_dict
                    (telephone_details "+30 21 0123 4567ext2")
                    TEMPLATE_CONTACT_POINT_TELEPHONE
    = Ok (Some (lit "2101234567")).
Proof.
  intros u sd d value text Hl Ht. split; [|vm_compute; reflexivity].
  rewrite (@parameter_value_telephone u sd d value text Hl Ht).
  unfold clean_telephone. rewrite replace_space.
  destruct (take_while_spec (isdigit u)
              (replace (lit "+30") [] (filter not_space (escape text))))
    as (rest & E & Hall & Hrest).
  exists (take_while (isdigit u)
            (replace (lit "+30") [] (filter not_space (escape text)))),
         (replace (lit "+30") [] (filter not_space (escape text))), rest.
  split; [reflexivity|].
  split; [apply replace_substituted; [discriminate|reflexivity]|].
  split; [intros other H; apply replace_substituted in H;
          [exact H|discriminate]|].
  repeat split; assumption.
Qed.

Lemma telephone_parameter_is_cleaned_witness :
  (exists cleaned without_code rest,
      parameter_value no_digit no_repr (telephone_details "2 10+30 55x")
                      TEMPLATE_CONTACT_POINT_TELEPHONE
      = Ok (Some cleaned) /\
      substituted (eq (lit "+30")) []
                  (filter not_space (escape (lit "2 10+30 55x"))) without_code /\
      (forall other,
          substituted (eq (lit "+30")) []
                      (filter not_space (escape (lit "2 10+30 55x"))) other ->
          other = without_code) /\
      without_code = cleaned ++ rest /\
      Forall (fun c => isdigit no_digit c = true) cleaned /\
      (forall c r, rest = c :: r -> isdigit no_digit c = false)) /\
  parameter_value no_digit no_repr (telephone_details "+30 21 0123 4567ext2")
                  TEMPLATE_CONTACT_POINT_TELEPHONE
  = Ok (Some (lit "2101234567")).
Proof.
  apply (@telephone_parameter_is_cleaned no_digit no_repr
           (telephone_details "2 10+30 55x") (PStr (lit "2 10+30 55x"))
           (lit "2 10+30 55x")).
  - vm_compute. reflexivity.
  - reflexivity.
Defined.

(** Another country code is not removed, and nothing is left of the
    number; a "+30" is removed and the next "+" ends the number; an
    integer is cleaned through its decimal text. *)
Example other_country_codes :
  parameter_value no_digit no_repr (telephone_details "+357 22 123456")
                  TEMPLATE_CONTACT_POINT_TELEPHONE = Ok (Some []) /\
  parameter_value no_digit no_repr (telephone_details "+30 210 +44")
                  TEMPLATE_CONTACT_POINT_TELEPHONE = Ok (Some (lit "210")) /\
  parameter_value no_digit no_repr
                  [(lit "contactPoint", PDict [(lit "telephone", PInt 2101234567)])]
                  TEMPLATE_CONTACT_POINT_TELEPHONE
  = Ok (Some (lit "2101234567")).
Proof. repeat split; vm_compute; reflexivity. Qed.

(* ================================================================= *)
(** ** Hierarchy builder *)

Lemma dict_get_In V (k : pystr) (v : V) : forall d,
  dict_get k d = Some v -> In (k, v) d.
Proof.
  induction d as [|[k' v'] d IH]; simpl; [discriminate|].
  destruct (pystr_eq_dec k k') as [->|]; intros H.
  - injection H as <-. left; reflexivity.
  - right. apply IH, H.
Qed.

Lemma dict_get_None_keys V (k : pystr) : forall (d : dict V),
  dict_get k d = None <-> ~ In k (dict_keys d).
Proof.
  induction d as [|[k' v'] d IH]; simpl.
  - tauto.
  - destruct (pystr_eq_dec k k') as [->|Hn].
    + split; [discriminate | intros H; exfalso; apply H; left; reflexivity].
    + rewrite IH. split; [intros H [E|E]; [congruence|auto] | tauto].
Qed.

Lemma In_dict_get V (k : pystr) (v : V) : forall d,
  NoDup (dict_keys d) -> In (k, v) d -> dict_get k d = Some v.
Proof.
  induction d as [|[k' v'] d IH]; simpl; intros Hnd Hin; [contradiction|].
  inversion Hnd as [|? ? Hk Hnd']; subst.
  destruct Hin as [E|Hin].
  - injection E as -> ->. destruct (pystr_eq_dec k k); congruence.
  - destruct (pystr_eq_dec k k') as [->|]; [|apply IH; assumption].
    exfalso. apply Hk. apply (in_map fst) in Hin. exact Hin.
Qed.

Lemma dict_set_keys V (k : pystr) (v : V) : forall d,
  dict_keys (dict_set k v d)
  = if dict_mem k d then dict_keys d else dict_keys d ++ [k].
Proof.
  unfold dict_mem. induction d as [|[k' v'] d IH]; simpl; [reflexivity|].
  destruct (pystr_eq_dec k k') as [->|]; simpl; [reflexivity|].
  rewrite IH. destruct (dict_get k d); reflexivity.
Qed.

Lemma dict_set_NoDup V (k : pystr) (v : V) d :
  NoDup (dict_keys d) -> NoDup (dict_keys (dict_set k v d)).
Proof.
  intros H. rewrite dict_set_keys. unfold dict_mem.
  destruct (dict_get k d) eqn:E; [exact H|].
  apply dict_get_None_keys in E.
  apply NoDup_app; [exact H | repeat constructor; simpl; tauto | ].
  intros x Hx [<-|[]]. exact (E Hx).
Qed.

Lemma dict_set_absent V (k : pystr) (v : V) : forall d,
  dict_get k d = None -> dict_set k v d = d ++ [(k, v)].
Proof.
  induction d as [|[k' v'] d IH]; simpl; [reflexivity|].
  destruct (pystr_eq_dec k k'); [discriminate|].
  intros H. rewrite IH by exact H. reflexivity.
Qed.

Lemma In_dict_set V (k k' : pystr) (v v' : V) : forall d,
  In (k, v) (dict_set k' v' d) -> In (k, v) d \/ (k = k' /\ v = v').
Proof.
  induction d as [|[k0 v0] d IH]; simpl.
  - intros [E|[]]. injection E as -> ->. right; split; reflexivity.
  - destruct (pystr_eq_dec k' k0) as [->|]; simpl; intros [E|H].
    + injection E as -> ->. right; split; reflexivity.
    + left; right; exact H.
    + left; left; exact E.
    + destruct (IH H) as [H'|H']; [left; right; exact H' | right; exact H'].
Qed.

Lemma find_org_Some all_orgs p o :
  find_org all_orgs p = Some o -> In o all_orgs /\ code o = p.
Proof.
  unfold find_org. intros H. apply find_some in H. destruct H as [Hin H].
  split; [exact Hin|]. destruct (pystr_eq_dec (code o) p); [assumption|discriminate].
Qed.

Lemma find_org_None all_orgs p :
  find_org all_orgs p = None -> ~ In p (codes all_orgs).
Proof.
  unfold find_org, codes. intros H Hin. apply in_map_iff in Hin.
  destruct Hin as (o & E & Hin). apply (find_none _ _ H) in Hin.
  destruct (pystr_eq_dec (code o) p); [discriminate|contradiction].
Qed.

Lemma children_of_snoc c l o :
  children_of c (l ++ [o])
  = children_of c l ++ (if has_parent c o then [preferredLabel o] else []).
Proof.
  unfold children_of. rewrite filter_app, map_app. simpl.
  destruct (has_parent c o); reflexivity.
Qed.

Lemma has_parent_true c o : has_parent c o = true <-> subOrganizationOf o = Some c.
Proof.
  unfold has_parent. destruct (subOrganizationOf o) as [p|].
  - destruct (pystr_eq_dec p c) as [->|]; split; congruence.
  - split; discriminate.
Qed.

Lemma In_children_of c l x :
  In x (children_of c l) <->
  exists o, In o l /\ subOrganizationOf o = Some c /\ preferredLabel o = x.
Proof.
  unfold children_of. rewrite in_map_iff. split.
  - intros (o & E & H). apply filter_In in H. destruct H as [Hin Hp].
    exists o. rewrite <- has_parent_true. auto.
  - intros (o & Hin & Hs & E). exists o. split; [exact E|].
    apply filter_In. rewrite has_parent_true. auto.
Qed.

Lemma absent_no_children all_orgs l c :
  absent_ok all_orgs l c -> In c (codes all_orgs) -> children_of c l = [].
Proof.
  intros [H _] Hc. destruct (children_of c l) as [|x xs] eqn:E; [reflexivity|].
  assert (Hx : In x (children_of c l)) by (rewrite E; left; reflexivity).
  apply In_children_of in Hx. destruct Hx as (o & Hin & Hs & _).
  exfalso. exact (H o Hin Hs Hc).
Qed.

Lemma node_ok_snoc all_orgs l c b o :
  node_ok all_orgs l c b -> has_parent c o = false ->
  node_ok all_orgs (l ++ [o]) c b.
Proof.
  intros (Hch & o1 & Hin & Hc & Hn & Hor) Hp. split.
  - rewrite children_of_snoc, Hp, app_nil_r. exact Hch.
  - exists o1. repeat split; try assumption.
    destruct Hor as [Hr|(o' & Hin' & Hs)]; [left; exact Hr|].
    right. exists o'. split; [apply in_or_app; left; exact Hin' | exact Hs].
Qed.

Lemma absent_ok_snoc all_orgs l c o :
  absent_ok all_orgs l c ->
  (subOrganizationOf o = Some c -> ~ In c (codes all_orgs)) ->
  (subOrganizationOf o = None -> code o <> c) ->
  absent_ok all_orgs (l ++ [o]) c.
Proof.
  intros [H1 H2] Ha Hb. split; intros o' Hin Hs;
    apply in_app_or in Hin; destruct Hin as [Hin|[<-|[]]]; eauto.
Qed.

Lemma entry_kept all_orgs l (d : dict body) o c :
  match dict_get c d with
  | Some b => node_ok all_orgs l c b
  | None => absent_ok all_orgs l c
  end ->
  has_parent c o = false ->
  (subOrganizationOf o = None -> dict_get c d = None -> code o <> c) ->
  match dict_get c d with
  | Some b => node_ok all_orgs (l ++ [o]) c b
  | None => absent_ok all_orgs (l ++ [o]) c
  end.
Proof.
  intros H Hp Hroot. destruct (dict_get c d) as [b|].
  - apply node_ok_snoc; assumption.
  - apply absent_ok_snoc; [exact H| |auto].
    intros Hs. apply has_parent_true in Hs. congruence.
Qed.

Lemma has_parent_other c p o :
  subOrganizationOf o = Some p -> c <> p -> has_parent c o = false.
Proof.
  intros Hs Hn. destruct (has_parent c o) eqn:E; [|reflexivity].
  apply has_parent_true in E. congruence.
Qed.

Lemma has_parent_root c o : subOrganizationOf o = None -> has_parent c o = false.
Proof. intros H. unfold has_parent. rewrite H. reflexivity. Qed.

(** One iteration of the first loop keeps the invariant. *)
Lemma hierarchy_step_inv all_orgs l d o :
  In o all_orgs -> builder_inv all_orgs l d ->
  builder_inv all_orgs (l ++ [o]) (hierarchy_step all_orgs d o).
Proof.
  intros Hin [Hnd Hinv]. unfold hierarchy_step.
  destruct (subOrganizationOf o) as [p|] eqn:Es.
  - destruct (dict_get p d) as [pb|] eqn:Ep.
    + split; [apply dict_set_NoDup, Hnd|]. intros c.
      destruct (pystr_eq_dec c p) as [->|Hn].
      * rewrite dict_get_set_same.
        specialize (Hinv p). rewrite Ep in Hinv.
        destruct Hinv as (Hch & o1 & Hin1 & Hc1 & Hn1 & Hor). split; simpl.
        -- rewrite children_of_snoc, Hch.
           rewrite (proj2 (has_parent_true p o) Es). reflexivity.
        -- exists o1. repeat split; try assumption.
           right. exists o. split; [apply in_or_app; right; left; reflexivity | exact Es].
      * rewrite dict_get_set_other by exact Hn.
        apply entry_kept; [apply Hinv | eapply has_parent_other; eassumption | congruence].
    + destruct (find_org all_orgs p) as [o2|] eqn:Ef.
      * split; [apply dict_set_NoDup, Hnd|]. intros c.
        destruct (pystr_eq_dec c p) as [->|Hn].
        -- rewrite dict_get_set_same.
           destruct (find_org_Some _ _ Ef) as [Hin2 Hc2].
           specialize (Hinv p). rewrite Ep in Hinv. split; simpl.
           ++ rewrite children_of_snoc.
              rewrite (absent_no_children Hinv)
                by (rewrite <- Hc2; apply in_map; exact Hin2).
              rewrite (proj2 (has_parent_true p o) Es). reflexivity.
           ++ exists o2. repeat split; try assumption.
              right. exists o. split; [apply in_or_app; right; left; reflexivity | exact Es].
        -- rewrite dict_get_set_other by exact Hn.
           apply entry_kept; [apply Hinv | eapply has_parent_other; eassumption | congruence].
      * split; [exact Hnd|]. intros c.
        destruct (pystr_eq_dec c p) as [->|Hn].
        -- specialize (Hinv p). rewrite Ep in *.
           apply absent_ok_snoc; [exact Hinv | | congruence].
           intros _. apply find_org_None. exact Ef.
        -- apply entry_kept; [apply Hinv | eapply has_parent_other; eassumption | congruence].
  - unfold dict_mem. destruct (dict_get (code o) d) as [kb|] eqn:Ek.
    + split; [exact Hnd|]. intros c.
      apply entry_kept; [apply Hinv | apply has_parent_root, Es |].
      intros _ Hc E. rewrite E in Ek. congruence.
    + split; [apply dict_set_NoDup, Hnd|]. intros c.
      destruct (pystr_eq_dec c (code o)) as [->|Hn].
      * rewrite dict_get_set_same.
        specialize (Hinv (code o)). rewrite Ek in Hinv. split; simpl.
        -- rewrite children_of_snoc.
           rewrite (absent_no_children Hinv) by (apply in_map; exact Hin).
           rewrite (has_parent_root _ _ Es). reflexivity.
        -- exists o. repeat split; try assumption. left. exact Es.
      * rewrite dict_get_set_other by exact Hn.
        apply entry_kept; [apply Hinv | apply has_parent_root, Es | congruence].
Qed.

Lemma build_parent_children_snoc all_orgs l o :
  build_parent_children all_orgs (l ++ [o])
  = hierarchy_step all_orgs (build_parent_children all_orgs l) o.
Proof. unfold build_parent_children. rewrite fold_left_app. reflexivity. Qed.

Lemma build_parent_children_inv all_orgs : forall l,
  incl l all_orgs -> builder_inv all_orgs l (build_parent_children all_orgs l).
Proof.
  induction l as [|o l IH] using rev_ind; intros Hincl.
  - split; [constructor|]. intros c. simpl. split; intros o [].
  - rewrite build_parent_children_snoc. apply hierarchy_step_inv.
    + apply Hincl. apply in_or_app. right. left. reflexivity.
    + apply IH. intros x Hx. apply Hincl. apply in_or_app. left. exact Hx.
Qed.

Lemma parent_children_orgs_inv all_orgs :
  builder_inv all_orgs all_orgs (parent_children_orgs all_orgs).
Proof. apply build_parent_children_inv. apply incl_refl. Qed.

(** Every entry of the hierarchy comes from an entry of
    [parent_children_orgs]. *)
Lemma flatten_from : forall (d : dict body) (acc : dict (list pystr)) k cs,
  In (k, cs)
     (fold_left (fun hierarchy item =>
                   dict_set (body_name (snd item)) (body_children (snd item))
                            hierarchy) d acc) ->
  In (k, cs) acc \/ exists item, In item d /\ entry_of item = (k, cs).
Proof.
  induction d as [|item d IH]; intros acc k cs H; simpl in H; [left; exact H|].
  apply IH in H. destruct H as [H|(it & Hin & E)].
  - apply In_dict_set in H. destruct H as [H|[-> ->]]; [left; exact H|].
    right. exists item. split; [left; reflexivity | reflexivity].
  - right. exists it. split; [right; exact Hin | exact E].
Qed.

Lemma flatten_NoDup : forall (d : dict body) (acc : dict (list pystr)),
  NoDup (dict_keys acc) ->
  NoDup (dict_keys
     (fold_left (fun hierarchy item =>
                   dict_set (body_name (snd item)) (body_children (snd item))
                            hierarchy) d acc)).
Proof.
  induction d as [|item d IH]; intros acc H; simpl; [exact H|].
  apply IH. apply dict_set_NoDup. exact H.
Qed.

(** When the entries bear different names, the hierarchy lists them all. *)
Lemma flatten_distinct : forall (d : dict body) (acc : dict (list pystr)),
  NoDup (map (fun item => body_name (snd item)) d) ->
  (forall item, In item d -> dict_get (body_name (snd item)) acc = None) ->
  fold_left (fun hierarchy item =>
               dict_set (body_name (snd item)) (body_children (snd item))
                        hierarchy) d acc
  = acc ++ map entry_of d.
Proof.
  induction d as [|item d IH]; intros acc Hnd Hacc; simpl.
  - rewrite app_nil_r. reflexivity.
  - inversion Hnd as [|? ? Hnotin Hnd']; subst.
    rewrite dict_set_absent by (apply Hacc; left; reflexivity).
    rewrite IH.
    + rewrite <- app_assoc. reflexivity.
    + exact Hnd'.
    + intros it Hit. apply dict_get_None_keys. unfold dict_keys.
      rewrite map_app. intros Hk. apply in_app_or in Hk. destruct Hk as [Hk|[Hk|[]]].
      * apply (proj1 (dict_get_None_keys _ _) (Hacc it (or_intror Hit))). exact Hk.
      * simpl in Hk. apply Hnotin. rewrite Hk.
        apply (in_map (fun item => body_name (snd item))). exact Hit.
Qed.

Lemma hierarchy_entry_from all_orgs k cs :
  In (k, cs) (_fetch_hierarchy_from_api all_orgs) ->
  exists c b, dict_get c (parent_children_orgs all_orgs) = Some b /\
              body_name b = k /\ body_children b = cs.
Proof.
  intros H. apply flatten_from in H. destruct H as [[]|([c b] & Hin & E)].
  exists c, b. injection E as <- <-. split; [|split; reflexivity].
  apply In_dict_get; [|exact Hin].
  apply (parent_children_orgs_inv all_orgs).
Qed.

Lemma hierarchy_keys_NoDup all_orgs :
  NoDup (dict_keys (_fetch_hierarchy_from_api all_orgs)).
Proof. apply flatten_NoDup. constructor. Qed.

Lemma entry_node_ok all_orgs c b :
  dict_get c (parent_children_orgs all_orgs) = Some b ->
  node_ok all_orgs all_orgs c b.
Proof.
  intros H. pose proof (proj2 (parent_children_orgs_inv all_orgs) c) as Hc.
  rewrite H in Hc. exact Hc.
Qed.




Lemma NoDup_map_eq A B (f : A -> B) : forall (l : list A) x y,
  NoDup (map f l) -> In x l -> In y l -> f x = f y -> x = y.
Proof.
  induction l as [|a l IH]; intros x y Hnd Hx Hy E; [contradiction|].
  simpl in Hnd. inversion Hnd as [|? ? Hnot Hnd']; subst.
  destruct Hx as [->|Hx], Hy as [->|Hy].
  - reflexivity.
  - exfalso. apply Hnot. rewrite E. apply in_map. exact Hy.
  - exfalso. apply Hnot. rewrite <- E. apply in_map. exact Hx.
  - apply IH; assumption.
Qed.

Lemma NoDup_map_on A B (f : A -> B) : forall (l : list A),
  NoDup l -> (forall x y, In x l -> In y l -> f x = f y -> x = y) ->
  NoDup (map f l).
Proof.
  induction l as [|a l IH]; intros Hnd Hinj; simpl; [constructor|].
  inversion Hnd as [|? ? Hnot Hnd']; subst. constructor.
  - intros Hin. apply in_map_iff in Hin. destruct Hin as (x & E & Hx).
    apply Hnot. rewrite <- (Hinj x a); [exact Hx | right; exact Hx | left; reflexivity | exact E].
  - apply IH; [exact Hnd'|]. intros x y Hx Hy. apply Hinj; right; assumption.
Qed.

Lemma NoDup_map_filter A B (f : A -> B) (g : A -> bool) : forall (l : list A),
  NoDup (map f l) -> NoDup (map f (filter g l)).
Proof.
  induction l as [|a l IH]; intros Hnd; simpl; [constructor|].
  simpl in Hnd. inversion Hnd as [|? ? Hnot Hnd']; subst.
  destruct (g a); [|apply IH; exact Hnd'].
  simpl. constructor; [|apply IH; exact Hnd'].
  intros Hin. apply Hnot. apply in_map_iff in Hin.
  destruct Hin as (x & E & Hx). apply filter_In in Hx.
  rewrite <- E. apply in_map. tauto.
Qed.

(** With distinct codes and distinct names, the entries of
    [parent_children_orgs] bear different names. *)
Lemma entry_names_distinct all_orgs :
  NoDup (codes all_orgs) -> NoDup (map preferredLabel all_orgs) ->
  NoDup (map (fun item : pystr * body => body_name (snd item))
             (parent_children_orgs all_orgs)).
Proof.
  intros Hcodes Hlabels.
  pose proof (proj1 (parent_children_orgs_inv all_orgs)) as Hkeys.
  apply NoDup_map_on.
  - apply (NoDup_map_inv fst). exact Hkeys.
  - intros [c1 b1] [c2 b2] H1 H2 E. simpl in E.
    apply (In_dict_get _ _ _ Hkeys) in H1, H2.
    destruct (entry_node_ok _ _ H1) as (_ & o1 & Hin1 & Hc1 & Hn1 & _).
    destruct (entry_node_ok _ _ H2) as (_ & o2 & Hin2 & Hc2 & Hn2 & _).
    assert (o1 = o2) as ->.
    { apply (NoDup_map_eq preferredLabel all_orgs); try assumption. congruence. }
    assert (c1 = c2) as -> by congruence.
    f_equal. congruence.
Qed.

Lemma hierarchy_distinct all_orgs :
  NoDup (codes all_orgs) -> NoDup (map preferredLabel all_orgs) ->
  _fetch_hierarchy_from_api all_orgs
  = map entry_of (parent_children_orgs all_orgs).
Proof.
  intros Hcodes Hlabels. unfold _fetch_hierarchy_from_api, flatten.
  rewrite flatten_distinct; [reflexivity | | reflexivity].
  apply entry_names_distinct; assumption.
Qed.

Lemma In_pairs h p x :
  In (p, x) (pairs h) <-> exists cs, In (p, cs) h /\ In x cs.
Proof.
  unfold pairs. rewrite in_flat_map. split.
  - intros ([k cs] & Hin & Hx). simpl in Hx. apply in_map_iff in Hx.
    destruct Hx as (c & E & Hc). injection E as -> ->. exists cs. auto.
  - intros (cs & Hin & Hx). exists (p, cs). split; [exact Hin|].
    simpl. apply in_map. exact Hx.
Qed.

(** With distinct codes and distinct names, the pairs of the hierarchy are
    the (parent name, child name) pairs of the records. *)
Lemma pairs_spec all_orgs p x :
  NoDup (codes all_orgs) -> NoDup (map preferredLabel all_orgs) ->
  (In (p, x) (pairs (_fetch_hierarchy_from_api all_orgs)) <->
   exists op oc, In op all_orgs /\ In oc all_orgs /\
                 preferredLabel op = p /\ preferredLabel oc = x /\
                 subOrganizationOf oc = Some (code op)).
Proof.
  intros Hcodes Hlabels. rewrite In_pairs. split.
  - intros (cs & Hentry & Hx). apply hierarchy_entry_from in Hentry.
    destruct Hentry as (c & b & Hget & Hname & Hch).
    destruct (entry_node_ok _ _ Hget) as (Hch' & op & Hin & Hc & Hn & _).
    rewrite <- Hch, Hch' in Hx. apply In_children_of in Hx.
    destruct Hx as (oc & Hinc & Hsc & Hlc).
    exists op, oc. repeat split; try assumption; congruence.
  - intros (op & oc & Hinp & Hinc & Hlp & Hlc & Hs).
    pose proof (parent_children_orgs_inv all_orgs) as [Hkeys Hinv].
    specialize (Hinv (code op)).
    destruct (dict_get (code op) (parent_children_orgs all_orgs)) as [b|] eqn:E.
    + destruct Hinv as (Hch & o & Hin & Hc & Hn & _).
      assert (o = op) as ->
        by (apply (NoDup_map_eq code all_orgs); assumption).
      exists (body_children b). split.
      * rewrite hierarchy_distinct by assumption.
        apply in_map_iff. exists (code op, b). split.
        -- unfold entry_of. simpl. congruence.
        -- apply dict_get_In. exact E.
      * rewrite Hch. apply In_children_of. exists oc. auto.
    + exfalso. destruct Hinv as [Habs _].
      apply (Habs oc Hinc Hs). apply in_map. exact Hinp.
Qed.

Lemma children_NoDup all_orgs parent children :
  NoDup (map preferredLabel all_orgs) ->
  In (parent, children) (_fetch_hierarchy_from_api all_orgs) ->
  NoDup children.
Proof.
  intros Hlabels Hentry. apply hierarchy_entry_from in Hentry.
  destruct Hentry as (c & b & Hget & _ & Hch).
  destruct (entry_node_ok _ _ Hget) as (Hch' & _).
  rewrite <- Hch, Hch'. apply NoDup_map_filter. exact Hlabels.
Qed.

(** C2 fails as stated: with two roots of the same name, the hierarchy of
    the list and that of its reverse keep the children of different roots,
    and two records of the same name appear twice under their parent. *)
Lemma homonyms_break_order_independence :
  _fetch_hierarchy_from_api homonym_orgs = [(lit "X", [lit "b"; lit "b"])] /\
  _fetch_hierarchy_from_api (rev homonym_orgs) = [(lit "X", [lit "a"])] /\
  ~ same_pairs (_fetch_hierarchy_from_api homonym_orgs)
               (_fetch_hierarchy_from_api (rev homonym_orgs)) /\
  ~ NoDup [lit "b"; lit "b"].
Proof.
  split; [vm_compute; reflexivity|].
  split; [vm_compute; reflexivity|].
  split.
  - intros H. specialize (H (lit "X", lit "b")). destruct H as [H _].
    assert (Hin : In (lit "X", lit "b")
                     (pairs (_fetch_hierarchy_from_api homonym_orgs)))
      by (vm_compute; left; reflexivity).
    apply H in Hin. vm_compute in Hin. destruct Hin as [E|[]]. discriminate E.
  - intros H. inversion H as [|? ? Hnot _]; subst. apply Hnot. left. reflexivity.
Qed.

(** Distinct names are not enough: two records of the same code give the
    entry of that code the name of whichever comes first. *)
Lemma same_codes_break_order_independence :
  _fetch_hierarchy_from_api same_code_orgs = [(lit "X", [lit "a"])] /\
  _fetch_hierarchy_from_api (rev same_code_orgs) = [(lit "Y", [lit "a"])].
Proof. split; vm_compute; reflexivity. Qed.

(** C2, amended.  When the records have pairwise distinct codes and
    pairwise distinct names, the hierarchy of the list and that of its
    reverse have the same (parent name, child name) pairs, and no name
    appears twice in a children list. *)
Theorem hierarchy_order_independent :
  forall all_orgs : list org,
    NoDup (codes all_orgs) ->
    NoDup (map preferredLabel all_orgs) ->
    same_pairs (_fetch_hierarchy_from_api all_orgs)
               (_fetch_hierarchy_from_api (rev all_orgs)) /\
    forall parent children,
      In (parent, children) (_fetch_hierarchy_from_api all_orgs) ->
      NoDup children.
Proof.
  intros all_orgs Hcodes Hlabels. split.
  - intros [p x].
    assert (Hcodes' : NoDup (codes (rev all_orgs)))
      by (unfold codes; rewrite map_rev; apply NoDup_rev; exact Hcodes).
    assert (Hlabels' : NoDup (map preferredLabel (rev all_orgs)))
      by (rewrite map_rev; apply NoDup_rev; exact Hlabels).
    rewrite (@pairs_spec all_orgs p x Hcodes Hlabels),
      (@pairs_spec (rev all_orgs) p x Hcodes' Hlabels').
    split; intros (op & oc & Hp & Hc & H);
      exists op, oc; (split; [|split]); try exact H;
        first [apply in_rev; assumption
              | apply in_rev; rewrite rev_involutive; assumption
              | rewrite <- in_rev; assumption
              | rewrite in_rev; assumption].
  - intros parent children. apply children_NoDup. exact Hlabels.
Qed.

Lemma hierarchy_order_independent_witness :
  same_pairs (_fetch_hierarchy_from_api plain_orgs)
             (_fetch_hierarchy_from_api (rev plain_orgs)) /\
  forall parent children,
    In (parent, children) (_fetch_hierarchy_from_api plain_orgs) ->
    NoDup children.
Proof.
  apply hierarchy_order_independent.
  - vm_compute. repeat constructor; simpl; intuition discriminate.
  - vm_compute. repeat constructor; simpl; intuition discriminate.
Defined.

(* ================================================================= *)
(** * Further properties *)

Unset Implicit Arguments.

(** ** The write rule and the page reconciler *)

Example recreate_tree_sample :
  let '(w, edits) := recreate_tree sample_hierarchy blank_wiki in
  map (fun kv => (fst kv, page_text (snd kv))) (wiki_categories w)
  = [(lit "B", lit "[[Category:A]]"); (lit "A", lit "[[Category:Φορείς]]");
     (lit "C", lit "[[Category:A]]")] /\
  length edits = 6.
Proof. vm_compute. split; reflexivity. Qed.

Lemma contains_prefix_app p s : contains p (p ++ s) = true.
Proof. apply (contains_intro p [] s). Qed.

Lemma add_text_categorizes (p : page) (text : pystr) (replace_text : option pystr) :
  contains CATEGORY_PREFIX text = true ->
  exists p', fst (_add_text_to_page (Some p) text replace_text) = Some p' /\
             page_name p' = page_name p /\
             categorized p'.
Proof.
  intros Ht.
  unfold _add_text_to_page.
  destruct (new_text_of p text replace_text) as [nt|] eqn:E; simpl.
  - exists (page_edit p nt). split; [reflexivity|]. split; [reflexivity|].
    split; [reflexivity|]. simpl.
    unfold new_text_of in E. destruct (page_exists p).
    + destruct replace_text as [r|].
      * destruct (contains r (page_text p)) eqn:Er.
        -- injection E as <-. eapply contains_trans; [exact Ht|].
           apply replace_contains_new. exact Er.
        -- destruct (negb (contains CATEGORY_PREFIX (page_text p)));
             [injection E as <-; exact Ht | discriminate].
      * destruct (negb (contains CATEGORY_PREFIX (page_text p)));
          [injection E as <-; exact Ht | discriminate].
    + injection E as <-. exact Ht.
  - exists p. split; [reflexivity|]. split; [reflexivity|].
    unfold new_text_of in E. destruct (page_exists p) eqn:Ex; [|discriminate].
    split; [exact Ex|].
    destruct replace_text as [r|].
    + destruct (contains r (page_text p)); [discriminate|].
      destruct (contains CATEGORY_PREFIX (page_text p)); [reflexivity|discriminate].
    + destruct (contains CATEGORY_PREFIX (page_text p)); [reflexivity|discriminate].
Qed.

(** X1. Whenever the ensured text carries a category marker, the page that
    [_add_text_to_page] leaves exists and is categorized, whatever it was
    before. *)
Theorem add_text_leaves_page_categorized :
  forall (p : page) (text : pystr) (replace_text : option pystr),
    contains CATEGORY_PREFIX text = true ->
    exists p', fst (_add_text_to_page (Some p) text replace_text) = Some p' /\
               page_name p' = page_name p /\
               categorized p'.
Proof. intros p text replace_text. apply add_text_categorizes. Qed.

Lemma add_text_leaves_page_categorized_witness :
  exists p', fst (_add_text_to_page (Some (sample_page true "old text"))
                                    CATEGORY (Some (lit "old")))
             = Some p' /\
             page_name p' = page_name (sample_page true "old text") /\
             categorized p'.
Proof.
  apply add_text_leaves_page_categorized. vm_compute. reflexivity.
Defined.

Lemma dict_set_same_value V (k : pystr) (v : V) : forall d,
  dict_get k d = Some v -> dict_set k v d = d.
Proof.
  induction d as [|[k' v'] d IH]; simpl; [discriminate|].
  destruct (pystr_eq_dec k k') as [->|]; intros H.
  - injection H as ->. reflexivity.
  - rewrite IH by exact H. reflexivity.
Qed.

Lemma get_site_page_dict w name c :
  _get_site_page w name c = dict_get name (wiki_dict c w).
Proof. destruct c; reflexivity. Qed.

Lemma store_page_same c name p w :
  dict_get name (wiki_dict c (store_page c name (Some p) w)) = Some p.
Proof. destruct c; simpl; apply dict_get_set_same. Qed.

Lemma store_page_other c c' name n pg w :
  c' <> c \/ n <> name ->
  dict_get n (wiki_dict c' (store_page c name pg w)) = dict_get n (wiki_dict c' w).
Proof.
  intros H. destruct pg as [p|]; [|reflexivity].
  destruct c, c'; simpl; try reflexivity;
    (destruct H as [H|H]; [congruence | apply dict_get_set_other; exact H]).
Qed.

Lemma store_page_catalogue c name pg w :
  wiki_catalogue (store_page c name pg w) = wiki_catalogue w.
Proof. destruct pg; [destruct c|]; reflexivity. Qed.

Lemma add_text_at_other c c' name text r st n :
  c' <> c \/ n <> name ->
  dict_get n (wiki_dict c' (fst (add_text_at c name text r st)))
  = dict_get n (wiki_dict c' (fst st)).
Proof. intros H. unfold add_text_at. simpl. apply store_page_other. exact H. Qed.

Lemma add_text_at_same c name text r st p0 :
  dict_get name (wiki_dict c (fst st)) = Some p0 ->
  dict_get name (wiki_dict c (fst (add_text_at c name text r st)))
  = fst (_add_text_to_page (Some p0) text r).
Proof.
  intros H. unfold add_text_at. simpl. rewrite get_site_page_dict, H.
  unfold _add_text_to_page.
  destruct (new_text_of p0 text r); simpl; apply store_page_same.
Qed.

Lemma add_text_at_unreachable c name text r st :
  dict_get name (wiki_dict c (fst st)) = None ->
  add_text_at c name text r st = st.
Proof.
  intros H. unfold add_text_at. rewrite get_site_page_dict, H. simpl.
  rewrite app_nil_r. destruct st; reflexivity.
Qed.

(** A call with a categorizing text keeps what is categorized and
    categorizes the page it looks up. *)
Lemma add_text_at_keeps c c' name text r st n :
  contains CATEGORY_PREFIX text = true ->
  categorized_at c' n (fst st) ->
  categorized_at c' n (fst (add_text_at c name text r st)).
Proof.
  intros Ht H p.
  destruct (bool_dec c' c) as [->|Hc].
  - destruct (pystr_eq_dec n name) as [->|Hn].
    + destruct (dict_get name (wiki_dict c (fst st))) as [p0|] eqn:E.
      * rewrite (add_text_at_same _ _ _ _ _ _ E).
        destruct (@add_text_categorizes p0 text r Ht) as (p' & Hp' & _ & Hcat).
        rewrite Hp'. intros H'. injection H' as <-. exact Hcat.
      * rewrite add_text_at_unreachable by exact E. rewrite E. discriminate.
    + rewrite add_text_at_other by (right; exact Hn). apply H.
  - rewrite add_text_at_other by (left; exact Hc). apply H.
Qed.

Lemma add_text_at_sets c name text r st :
  contains CATEGORY_PREFIX text = true ->
  categorized_at c name (fst (add_text_at c name text r st)).
Proof.
  intros Ht p.
  destruct (dict_get name (wiki_dict c (fst st))) as [p0|] eqn:E.
  - rewrite (add_text_at_same _ _ _ _ _ _ E).
    destruct (@add_text_categorizes p0 text r Ht) as (p' & Hp' & _ & Hcat).
    rewrite Hp'. intros H'. injection H' as <-. exact Hcat.
  - rewrite add_text_at_unreachable by exact E. rewrite E. discriminate.
Qed.

Lemma CATEGORY_categorizes : contains CATEGORY_PREFIX CATEGORY = true.
Proof. reflexivity. Qed.

Lemma CATALOGUE_CATEGORY_categorizes :
  contains CATEGORY_PREFIX CATALOGUE_CATEGORY = true.
Proof. reflexivity. Qed.

Lemma parent_category_categorizes parent :
  contains CATEGORY_PREFIX (lit "[[Category:" ++ parent ++ lit "]]") = true.
Proof. apply contains_prefix_app. Qed.

Lemma create_pages_keeps name pc st c n :
  categorizing pc ->
  categorized_at c n (fst st) ->
  categorized_at c n (fst (_create_pages name pc st)).
Proof.
  intros Hpc H. unfold _create_pages.
  apply add_text_at_keeps; [exact CATALOGUE_CATEGORY_categorizes|].
  apply add_text_at_keeps; [|exact H].
  destruct pc as [t|]; [apply Hpc; reflexivity | exact CATEGORY_categorizes].
Qed.

Lemma create_pages_sets name pc st :
  categorizing pc ->
  categorized_at true name (fst (_create_pages name pc st)) /\
  categorized_at false (content_name name) (fst (_create_pages name pc st)).
Proof.
  intros Hpc. unfold _create_pages. split.
  - apply add_text_at_keeps; [exact CATALOGUE_CATEGORY_categorizes|].
    apply add_text_at_sets.
    destruct pc as [t|]; [apply Hpc; reflexivity | exact CATEGORY_categorizes].
  - apply add_text_at_sets. exact CATALOGUE_CATEGORY_categorizes.
Qed.

Lemma fold_left_inv A S (f : S -> A -> S) (P : S -> Prop) : forall l s,
  (forall s a, In a l -> P s -> P (f s a)) -> P s -> P (fold_left f l s).
Proof.
  induction l as [|a l IH]; intros s Hf Hs; simpl; [exact Hs|].
  apply IH.
  - intros s' a' Hin. apply Hf. right. exact Hin.
  - apply Hf; [left; reflexivity | exact Hs].
Qed.

Lemma recreate_tree_fold h w : recreate_tree h w = fold_left tree_step h (w, []).
Proof. reflexivity. Qed.

Lemma create_children_keeps parent children st c n :
  categorized_at c n (fst st) ->
  categorized_at c n (fst (create_children parent children st)).
Proof.
  intros H. unfold create_children. apply fold_left_inv; [|exact H].
  intros s a _ Hs. apply create_pages_keeps; [|exact Hs].
  intros t Ht. injection Ht as <-. apply parent_category_categorizes.
Qed.

Lemma create_children_sets parent : forall children st n,
  In n children ->
  categorized_at true n (fst (create_children parent children st)) /\
  categorized_at false (content_name n) (fst (create_children parent children st)).
Proof.
  induction children as [|a l IH]; intros st n Hin; [contradiction|].
  destruct Hin as [->|Hin].
  - change (create_children parent (n :: l) st)
      with (create_children parent l
              (_create_pages n (Some (lit "[[Category:" ++ parent ++ lit "]]")) st)).
    assert (Hpc : categorizing (Some (lit "[[Category:" ++ parent ++ lit "]]")))
      by (intros t Ht; injection Ht as <-; apply parent_category_categorizes).
    destruct (create_pages_sets n _ st Hpc) as [H1 H2].
    split; apply create_children_keeps; assumption.
  - apply (IH _ n Hin).
Qed.

Lemma tree_step_keeps st item c n :
  categorized_at c n (fst st) -> categorized_at c n (fst (tree_step st item)).
Proof.
  intros H. unfold tree_step. apply create_children_keeps.
  apply create_pages_keeps; [intros t Ht; discriminate | exact H].
Qed.

Lemma tree_step_sets st item n :
  In n (fst item :: snd item) ->
  categorized_at true n (fst (tree_step st item)) /\
  categorized_at false (content_name n) (fst (tree_step st item)).
Proof.
  intros [<-|Hin]; unfold tree_step.
  - assert (Hpc : categorizing None) by (intros t Ht; discriminate).
    destruct (create_pages_sets (fst item) _ st Hpc) as [H1 H2].
    split; apply create_children_keeps; assumption.
  - apply create_children_sets. exact Hin.
Qed.

Lemma tree_fold_sets : forall h st n,
  In n (hierarchy_names h) ->
  categorized_at true n (fst (fold_left tree_step h st)) /\
  categorized_at false (content_name n) (fst (fold_left tree_step h st)).
Proof.
  induction h as [|item h IH]; intros st n Hin; [contradiction|].
  unfold hierarchy_names in Hin. simpl flat_map in Hin.
  change (In n ((fst item :: snd item) ++ hierarchy_names h)) in Hin.
  apply in_app_or in Hin. destruct Hin as [Hin|Hin].
  - destruct (tree_step_sets st item n Hin) as [H1 H2]. simpl fold_left.
    split; (apply fold_left_inv; [intros; apply tree_step_keeps; assumption|]);
      assumption.
  - apply (IH _ n Hin).
Qed.

(** X2. After [recreate_tree], every organization the hierarchy names,
    parent or child, has its category page and its content page
    categorized, as far as those pages can be looked up. *)
Theorem recreate_tree_categorizes :
  forall (h : dict (list pystr)) (w : wiki) (n : pystr),
    In n (hierarchy_names h) ->
    (forall p, dict_get n (wiki_categories (fst (recreate_tree h w))) = Some p ->
               page_exists p = true /\
               contains CATEGORY_PREFIX (page_text p) = true) /\
    (forall p, dict_get (NAMESPACE ++ lit ":" ++ n)
                        (wiki_pages (fst (recreate_tree h w))) = Some p ->
               page_exists p = true /\
               contains CATEGORY_PREFIX (page_text p) = true).
Proof.
  intros h w n Hin. rewrite recreate_tree_fold.
  exact (tree_fold_sets h (w, []) n Hin).
Qed.

Lemma recreate_tree_categorizes_witness :
  (forall p, dict_get (lit "B")
                      (wiki_categories (fst (recreate_tree sample_hierarchy blank_wiki)))
             = Some p ->
             page_exists p = true /\
             contains CATEGORY_PREFIX (page_text p) = true) /\
  (forall p, dict_get (NAMESPACE ++ lit ":" ++ lit "B")
                      (wiki_pages (fst (recreate_tree sample_hierarchy blank_wiki)))
             = Some p ->
             page_exists p = true /\
             contains CATEGORY_PREFIX (page_text p) = true).
Proof.
  apply recreate_tree_categorizes. vm_compute. tauto.
Defined.

Lemma store_page_unchanged c name p w :
  dict_get name (wiki_dict c w) = Some p -> store_page c name (Some p) w = w.
Proof.
  intros H. destruct w as [pages cats cat]. destruct c; simpl in *;
    rewrite dict_set_same_value by exact H; reflexivity.
Qed.

(** On a categorized page that does not carry the marker, a call writes
    nothing. *)
Lemma add_text_at_noop c name text r st :
  (forall p, dict_get name (wiki_dict c (fst st)) = Some p ->
             categorized p /\
             forall m, r = Some m -> contains m (page_text p) = false) ->
  add_text_at c name text r st = st.
Proof.
  intros H. destruct (dict_get name (wiki_dict c (fst st))) as [p|] eqn:E.
  - destruct (H p eq_refl) as [[Hex Hcat] Hm].
    unfold add_text_at. rewrite get_site_page_dict, E.
    assert (En : new_text_of p text r = None).
    { unfold new_text_of. rewrite Hex. destruct r as [m|].
      - rewrite (Hm m eq_refl), Hcat. reflexivity.
      - rewrite Hcat. reflexivity. }
    unfold _add_text_to_page. rewrite En. cbn [fst snd map].
    rewrite store_page_unchanged by exact E. rewrite app_nil_r.
    destruct st; reflexivity.
  - apply add_text_at_unreachable. exact E.
Qed.

Lemma create_pages_noop name pc st :
  categorized_at true name (fst st) ->
  categorized_at false (content_name name) (fst st) ->
  (forall p, pc <> None -> dict_get name (wiki_categories (fst st)) = Some p ->
             contains CATEGORY (page_text p) = false) ->
  _create_pages name pc st = st.
Proof.
  intros Hc Hp Hm. unfold _create_pages.
  rewrite (add_text_at_noop true).
  - apply (add_text_at_noop false). intros p Hget. split; [apply Hp; exact Hget|].
    intros m Hd; discriminate.
  - intros p Hget. split; [apply Hc; exact Hget|].
    intros m Hr. destruct pc as [t|]; [|discriminate].
    injection Hr as <-. apply (Hm p); [discriminate | exact Hget].
Qed.

Lemma in_hierarchy_names h item n :
  In item h -> In n (fst item :: snd item) -> In n (hierarchy_names h).
Proof.
  intros Hi Hn. unfold hierarchy_names. apply in_flat_map. exists item. auto.
Qed.

Lemma in_hierarchy_children h item n :
  In item h -> In n (snd item) -> In n (hierarchy_children h).
Proof.
  intros Hi Hn. unfold hierarchy_children. apply in_flat_map. exists item. auto.
Qed.

Lemma settled_run h w : settled h w -> recreate_tree h w = (w, []).
Proof.
  intros [Hcat Hmark]. rewrite recreate_tree_fold.
  apply (fold_left_inv _ _ tree_step (fun st => st = (w, []))); [|reflexivity].
  intros s item Hitem ->. unfold tree_step, create_children.
  rewrite create_pages_noop.
  - apply (fold_left_inv _ _ _ (fun st => st = (w, []))); [|reflexivity].
    intros s child Hchild ->.
    assert (Hn : In child (hierarchy_names h))
      by (apply (in_hierarchy_names h item); [exact Hitem | right; exact Hchild]).
    apply create_pages_noop; try apply (Hcat child Hn).
    intros p _ Hget. apply (Hmark child p); [|exact Hget].
    apply (in_hierarchy_children h item); assumption.
  - apply (Hcat (fst item)). apply (in_hierarchy_names h item);
      [exact Hitem | left; reflexivity].
  - apply (Hcat (fst item)). apply (in_hierarchy_names h item);
      [exact Hitem | left; reflexivity].
  - intros p Hpc. congruence.
Qed.

(** X3. Once the category and content pages of the hierarchy's names are
    categorized and the category pages of the children no longer carry the
    top-level marker, [recreate_tree] makes no edit and leaves the wiki as
    it is. *)
Theorem recreate_tree_settled_writes_nothing :
  forall (h : dict (list pystr)) (w : wiki),
    (forall n, In n (hierarchy_names h) ->
       categorized_at true n w /\ categorized_at false (content_name n) w) ->
    (forall n p, In n (hierarchy_children h) ->
       dict_get n (wiki_categories w) = Some p ->
       contains CATEGORY (page_text p) = false) ->
    recreate_tree h w = (w, []).
Proof. intros h w H1 H2. apply settled_run. split; assumption. Qed.

Lemma sample_settled :
  settled sample_hierarchy (fst (recreate_tree sample_hierarchy blank_wiki)).
Proof.
  split.
  - intros n Hn. rewrite recreate_tree_fold. apply tree_fold_sets. exact Hn.
  - intros n p Hn Hget. vm_compute in Hn.
    destruct Hn as [<-|[<-|[<-|[]]]]; vm_compute in Hget;
      try discriminate Hget; injection Hget as <-; vm_compute; reflexivity.
Qed.

Lemma recreate_tree_settled_writes_nothing_witness :
  recreate_tree sample_hierarchy (fst (recreate_tree sample_hierarchy blank_wiki))
  = (fst (recreate_tree sample_hierarchy blank_wiki), []).
Proof.
  apply recreate_tree_settled_writes_nothing; apply sample_settled.
Defined.

(** What one call can do to an entry: nothing but keep it there, keep its
    name, and keep an existing page existing. *)
Lemma add_text_at_stays c c' name text r st n p :
  dict_get n (wiki_dict c' (fst st)) = Some p ->
  exists p', dict_get n (wiki_dict c' (fst (add_text_at c name text r st))) = Some p' /\
             page_name p' = page_name p /\
             (page_exists p = true -> page_exists p' = true).
Proof.
  intros H. destruct (bool_dec c' c) as [->|Hc].
  - destruct (pystr_eq_dec n name) as [->|Hn].
    + rewrite (add_text_at_same _ _ _ _ _ _ H). unfold _add_text_to_page.
      destruct (new_text_of p text r); simpl; eexists; split; try reflexivity;
        split; auto.
    + rewrite add_text_at_other by (right; exact Hn). exists p. auto.
  - rewrite add_text_at_other by (left; exact Hc). exists p. auto.
Qed.


Lemma stays_refl w : stays w w.
Proof. split; [reflexivity|]. intros c n p H. exists p. auto. Qed.

Lemma stays_trans w1 w2 w3 : stays w1 w2 -> stays w2 w3 -> stays w1 w3.
Proof.
  intros [Hc1 H1] [Hc2 H2]. split; [congruence|].
  intros c n p H. destruct (H1 c n p H) as (p' & Hg' & Hn' & He').
  destruct (H2 c n p' Hg') as (p'' & Hg'' & Hn'' & He'').
  exists p''. split; [exact Hg''|]. split; [congruence | auto].
Qed.

Lemma add_text_at_stays_all c name text r st :
  stays (fst st) (fst (add_text_at c name text r st)).
Proof.
  split.
  - unfold add_text_at. simpl. apply store_page_catalogue.
  - intros c' n p H. apply add_text_at_stays. exact H.
Qed.

Lemma create_pages_stays name pc st : stays (fst st) (fst (_create_pages name pc st)).
Proof.
  unfold _create_pages. eapply stays_trans; apply add_text_at_stays_all.
Qed.

Lemma create_pages_frame name pc st c n :
  (c = true -> n <> name) -> (c = false -> n <> content_name name) ->
  dict_get n (wiki_dict c (fst (_create_pages name pc st)))
  = dict_get n (wiki_dict c (fst st)).
Proof.
  intros H1 H2. unfold _create_pages.
  rewrite add_text_at_other, add_text_at_other; [reflexivity| |];
    destruct c; auto; left; discriminate.
Qed.

(** What holds of the state all along a run on [h] started from [w]. *)
Lemma recreate_tree_frame_inv h w :
  let w' := fst (recreate_tree h w) in
  stays w w' /\
  forall c n,
    (c = true -> ~ In n (hierarchy_names h)) ->
    (c = false -> forall m, In m (hierarchy_names h) -> n <> content_name m) ->
    dict_get n (wiki_dict c w') = dict_get n (wiki_dict c w).
Proof.
  simpl. rewrite recreate_tree_fold.
  apply (fold_left_inv _ _ tree_step
           (fun st => stays w (fst st) /\
                      forall c n,
                        (c = true -> ~ In n (hierarchy_names h)) ->
                        (c = false -> forall m, In m (hierarchy_names h) ->
                                                n <> content_name m) ->
                        dict_get n (wiki_dict c (fst st)) = dict_get n (wiki_dict c w))).
  - intros s item Hitem Hs. unfold tree_step, create_children.
    apply (fold_left_inv _ _ _
             (fun st => stays w (fst st) /\
                        forall c n,
                          (c = true -> ~ In n (hierarchy_names h)) ->
                          (c = false -> forall m, In m (hierarchy_names h) ->
                                                  n <> content_name m) ->
                          dict_get n (wiki_dict c (fst st)) = dict_get n (wiki_dict c w)));
      [intros s' child Hchild Hs' | ];
      match goal with
      | |- context [_create_pages ?nm ?pc ?s0] =>
        assert (Hnm : In nm (hierarchy_names h));
          [ first [ apply (in_hierarchy_names h item);
                    [exact Hitem | right; exact Hchild]
                  | apply (in_hierarchy_names h item);
                    [exact Hitem | left; reflexivity] ]
          | split;
            [ eapply stays_trans; [apply (proj1 ltac:(eassumption)) | apply create_pages_stays]
            | intros c n Hc Hp; rewrite create_pages_frame;
              [ apply (proj2 ltac:(eassumption)); assumption
              | intros Ec Hn; subst; apply (Hc eq_refl); exact Hnm
              | intros Ec Hn; subst; apply (Hp eq_refl nm Hnm); reflexivity ] ] ]
      end.
  - split; [apply stays_refl | reflexivity].
Qed.

(** X4. [recreate_tree] removes nothing and touches only the pages of the
    hierarchy's names: every page is still reachable under its name, a
    page that existed still exists, the catalogue listing is the same, and
    the category pages and content pages of other names are unchanged. *)
Theorem recreate_tree_touches_only_its_names :
  forall (h : dict (list pystr)) (w : wiki),
    wiki_catalogue (fst (recreate_tree h w)) = wiki_catalogue w /\
    (forall c n p, dict_get n (wiki_dict c w) = Some p ->
       exists p', dict_get n (wiki_dict c (fst (recreate_tree h w))) = Some p' /\
                  page_name p' = page_name p /\
                  (page_exists p = true -> page_exists p' = true)) /\
    (forall n, ~ In n (hierarchy_names h) ->
       dict_get n (wiki_categories (fst (recreate_tree h w)))
       = dict_get n (wiki_categories w)) /\
    (forall k, (forall m, In m (hierarchy_names h) -> k <> NAMESPACE ++ lit ":" ++ m) ->
       dict_get k (wiki_pages (fst (recreate_tree h w)))
       = dict_get k (wiki_pages w)).
Proof.
  intros h w. destruct (recreate_tree_frame_inv h w) as [[Hcat Hstay] Hframe].
  split; [exact Hcat|]. split; [exact Hstay|]. split.
  - intros n Hn. apply (Hframe true n); [intros _; exact Hn | discriminate].
  - intros k Hk. apply (Hframe false k); [discriminate | intros _; exact Hk].
Qed.

(* ================================================================= *)
(** ** More on the hierarchy builder *)

(** X5. For records with pairwise distinct codes and names, the (parent
    name, child name) pairs of the hierarchy do not depend on the order of
    the records: any reordering gives the same set of pairs. *)
Theorem hierarchy_permutation_invariant :
  forall all_orgs all_orgs' : list org,
    Permutation all_orgs all_orgs' ->
    NoDup (codes all_orgs) ->
    NoDup (map preferredLabel all_orgs) ->
    same_pairs (_fetch_hierarchy_from_api all_orgs)
               (_fetch_hierarchy_from_api all_orgs').
Proof.
  intros l l' Hperm Hcodes Hlabels [p x].
  assert (Hcodes' : NoDup (codes l'))
    by (eapply Permutation_NoDup; [apply Permutation_map; exact Hperm | exact Hcodes]).
  assert (Hlabels' : NoDup (map preferredLabel l'))
    by (eapply Permutation_NoDup; [apply Permutation_map; exact Hperm | exact Hlabels]).
  rewrite (pairs_spec l p x Hcodes Hlabels), (pairs_spec l' p x Hcodes' Hlabels').
  split; intros (op & oc & Hp & Hc & H); exists op, oc;
    (split; [|split]); try exact H.
  - eapply Permutation_in; eassumption.
  - eapply Permutation_in; eassumption.
  - eapply Permutation_in; [apply Permutation_sym|]; eassumption.
  - eapply Permutation_in; [apply Permutation_sym|]; eassumption.
Qed.

Lemma hierarchy_permutation_invariant_witness :
  same_pairs (_fetch_hierarchy_from_api plain_orgs)
             (_fetch_hierarchy_from_api
                [mk_org "2" "A" (Some "1"); mk_org "1" "P" None;
                 mk_org "4" "C" (Some "99"); mk_org "3" "B" (Some "1")]).
Proof.
  apply hierarchy_permutation_invariant.
  - unfold plain_orgs.
    apply perm_trans with
        (l' := [mk_org "2" "A" (Some "1"); mk_org "1" "P" None;
                mk_org "3" "B" (Some "1"); mk_org "4" "C" (Some "99")]).
    + apply perm_swap.
    + do 2 apply perm_skip. apply perm_swap.
  - vm_compute. repeat constructor; simpl; intuition discriminate.
  - vm_compute. repeat constructor; simpl; intuition discriminate.
Defined.

(** X6. For records with pairwise distinct codes and names, a record that
    is a root, or that some record names as its parent, is a key of the
    hierarchy, and its list is the names of the records naming it as
    parent, in the order of the records (empty for a childless root). *)
Theorem hierarchy_lists_children_in_order :
  forall (all_orgs : list org) (o : org),
    NoDup (codes all_orgs) ->
    NoDup (map preferredLabel all_orgs) ->
    In o all_orgs ->
    (subOrganizationOf o = None \/
     exists o', In o' all_orgs /\ subOrganizationOf o' = Some (code o)) ->
    dict_get (preferredLabel o) (_fetch_hierarchy_from_api all_orgs)
    = Some (children_of (code o) all_orgs).
Proof.
  intros all_orgs o Hcodes Hlabels Hin Hrole.
  pose proof (parent_children_orgs_inv all_orgs) as [Hkeys Hinv].
  specialize (Hinv (code o)).
  destruct (dict_get (code o) (parent_children_orgs all_orgs)) as [b|] eqn:E.
  - destruct Hinv as (Hch & o1 & Hin1 & Hc1 & Hn1 & _).
    assert (o1 = o) as ->
      by (apply (NoDup_map_eq code all_orgs); assumption).
    apply In_dict_get; [apply hierarchy_keys_NoDup|].
    rewrite (@hierarchy_distinct all_orgs Hcodes Hlabels).
    apply in_map_iff. exists (code o, b). split.
    + unfold entry_of. simpl. congruence.
    + apply dict_get_In. exact E.
  - exfalso. destruct Hinv as [Hchild Hroot].
    destruct Hrole as [Hr|(o' & Hin' & Hs')].
    + apply (Hroot o Hin Hr). reflexivity.
    + apply (Hchild o' Hin' Hs'). apply in_map. exact Hin.
Qed.

Lemma hierarchy_lists_children_in_order_witness :
  dict_get (preferredLabel (mk_org "1" "P" None))
           (_fetch_hierarchy_from_api plain_orgs)
  = Some (children_of (code (mk_org "1" "P" None)) plain_orgs).
Proof.
  apply hierarchy_lists_children_in_order.
  - vm_compute. repeat constructor; simpl; intuition discriminate.
  - vm_compute. repeat constructor; simpl; intuition discriminate.
  - left. reflexivity.
  - left. reflexivity.
Defined.

(** X7. The hierarchy names only what the records give: each key is the
    name of a record that is a root or whose code some record names as its
    parent, and each listed child is the name of a record whose parent code
    is the code of a record of the list. *)
Theorem hierarchy_names_come_from_records :
  forall (all_orgs : list org) (k : pystr) (cs : list pystr),
    dict_get k (_fetch_hierarchy_from_api all_orgs) = Some cs ->
    (exists o, In o all_orgs /\ preferredLabel o = k /\
               (subOrganizationOf o = None \/
                exists o', In o' all_orgs /\
                           subOrganizationOf o' = Some (code o))) /\
    (forall x, In x cs ->
       exists oc q, In oc all_orgs /\ preferredLabel oc = x /\
                    subOrganizationOf oc = Some q /\ In q (codes all_orgs)).
Proof.
  intros all_orgs k cs H.
  apply dict_get_In, hierarchy_entry_from in H.
  destruct H as (c & b & Hget & Hname & Hch).
  destruct (entry_node_ok _ _ Hget) as (Hch' & o & Hin & Hc & Hn & Hor).
  split.
  - exists o. split; [exact Hin|]. split; [congruence|].
    destruct Hor as [Hr|(o' & Hin' & Hs')]; [left; exact Hr|].
    right. exists o'. split; [exact Hin' | congruence].
  - intros x Hx. rewrite <- Hch, Hch' in Hx. apply In_children_of in Hx.
    destruct Hx as (oc & Hinc & Hsc & Hlc).
    exists oc, c. repeat split; try assumption.
    rewrite <- Hc. apply in_map. exact Hin.
Qed.

Lemma hierarchy_names_come_from_records_witness :
  (exists o, In o orphan_orgs /\ preferredLabel o = lit "A" /\
             (subOrganizationOf o = None \/
              exists o', In o' orphan_orgs /\
                         subOrganizationOf o' = Some (code o))) /\
  (forall x, In x [lit "B"] ->
     exists oc q, In oc orphan_orgs /\ preferredLabel oc = x /\
                  subOrganizationOf oc = Some q /\ In q (codes orphan_orgs)).
Proof.
  apply hierarchy_names_come_from_records. vm_compute. reflexivity.
Defined.

(* ================================================================= *)
(** ** More on the detail fetcher *)

Lemma translate_status_known s t :
  translate_status (PStr s) = Ok t ->
  (s = lit "Active" /\ t = lit "Ενεργός") \/
  (s = lit "Inactive" /\ t = lit "Ανενεργός").
Proof.
  unfold translate_status, STATUS_TRANSLATION. simpl.
  destruct (pystr_eq_dec s (lit "Active")) as [->|_].
  - intros H. injection H as <-. left. split; reflexivity.
  - destruct (pystr_eq_dec s (lit "Inactive")) as [->|_]; [|discriminate].
    intros H. injection H as <-. right. split; reflexivity.
Qed.

Lemma greek_label_is_no_key t :
  t = lit "Ενεργός" \/ t = lit "Ανενεργός" ->
  translate_status (PStr t) = Raise KeyError.
Proof. intros [->| ->]; vm_compute; reflexivity. Qed.

(** X8. The translations cannot be applied twice to the same record: once
    a record with a status has been translated, translating the result
    again (the parent and purpose steps passing) raises [KeyError], since
    the Greek label is not a key of [STATUS_TRANSLATION]. *)
Theorem translated_record_is_not_retranslatable :
  forall (_name_by_code : pyval -> option pystr)
         (_purpose_by_id : pyval -> result pystr)
         (_type_by_id : pyval -> result pyval)
         (data d' d1 : dict pyval) (s : pystr),
    translate_details _name_by_code _purpose_by_id _type_by_id data = Ok d' ->
    get (lit "status") data = PStr s ->
    s <> [] ->
    replace_purpose _purpose_by_id (replace_parent _name_by_code d') = Ok d1 ->
    translate_details _name_by_code _purpose_by_id _type_by_id d' = Raise KeyError.
Proof.
  intros n pu ty data d' d1 s Hfirst Hstatus Hne Hsteps.
  assert (Htruthy : truthy (PStr s) = true) by (destruct s; [congruence|reflexivity]).
  (* the status the first pass leaves *)
  assert (Hgreek : exists t, get (lit "status") d' = PStr t /\
                             (t = lit "Ενεργός" \/ t = lit "Ανενεργός")).
  { unfold translate_details in Hfirst.
    destruct (replace_purpose pu (replace_parent n data)) as [d0|] eqn:E0;
      [|discriminate].
    simpl in Hfirst.
    assert (Hs0 : get (lit "status") d0 = PStr s)
      by (rewrite (status_after_purpose pu _ E0), status_after_parent; exact Hstatus).
    unfold replace_status in Hfirst at 1. rewrite Hs0, Htruthy in Hfirst.
    destruct (translate_status (PStr s)) as [t|] eqn:Et; [|discriminate].
    simpl in Hfirst. exists t. split.
    - rewrite (status_after_type ty _ Hfirst). apply get_set_same.
    - destruct (translate_status_known _ _ Et) as [[_ ->]|[_ ->]]; auto. }
  destruct Hgreek as (t & Ht & Hlabel).
  assert (Hs1 : get (lit "status") d1 = PStr t)
    by (rewrite (status_after_purpose pu _ Hsteps), status_after_parent; exact Ht).
  unfold translate_details. rewrite Hsteps. simpl.
  unfold replace_status. rewrite Hs1.
  assert (Ht' : truthy (PStr t) = true) by (destruct Hlabel as [->| ->]; reflexivity).
  rewrite Ht', (greek_label_is_no_key t Hlabel). reflexivity.
Qed.

Lemma translated_record_is_not_retranslatable_witness :
  translate_details (fun _ => None) (fun _ => Raise KeyError)
                    (fun _ => Raise KeyError)
                    (dict_set (lit "status") (PStr (lit "Ενεργός")) sample_details)
  = Raise KeyError.
Proof.
  apply (translated_record_is_not_retranslatable
           (fun _ => None) (fun _ => Raise KeyError) (fun _ => Raise KeyError)
           sample_details _
           (dict_set (lit "status") (PStr (lit "Ενεργός")) sample_details)
           (lit "Active")).
  - vm_compute. reflexivity.
  - vm_compute. reflexivity.
  - vm_compute. discriminate.
  - vm_compute. reflexivity.
Defined.

Lemma parent_after_purpose pu d d1 :
  replace_purpose pu d = Ok d1 ->
  get (lit "subOrganizationOf") d1 = get (lit "subOrganizationOf") d.
Proof.
  unfold replace_purpose.
  destruct (truthy (get (lit "purpose") d)).
  - destruct (py_iter (get (lit "purpose") d)) as [ids|]; simpl; [|discriminate].
    destruct (mapM pu ids) as [names|]; simpl; [|discriminate].
    intros H. injection H as <-. apply get_set_other. vm_compute. discriminate.
  - intros H. injection H as <-. reflexivity.
Qed.

Lemma parent_after_status d d1 :
  replace_status d = Ok d1 ->
  get (lit "subOrganizationOf") d1 = get (lit "subOrganizationOf") d.
Proof.
  unfold replace_status.
  destruct (truthy (get (lit "status") d)).
  - destruct (translate_status (get (lit "status") d)); simpl; [|discriminate].
    intros H. injection H as <-. apply get_set_other. vm_compute. discriminate.
  - intros H. injection H as <-. reflexivity.
Qed.

Lemma parent_after_type ty d d1 :
  replace_type ty d = Ok d1 ->
  get (lit "subOrganizationOf") d1 = get (lit "subOrganizationOf") d.
Proof.
  unfold replace_type.
  destruct (truthy (get (lit "organizationType") d)).
  - destruct (ty (get (lit "organizationType") d)); simpl; [|discriminate].
    intros H. injection H as <-. apply get_set_other. vm_compute. discriminate.
  - intros H. injection H as <-. reflexivity.
Qed.

(** X9. In a translated record the parent field holds a name, never the
    code: the name [_name_by_code] gives for the parent code, or the empty
    string when it gives none. *)
Theorem parent_code_becomes_name_or_blank :
  forall (_name_by_code : pyval -> option pystr)
         (_purpose_by_id : pyval -> result pystr)
         (_type_by_id : pyval -> result pyval)
         (data d' : dict pyval),
    truthy (get (lit "subOrganizationOf") data) = true ->
    translate_details _name_by_code _purpose_by_id _type_by_id data = Ok d' ->
    get (lit "subOrganizationOf") d'
    = PStr (match _name_by_code (get (lit "subOrganizationOf") data) with
            | Some name => name
            | None => []
            end).
Proof.
  intros n pu ty data d' Htruthy H. unfold translate_details in H.
  destruct (replace_purpose pu (replace_parent n data)) as [d0|] eqn:E0;
    [|discriminate].
  simpl in H.
  destruct (replace_status d0) as [d1|] eqn:E1; [|discriminate].
  simpl in H.
  rewrite (parent_after_type ty _ _ H), (parent_after_status _ _ E1),
    (parent_after_purpose pu _ _ E0).
  unfold replace_parent. rewrite Htruthy. apply get_set_same.
Qed.

Lemma parent_code_becomes_name_or_blank_witness :
  get (lit "subOrganizationOf")
      (dict_set (lit "status") (PStr (lit "Ενεργός"))
         (dict_set (lit "subOrganizationOf") (PStr [])
            ((lit "subOrganizationOf", PStr (lit "77")) :: sample_details)))
  = PStr (match (fun _ : pyval => @None pystr)
                  (get (lit "subOrganizationOf")
                       ((lit "subOrganizationOf", PStr (lit "77")) :: sample_details))
          with Some name => name | None => [] end).
Proof.
  apply (parent_code_becomes_name_or_blank
           (fun _ => None) (fun _ => Raise KeyError) (fun _ => Raise KeyError)
           ((lit "subOrganizationOf", PStr (lit "77")) :: sample_details)).
  - vm_compute. reflexivity.
  - vm_compute. reflexivity.
Defined.

(* ================================================================= *)
(** ** More on the template renderer *)

Lemma digit_is_no_space u c : isdigit u c = true -> not_space c = true.
Proof.
  unfold isdigit, not_space. destruct (N.eqb_spec c 32) as [->|]; [|reflexivity].
  vm_compute. discriminate.
Qed.

Lemma digit_is_no_plus u c : isdigit u c = true -> c <> 43%N.
Proof. intros H ->. vm_compute in H. discriminate. Qed.

Lemma filter_all A (f : A -> bool) : forall l,
  Forall (fun x => f x = true) l -> filter f l = l.
Proof.
  induction 1 as [|x l Hx _ IH]; [reflexivity|]. simpl. rewrite Hx, IH. reflexivity.
Qed.

Lemma take_while_all f : forall s,
  Forall (fun c => f c = true) s -> take_while f s = s.
Proof.
  induction 1 as [|x l Hx _ IH]; [reflexivity|]. simpl. rewrite Hx, IH. reflexivity.
Qed.

Lemma take_while_digits f s : Forall (fun c => f c = true) (take_while f s).
Proof.
  destruct (take_while_spec f s) as (rest & _ & H & _). exact H.
Qed.

(** X10. Whatever the value, the cleaned telephone consists of digits
    only, and cleaning it again changes nothing. *)
Theorem clean_telephone_digits_and_idempotent :
  forall (unicode_isdigit : N -> bool) (value : pystr),
    Forall (fun c => isdigit unicode_isdigit c = true)
           (clean_telephone unicode_isdigit value) /\
    clean_telephone unicode_isdigit (clean_telephone unicode_isdigit value)
    = clean_telephone unicode_isdigit value.
Proof.
  intros u value.
  assert (Hd : Forall (fun c => isdigit u c = true) (clean_telephone u value))
    by apply take_while_digits.
  split; [exact Hd|].
  remember (clean_telephone u value) as t eqn:Et. clear Et.
  unfold clean_telephone.
  rewrite replace_space, filter_all.
  - replace t with (t ++ []) at 1 by apply app_nil_r.
    rewrite country_code_kept_text.
    + change (replace (lit "+30") [] []) with (@nil N). rewrite app_nil_r.
      apply take_while_all. exact Hd.
    + intros Hin. rewrite Forall_forall in Hd.
      apply (digit_is_no_plus u 43 (Hd _ Hin)). reflexivity.
  - rewrite Forall_forall in *. intros c Hc. apply (digit_is_no_space u). auto.
Qed.

Lemma scan_single_replace a new : forall s,
  scan (literal_matcher [a]) new 0 s
  = flat_map (fun c => if N.eq_dec a c then new else [c]) s.
Proof.
  induction s as [|c s IH]; [reflexivity|].
  cbn [scan flat_map]. rewrite literal_matcher_single.
  destruct (N.eq_dec a c); rewrite IH; reflexivity.
Qed.

Lemma replace_single_In a new s x :
  In x (replace [a] new s) ->
  (In x new /\ In a s) \/ (In x s /\ x <> a).
Proof.
  change (replace [a] new s) with (scan (literal_matcher [a]) new 0 s).
  rewrite scan_single_replace, in_flat_map.
  intros (c & Hc & Hx). destruct (N.eq_dec a c) as [<-|Hn].
  - left. auto.
  - destruct Hx as [<-|[]]. right. split; [exact Hc | congruence].
Qed.

(** X11. The XML escape leaves no angle bracket: neither '<' nor '>'
    occurs in an escaped string. *)
Theorem escape_leaves_no_angle_bracket :
  forall s : pystr, ~ In 60%N (escape s) /\ ~ In 62%N (escape s).
Proof.
  intros s. unfold escape.
  change (lit "<") with [60%N]. change (lit ">") with [62%N].
  change (lit "&") with [38%N].
  split; intros H.
  - apply replace_single_In in H. destruct H as [[H _]|[_ H]].
    + vm_compute in H. intuition discriminate.
    + congruence.
  - apply replace_single_In in H. destruct H as [[H _]|[H _]].
    + vm_compute in H. intuition discriminate.
    + apply replace_single_In in H. destruct H as [[H _]|[_ H]].
      * vm_compute in H. intuition discriminate.
      * congruence.
Qed.

Lemma lstrip_fixed y :
  (forall c r, y = c :: r -> isspace c = false) -> lstrip y = y.
Proof.
  intros H. destruct y as [|c r]; [reflexivity|].
  simpl. rewrite (H c r eq_refl). reflexivity.
Qed.

Lemma rstrip_fixed y :
  (forall c t, y = t ++ [c] -> isspace c = false) -> rstrip y = y.
Proof.
  intros H. unfold rstrip.
  destruct (rev y) as [|c r] eqn:E.
  - apply (f_equal (@rev N)) in E. rewrite rev_involutive in E. simpl in E.
    subst y. reflexivity.
  - assert (Ey : y = rev r ++ [c]).
    { apply (f_equal (@rev N)) in E. rewrite rev_involutive in E. exact E. }
    simpl. rewrite (H c (rev r) Ey). simpl. symmetry. exact Ey.
Qed.

Lemma strip_strip s : strip (strip s) = strip s.
Proof.
  destruct (strip_spec s) as (l & r & _ & _ & _ & Hhead & Hlast).
  unfold strip at 1. rewrite (lstrip_fixed _ Hhead). apply rstrip_fixed. exact Hlast.
Qed.

Lemma strip_In s x : In x (strip s) -> In x s.
Proof.
  destruct (strip_spec s) as (l & r & E & _). intros H. rewrite E.
  apply in_or_app. right. apply in_or_app. left. exact H.
Qed.

Lemma stretches_no_open_brace p0 segs :
  no_open_brace p0 ->
  Forall (fun bp : pystr * pystr => is_template_block (fst bp) /\ no_open_brace (snd bp)) segs ->
  no_open_brace (p0 ++ concat (map snd segs)).
Proof.
  intros Hp0 Hsegs Hin. apply in_app_or in Hin. destruct Hin as [Hin|Hin]; [auto|].
  apply in_concat in Hin. destruct Hin as (p & Hp & Hx).
  apply in_map_iff in Hp. destruct Hp as (bp & <- & Hbp).
  rewrite Forall_forall in Hsegs. apply (proj2 (Hsegs bp Hbp)). exact Hx.
Qed.

(** X12. Merging the same rendered block again changes nothing: for a
    rendered text that is a template block and a page made of stretches
    without an opening brace with blocks in between, the text after two
    updates is the text after one. *)
Theorem merge_again_changes_nothing :
  forall (t p0 : pystr) (segs : list (pystr * pystr)),
    is_template_block t ->
    no_open_brace p0 ->
    Forall (fun bp => is_template_block (fst bp) /\ no_open_brace (snd bp)) segs ->
    new_page_text t (new_page_text t (interleave p0 segs))
    = new_page_text t (interleave p0 segs).
Proof.
  intros t p0 segs Ht Hp0 Hsegs.
  assert (E1 : new_page_text t (interleave p0 segs)
               = t ++ NEWLINE ++ strip (p0 ++ concat (map snd segs))).
  { unfold new_page_text, page_text_leftovers, interleave.
    rewrite (plain_is_kept _ Hp0), (blocks_are_removed Hsegs). reflexivity. }
  rewrite E1. set (L := strip (p0 ++ concat (map snd segs))).
  assert (HL : no_open_brace (NEWLINE ++ L)).
  { intros [H|H]; [discriminate H|].
    apply strip_In in H. exact (stretches_no_open_brace p0 segs Hp0 Hsegs H). }
  unfold new_page_text at 1, page_text_leftovers. do 2 f_equal.
  destruct (block_is_matched (NEWLINE ++ L) Ht) as [Hne Hm].
  unfold remove_template_blocks. rewrite (scan_match _ _ _ Hne Hm).
  fold (remove_template_blocks (NEWLINE ++ L)).
  replace (NEWLINE ++ L) with ((NEWLINE ++ L) ++ []) by apply app_nil_r.
  rewrite (plain_is_kept _ HL). simpl app at 1. rewrite app_nil_r.
  change (strip (NEWLINE ++ L)) with (strip L).
  apply strip_strip.
Qed.

Lemma merge_again_changes_nothing_witness :
  new_page_text (lit "{{Φορέας|a=1}}")
    (new_page_text (lit "{{Φορέας|a=1}}")
       (interleave (lit " ") [(lit "{{Φορέας|b=2}}", lit "X ")]))
  = new_page_text (lit "{{Φορέας|a=1}}")
      (interleave (lit " ") [(lit "{{Φορέας|b=2}}", lit "X ")]).
Proof.
  apply merge_again_changes_nothing.
  - exact sample_block_1.
  - vm_compute. intuition discriminate.
  - repeat constructor; simpl.
    + exact sample_block_2.
    + vm_compute. intuition discriminate.
Defined.

Lemma assignments_raise u sd d : forall keys key e,
  In key keys ->
  parameter_value u sd d key = Raise e ->
  exists e', assignments u sd d keys = Raise e'.
Proof.
  induction keys as [|k keys IH]; intros key e Hin Hraise; [contradiction|].
  simpl. destruct Hin as [->|Hin].
  - rewrite Hraise. exists e. reflexivity.
  - destruct (parameter_value u sd d k) as [v|e0]; simpl; [|exists e0; reflexivity].
    destruct (IH key e Hin Hraise) as (e' & ->). exists e'. reflexivity.
Qed.

Lemma telephone_lookup_raises d v :
  dict_get (lit "contactPoint") d = Some v -> is_object v = false ->
  lookup_value d TEMPLATE_CONTACT_POINT_TELEPHONE = Raise AttributeError.
Proof.
  intros H Hv. unfold lookup_value.
  change (contains (lit "_") TEMPLATE_CONTACT_POINT_TELEPHONE) with true.
  change (nth 0 (split 95 TEMPLATE_CONTACT_POINT_TELEPHONE) [])
    with (lit "contactPoint").
  cbv iota. rewrite H. destruct v; try reflexivity. discriminate Hv.
Qed.

(** X13. A record whose [contactPoint] is present but is not an object
    cannot be rendered: the update of its page raises and the page is not
    edited, instead of the field being skipped. *)
Theorem malformed_contact_point_aborts_update :
  forall (unicode_isdigit : N -> bool)
         (str_of_dict : list (pystr * pyval) -> pystr)
         (serialize : list (pystr * pystr) -> pystr)
         (force_create : bool) (p : page) (org_details : dict pyval) (v : pyval),
    dict_get (lit "contactPoint") org_details = Some v ->
    is_object v = false ->
    force_create || page_exists p = true ->
    exists e,
      template_text unicode_isdigit str_of_dict serialize org_details = Raise e /\
      update_page unicode_isdigit str_of_dict serialize force_create (Some p)
                  org_details = Raise e.
Proof.
  intros u sd ser force p d v Hget Hv Hcond.
  assert (Hpv : parameter_value u sd d TEMPLATE_CONTACT_POINT_TELEPHONE
                = Raise AttributeError).
  { unfold parameter_value. rewrite (telephone_lookup_raises d v Hget Hv).
    reflexivity. }
  destruct (assignments_raise u sd d TEMPLATE_FIELD_NAME_SUFFIXES
              TEMPLATE_CONTACT_POINT_TELEPHONE AttributeError) as (e & He).
  - unfold TEMPLATE_FIELD_NAME_SUFFIXES. simpl. tauto.
  - exact Hpv.
  - exists e. unfold update_page, template_text. rewrite Hcond, He.
    split; reflexivity.
Qed.

Lemma malformed_contact_point_aborts_update_witness :
  exists e,
    template_text no_digit no_repr plain_serialize
                  [(lit "code", PStr (lit "12"));
                   (lit "contactPoint", PStr (lit "2101234567"))] = Raise e /\
    update_page no_digit no_repr plain_serialize false (Some sample_empty_page)
                [(lit "code", PStr (lit "12"));
                 (lit "contactPoint", PStr (lit "2101234567"))] = Raise e.
Proof.
  apply (malformed_contact_point_aborts_update
           no_digit no_repr plain_serialize false sample_empty_page _
           (PStr (lit "2101234567"))).
  - vm_compute. reflexivity.
  - reflexivity.
  - reflexivity.
Defined.

(* ================================================================= *)
(** ** More on the pruner *)

Lemma mark_deleted_dict_get nm t : forall d : dict page,
  dict_get t (mark_deleted_dict nm d)
  = option_map (fun p => if pystr_eq_dec (page_name p) nm then page_delete p else p)
               (dict_get t d).
Proof.
  induction d as [|[k v] d IH]; [reflexivity|].
  simpl. destruct (pystr_eq_dec t k); [reflexivity | exact IH].
Qed.

Lemma mark_deleted_dict_names nm t (d : dict page) :
  option_map page_name (dict_get t (mark_deleted_dict nm d))
  = option_map page_name (dict_get t d).
Proof.
  rewrite mark_deleted_dict_get. destruct (dict_get t d) as [p|]; [|reflexivity].
  simpl. destruct (pystr_eq_dec (page_name p) nm); reflexivity.
Qed.

Lemma delete_category_names pg st t :
  option_map page_name (dict_get t (wiki_categories (fst (delete pg st))))
  = option_map page_name (dict_get t (wiki_categories (fst st))).
Proof. destruct st as [w e]. simpl. apply mark_deleted_dict_names. Qed.

Lemma delete_deleted pg st :
  deleted (snd (delete pg st)) = deleted (snd st) ++ [page_name pg].
Proof. destruct st as [w e]. reflexivity. Qed.

Lemma delete_printed pg st : printed (snd (delete pg st)) = printed (snd st).
Proof. destruct st as [w e]. reflexivity. Qed.

(** What one iteration may delete: the page at hand and the category page
    found under its title, and only when the title is not upstream. *)
Lemma delete_old_step_deleted names dry pg st st' r :
  delete_old_step names dry pg st = (st', r) ->
  (forall t, option_map page_name (dict_get t (wiki_categories (fst st')))
             = option_map page_name (dict_get t (wiki_categories (fst st)))) /\
  forall n, In n (deleted (snd st')) ->
    In n (deleted (snd st)) \/
    (str_in (page_title pg) names = false /\
     (n = page_name pg \/
      exists cp, dict_get (page_title pg) (wiki_categories (fst st)) = Some cp /\
                 page_name cp = n)).
Proof.
  unfold delete_old_step.
  destruct (str_in (page_title pg) names) eqn:Ein; simpl negb; cbv iota.
  - intros H. injection H as <- <-. split; [reflexivity | auto].
  - destruct dry.
    + intros H. injection H as <- <-. simpl. split; [reflexivity | auto].
    + pose proof (delete_category_names pg st) as Hnames.
      pose proof (delete_deleted pg st) as Hdel.
      destruct (_get_site_page (fst (delete pg st)) (page_title pg) true)
        as [cp|] eqn:Ecp.
      * assert (Hcp : exists cp0, dict_get (page_title pg) (wiki_categories (fst st))
                                  = Some cp0 /\ page_name cp0 = page_name cp).
        { specialize (Hnames (page_title pg)). unfold _get_site_page in Ecp.
          rewrite Ecp in Hnames. simpl in Hnames.
          destruct (dict_get (page_title pg) (wiki_categories (fst st))) as [cp0|];
            [|discriminate]. exists cp0. split; [reflexivity|].
          simpl in Hnames. congruence. }
        destruct (page_exists cp).
        -- intros H. injection H as <- <-. simpl fst. simpl snd. split.
           ++ intros t. rewrite delete_category_names. apply Hnames.
           ++ intros n Hn. simpl in Hn. rewrite delete_deleted, Hdel in Hn.
              apply in_app_or in Hn. destruct Hn as [Hn|[<-|[]]].
              ** apply in_app_or in Hn. destruct Hn as [Hn|[<-|[]]]; auto.
              ** right. split; [reflexivity|]. right.
                 destruct Hcp as (cp0 & H0 & H1). exists cp0. auto.
        -- intros H. injection H as <- <-. simpl fst. simpl snd. split.
           ++ exact Hnames.
           ++ intros n Hn. simpl in Hn. rewrite Hdel in Hn.
              apply in_app_or in Hn. destruct Hn as [Hn|[<-|[]]]; auto.
      * intros H. injection H as <- <-. split; [exact Hnames|].
        intros n Hn. rewrite Hdel in Hn.
        apply in_app_or in Hn. destruct Hn as [Hn|[<-|[]]]; auto.
Qed.

Lemma delete_old_loop_deleted names dry w0 : forall todo st st' r,
  delete_old_loop names dry todo st = (st', r) ->
  (forall t, option_map page_name (dict_get t (wiki_categories (fst st)))
             = option_map page_name (dict_get t (wiki_categories w0))) ->
  forall n, In n (deleted (snd st')) ->
    In n (deleted (snd st)) \/
    exists pg, In pg todo /\ str_in (page_title pg) names = false /\
      (n = page_name pg \/
       exists cp, dict_get (page_title pg) (wiki_categories w0) = Some cp /\
                  page_name cp = n).
Proof.
  induction todo as [|pg todo IH]; intros st st' r Hrun Hinv n Hn.
  - simpl in Hrun. injection Hrun as <- <-. auto.
  - simpl in Hrun.
    destruct (delete_old_step names dry pg st) as [st1 r1] eqn:Estep.
    destruct (delete_old_step_deleted names dry pg st st1 r1 Estep) as [Hnames Hdel].
    assert (Hhere : In n (deleted (snd st1)) ->
              In n (deleted (snd st)) \/
              exists pg0, In pg0 (pg :: todo) /\ str_in (page_title pg0) names = false /\
                (n = page_name pg0 \/
                 exists cp, dict_get (page_title pg0) (wiki_categories w0) = Some cp /\
                            page_name cp = n)).
    { intros H1. destruct (Hdel n H1) as [H|(Hf & [->|(cp & Hget & Hname)])]; auto.
      - right. exists pg. split; [left; reflexivity|]. auto.
      - right. exists pg. split; [left; reflexivity|]. split; [exact Hf|]. right.
        specialize (Hinv (page_title pg)). rewrite Hget in Hinv. simpl in Hinv.
        destruct (dict_get (page_title pg) (wiki_categories w0)) as [cp0|];
          [|discriminate]. exists cp0. split; [reflexivity|].
        simpl in Hinv. congruence. }
    destruct r1 as [[]|e1].
    + assert (Hinv1 : forall t,
                 option_map page_name (dict_get t (wiki_categories (fst st1)))
                 = option_map page_name (dict_get t (wiki_categories w0)))
        by (intros t; rewrite Hnames; apply Hinv).
      destruct (IH st1 st' r Hrun Hinv1 n Hn) as [H|(pg0 & Hin0 & H0)].
      * apply Hhere. exact H.
      * right. exists pg0. split; [right; exact Hin0 | exact H0].
    + injection Hrun as <- <-. apply Hhere. exact Hn.
Qed.

(** X14. Whatever the outcome of [delete_old], every page it deletes is a
    catalogue page whose title is not among the upstream names, or the
    category page looked up under such a title. *)
Theorem delete_old_deletes_only_flagged :
  forall (all_orgs : list org) (dry_run : bool) (w w' : wiki) (e : effects)
         (r : result unit) (n : pystr),
    delete_old all_orgs dry_run w = ((w', e), r) ->
    In n (deleted e) ->
    exists pg, In pg (wiki_catalogue w) /\
               In (page_title pg) (flagged all_orgs w) /\
               (n = page_name pg \/
                exists cp, dict_get (page_title pg) (wiki_categories w) = Some cp /\
                           page_name cp = n).
Proof.
  intros all_orgs dry w w' e r n Hrun Hn. unfold delete_old in Hrun.
  destruct (delete_old_loop_deleted (latest_org_names all_orgs) dry w
              (wiki_catalogue w) _ _ _ Hrun (fun t => eq_refl) n Hn)
    as [[]|(pg & Hin & Hf & Hor)].
  exists pg. split; [exact Hin|]. split; [|exact Hor].
  unfold flagged. apply filter_In. split.
  - apply in_map. exact Hin.
  - rewrite Hf. reflexivity.
Qed.

Lemma delete_old_deletes_only_flagged_witness :
  exists pg, In pg (wiki_catalogue sample_catalogue_wiki) /\
             In (page_title pg) (flagged sample_upstream sample_catalogue_wiki) /\
             (lit "Category:C" = page_name pg \/
              exists cp, dict_get (page_title pg)
                                  (wiki_categories sample_catalogue_wiki) = Some cp /\
                         page_name cp = lit "Category:C").
Proof.
  destruct (delete_old sample_upstream false sample_catalogue_wiki)
    as [[w' e] r] eqn:E.
  apply (delete_old_deletes_only_flagged sample_upstream false
           sample_catalogue_wiki w' e r (lit "Category:C") E).
  vm_compute in E. injection E as _ <- _. vm_compute. tauto.
Defined.

Lemma delete_old_loop_skips names dry : forall pre rest st,
  Forall (fun q => str_in (page_title q) names = true) pre ->
  delete_old_loop names dry (pre ++ rest) st = delete_old_loop names dry rest st.
Proof.
  induction pre as [|q pre IH]; intros rest st H; [reflexivity|].
  inversion H as [|? ? Hq Hpre]; subst. simpl.
  unfold delete_old_step at 1. rewrite Hq. simpl. apply IH. exact Hpre.
Qed.

(** X15. In a real run, when the category lookup fails for the first
    catalogue page that is not upstream, [delete_old] has already deleted
    that page and then stops with [AttributeError]: nothing is printed and
    the pages after it are not examined. *)
Theorem failed_category_lookup_aborts_prune :
  forall (all_orgs : list org) (w : wiki) (pre rest : list page) (pg : page),
    wiki_catalogue w = pre ++ pg :: rest ->
    Forall (fun q => str_in (page_title q) (latest_org_names all_orgs) = true) pre ->
    str_in (page_title pg) (latest_org_names all_orgs) = false ->
    dict_get (page_title pg) (wiki_categories w) = None ->
    exists w',
      delete_old all_orgs false w
      = ((w', {| printed := []; deleted := [page_name pg] |}),
         Raise AttributeError).
Proof.
  intros all_orgs w pre rest pg Hcat Hpre Hpg Hnone.
  unfold delete_old. rewrite Hcat, (delete_old_loop_skips _ _ pre _ _ Hpre).
  simpl delete_old_loop. unfold delete_old_step. rewrite Hpg. simpl negb. cbv iota.
  assert (E : _get_site_page
                (fst (delete pg (w, {| printed := []; deleted := [] |})))
                (page_title pg) true = None).
  { unfold _get_site_page. simpl. rewrite mark_deleted_dict_get, Hnone. reflexivity. }
  rewrite E. eexists. reflexivity.
Qed.

Lemma failed_category_lookup_aborts_prune_witness :
  exists w',
    delete_old sample_upstream false
      {| wiki_pages := []; wiki_categories := [];
         wiki_catalogue := [sample_catalogue_page "A"; sample_catalogue_page "C";
                            sample_catalogue_page "D"] |}
    = ((w', {| printed := [];
               deleted := [page_name (sample_catalogue_page "C")] |}),
       Raise AttributeError).
Proof.
  apply (failed_category_lookup_aborts_prune sample_upstream _
           [sample_catalogue_page "A"] [sample_catalogue_page "D"]
           (sample_catalogue_page "C")).
  - reflexivity.
  - repeat constructor.
  - reflexivity.
  - reflexivity.
Defined.

Lemma spaces_matcher_blank c s :
  is_blank c = true ->
  spaces_matcher (c :: s) = Some (S (span (fun c => c =? 32)%N s)).
Proof. unfold spaces_matcher, is_blank. intros H. simpl. rewrite H. reflexivity. Qed.

Lemma spaces_matcher_other c s :
  is_blank c = false -> spaces_matcher (c :: s) = None.
Proof. unfold spaces_matcher, is_blank. intros H. simpl. rewrite H. reflexivity. Qed.

(** The scan for [' +'] squeezes the runs of spaces. *)
Lemma scan_squeeze : forall s,
  scan spaces_matcher (lit " ") 0 s = squeeze false s /\
  scan spaces_matcher (lit " ") (span (fun c => c =? 32)%N s) s = squeeze true s.
Proof.
  induction s as [|c s [IH0 IH1]]; [split; reflexivity|].
  destruct (is_blank c) eqn:Ec.
  - assert (c = 32%N) as -> by (apply N.eqb_eq; exact Ec).
    split.
    + cbn [scan]. rewrite spaces_matcher_blank by reflexivity.
      cbn [squeeze]. change (is_blank 32) with true. cbv iota.
      rewrite IH1. reflexivity.
    + cbn [span]. change (32 =? 32)%N with true. cbv iota. cbn [scan squeeze].
      change (is_blank 32) with true. cbv iota. exact IH1.
  - split.
    + cbn [scan]. rewrite spaces_matcher_other by exact Ec.
      cbn [squeeze]. rewrite Ec, IH0. reflexivity.
    + cbn [span]. unfold is_blank in Ec. rewrite Ec. cbn [scan].
      rewrite spaces_matcher_other by exact Ec.
      cbn [squeeze]. unfold is_blank at 1. rewrite Ec, IH0. reflexivity.
Qed.

Lemma normalize_label_squeeze l : normalize_label l = squeeze false (strip l).
Proof. unfold normalize_label. apply scan_squeeze. Qed.

Lemma squeeze_single_spaced : forall s b, single_spaced b (squeeze b s) = true.
Proof.
  induction s as [|c s IH]; intros b; [reflexivity|].
  simpl. destruct (is_blank c) eqn:Ec.
  - destruct b; [apply IH|]. simpl. rewrite Ec. simpl. apply IH.
  - simpl. rewrite Ec. apply IH.
Qed.

Lemma squeeze_fixed : forall s b, single_spaced b s = true -> squeeze b s = s.
Proof.
  induction s as [|c s IH]; intros b H; [reflexivity|].
  simpl in *. destruct (is_blank c).
  - destruct b; [discriminate|]. simpl in H. rewrite IH by exact H. reflexivity.
  - rewrite IH by exact H. reflexivity.
Qed.

Lemma double_space_not_single_spaced : forall a b0 b,
  single_spaced b0 (a ++ 32%N :: 32%N :: b) = false.
Proof.
  induction a as [|c a IH]; intros b0 b.
  - simpl. destruct b0; reflexivity.
  - simpl. destruct (is_blank c); [|apply IH].
    rewrite IH. apply andb_false_r.
Qed.

Lemma squeeze_snoc : forall s b c,
  is_blank c = false -> squeeze b (s ++ [c]) = squeeze b s ++ [c].
Proof.
  induction s as [|x s IH]; intros b c Hc; simpl.
  - rewrite Hc. reflexivity.
  - destruct (is_blank x); [destruct b|]; simpl; rewrite IH by exact Hc; reflexivity.
Qed.

Lemma space_is_blank c : isspace c = false -> is_blank c = false.
Proof.
  unfold is_blank. destruct (N.eqb_spec c 32) as [->|]; [|reflexivity].
  vm_compute. discriminate.
Qed.

Lemma last_cases (s : pystr) : s = [] \/ exists t c, s = t ++ [c].
Proof.
  induction s as [|c t _] using rev_ind; [left; reflexivity|].
  right. exists t, c. reflexivity.
Qed.




Lemma normalize_label_ends l :
  (forall c r, normalize_label l = c :: r -> isspace c = false) /\
  (forall c t, normalize_label l = t ++ [c] -> isspace c = false).
Proof.
  rewrite normalize_label_squeeze.
  destruct (strip_spec l) as (_ & _ & _ & _ & _ & Hhead & Hlast).
  split.
  - intros c r H. destruct (strip l) as [|c0 s0]; [discriminate|].
    pose proof (Hhead c0 s0 eq_refl) as Hc0.
    simpl in H. rewrite (space_is_blank _ Hc0) in H. injection H as <- _. exact Hc0.
  - intros c t H.
    destruct (last_cases (strip l)) as [E|(s0 & c0 & E)]; rewrite E in *;
      [destruct t; discriminate|].
    pose proof (Hlast c0 s0 eq_refl) as Hc0.
    rewrite (squeeze_snoc _ _ _ (space_is_blank _ Hc0)) in H.
    apply app_inj_tail in H. destruct H as [_ <-]. exact Hc0.
Qed.

(** X16. The normalized label of [delete_old] has no whitespace at either
    end and no two spaces in a row, and normalizing it again changes
    nothing. *)
Theorem normalize_label_is_normal :
  forall l : pystr,
    (forall c r, normalize_label l = c :: r -> isspace c = false) /\
    (forall c t, normalize_label l = t ++ [c] -> isspace c = false) /\
    contains (lit "  ") (normalize_label l) = false /\
    normalize_label (normalize_label l) = normalize_label l.
Proof.
  intros l. destruct (normalize_label_ends l) as [Hhead Hlast].
  assert (Hss : single_spaced false (normalize_label l) = true)
    by (rewrite normalize_label_squeeze; apply squeeze_single_spaced).
  split; [exact Hhead|]. split; [exact Hlast|]. split.
  - destruct (contains (lit "  ") (normalize_label l)) eqn:E; [|reflexivity].
    apply contains_inv in E. destruct E as (a & b & E).
    rewrite E in Hss. change (lit "  " ++ b) with (32%N :: 32%N :: b) in Hss.
    rewrite double_space_not_single_spaced in Hss. discriminate.
  - rewrite (normalize_label_squeeze (normalize_label l)).
    unfold strip. rewrite (lstrip_fixed _ Hhead), (rstrip_fixed _ Hlast).
    apply squeeze_fixed. exact Hss.
Qed.

(* ================================================================= *)
(** ** Tree teardown *)

Example nuke_tree_sample :
  nuke_tree sample_forest = [lit "Φορέας:A"; lit "Category:A"].
Proof. vm_compute. reflexivity. Qed.

Lemma wiki_node_induction (P : wiki_node -> Prop) :
  (forall p, P (PlainPage p)) ->
  (forall p members, Forall P members -> P (CategoryPage p members)) ->
  forall n, P n.
Proof.
  intros Hplain Hcat. fix IH 1. intros [p|p members].
  - apply Hplain.
  - apply Hcat. induction members as [|m ms IHms]; constructor.
    + apply IH.
    + exact IHms.
Qed.

Lemma deletable_own_name n :
  deletable n = true -> In (page_name (node_page n)) (recurse_delete n).
Proof.
  unfold deletable. destruct n as [p|p members];
    cbn [node_page is_category_node recurse_delete orb]; intros H;
    apply andb_true_iff in H; destruct H as [Hex H]; rewrite Hex.
  - rewrite H. left. reflexivity.
  - apply in_or_app. right. left. reflexivity.
Qed.

Lemma visited_weaken forest forest' n :
  (forall m, In m forest -> visited forest' m) ->
  visited forest n -> visited forest' n.
Proof.
  intros Hsub H. induction H as [n Hin|p members n _ IH Hex Hin].
  - apply Hsub. exact Hin.
  - eapply visited_member; eassumption.
Qed.

Lemma recurse_delete_sound : forall n x,
  In x (recurse_delete n) ->
  exists m, visited [n] m /\ deletable m = true /\ page_name (node_page m) = x.
Proof.
  induction n as [p|p members IH] using wiki_node_induction; intros x Hx;
    cbn [recurse_delete] in Hx.
  - destruct (page_exists p) eqn:Ex; [|contradiction].
    destruct (starts_with NAMESPACE (page_name p)) eqn:Ens; [|contradiction].
    destruct Hx as [<-|[]]. exists (PlainPage p). split; [|split].
    + apply visited_root. left. reflexivity.
    + unfold deletable. cbn [node_page is_category_node]. rewrite Ex, Ens.
      reflexivity.
    + reflexivity.
  - destruct (page_exists p) eqn:Ex; [|contradiction].
    apply in_app_or in Hx. destruct Hx as [Hx|[<-|[]]].
    + apply in_flat_map in Hx. destruct Hx as (m0 & Hm0 & Hx).
      rewrite Forall_forall in IH.
      destruct (IH m0 Hm0 x Hx) as (m & Hv & Hd & Hn).
      exists m. split; [|split; assumption].
      apply (visited_weaken [m0]); [|exact Hv].
      intros m1 [<-|[]].
      apply (@visited_member _ p members m0); [|exact Ex|exact Hm0].
      apply visited_root. left. reflexivity.
    + exists (CategoryPage p members). split; [|split].
      * apply visited_root. left. reflexivity.
      * unfold deletable. simpl. rewrite Ex. reflexivity.
      * reflexivity.
Qed.

Lemma visited_deletions forest n :
  visited forest n ->
  forall x, In x (recurse_delete n) -> In x (nuke_tree forest).
Proof.
  induction 1 as [n Hin|p members n _ IH Hex Hin]; intros x Hx.
  - unfold nuke_tree. apply in_flat_map. exists n. auto.
  - apply IH. cbn [recurse_delete]. rewrite Hex. apply in_or_app. left.
    apply in_flat_map. exists n. auto.
Qed.

(** X17. [nuke_tree] deletes exactly the pages it comes to that exist and
    are categories or have a name starting with the namespace name: the
    members of a category whose page does not exist are not reached, and
    no other page is deleted. *)
Theorem nuke_tree_deletes_exactly :
  forall (root_members : list wiki_node) (x : pystr),
    In x (nuke_tree root_members) <->
    exists n, visited root_members n /\
              page_exists (node_page n) = true /\
              (is_category_node n = true \/
               starts_with NAMESPACE (page_name (node_page n)) = true) /\
              page_name (node_page n) = x.
Proof.
  intros forest x. split.
  - intros H. unfold nuke_tree in H. apply in_flat_map in H.
    destruct H as (n0 & Hn0 & Hx).
    destruct (recurse_delete_sound n0 x Hx) as (m & Hv & Hd & Hn).
    exists m. unfold deletable in Hd. apply andb_true_iff in Hd.
    destruct Hd as [Hex Hor]. apply orb_true_iff in Hor.
    split; [|repeat split; assumption].
    apply (visited_weaken [n0]); [|exact Hv].
    intros m1 [<-|[]]. apply visited_root. exact Hn0.
  - intros (n & Hv & Hex & Hor & <-).
    apply (visited_deletions forest n Hv). apply deletable_own_name.
    unfold deletable. rewrite Hex. apply orb_true_iff in Hor. rewrite Hor.
    reflexivity.
Qed.

(* ================================================================= *)
(** ** Snapshots *)

Lemma data_cases A (file : pystr) (fetch_func : dict A -> A * dict A)
      (b : bool) (files : dict A) :
  (_data file fetch_func b files
   = ((fst (fetch_func files),
       dict_set file (fst (fetch_func files)) (snd (fetch_func files))), 1) /\
   (b = true \/ dict_get file files = None)) \/
  exists data, b = false /\ dict_get file files = Some data /\
               _data file fetch_func b files = ((data, files), 0).
Proof.
  unfold _data, _fetch_data. destruct b.
  - left. destruct (fetch_func files); split; [reflexivity|left; reflexivity].
  - destruct (dict_get file files) as [data|].
    + right. exists data. repeat split; reflexivity.
    + left. destruct (fetch_func files); split; [reflexivity|right; reflexivity].
Qed.

(** A fetch that reads another snapshot leaves that snapshot written. *)
Example nested_fetch_writes_both_files :
  _data (lit "org_hierarchy") sample_outer_fetch true []
  = (([lit "B"; lit "A"],
      [(lit "org_all", [lit "A"; lit "B"]);
       (lit "org_hierarchy", [lit "B"; lit "A"])]), 1).
Proof. vm_compute. reflexivity. Qed.

(** X18. After any call of [_data] the snapshot file holds the data that
    was returned.  Either the snapshot was there and no fetch was asked
    for: then the fetch function is not called and the files are as
    before.  Or the fetch function is called once, on the files as they
    were: then the data is what it returned and the files are as it left
    them, with the data stored in the snapshot file.  A later call without
    [fetch_from_api] returns the same data without calling the fetch
    function, whatever that function is. *)
Theorem data_is_snapshotted :
  forall (A : Type) (file : pystr) (fetch_func : dict A -> A * dict A)
         (fetch_from_api : bool) (files : dict A),
    let data := fst (fst (_data file fetch_func fetch_from_api files)) in
    let files' := snd (fst (_data file fetch_func fetch_from_api files)) in
    let calls := snd (_data file fetch_func fetch_from_api files) in
    dict_get file files' = Some data /\
    ((fetch_from_api = false /\ dict_get file files = Some data /\
      calls = 0 /\ files' = files) \/
     ((fetch_from_api = true \/ dict_get file files = None) /\
      calls = 1 /\ data = fst (fetch_func files) /\
      files' = dict_set file data (snd (fetch_func files)))) /\
    (forall fetch_func' : dict A -> A * dict A,
        _data file fetch_func' false files' = ((data, files'), 0)).
Proof.
  intros A file fetch_func b files.
  destruct (data_cases A file fetch_func b files)
    as [[E Hwhy]|(data & Hb & Hget & E)]; rewrite E; cbn [fst snd].
  - split; [apply dict_get_set_same|]. split.
    + right. repeat split. exact Hwhy.
    + intros fetch_func'. unfold _data. rewrite dict_get_set_same. reflexivity.
  - split; [exact Hget|]. split.
    + left. repeat split; assumption.
    + intros fetch_func'. unfold _data. rewrite Hget. reflexivity.
Qed.

(* ================================================================= *)
(** ** Name index *)

Lemma index_fold_other name : forall (l : list org) (acc : dict pystr),
  (forall o, In o l -> index_name (preferredLabel o) <> name) ->
  dict_get name
    (fold_left (fun d org_dict =>
                  dict_set (index_name (preferredLabel org_dict)) (code org_dict) d)
               l acc)
  = dict_get name acc.
Proof.
  induction l as [|o l IH]; intros acc H; [reflexivity|].
  simpl. rewrite IH.
  - apply dict_get_set_other. intros E. apply (H o); [left; reflexivity | auto].
  - intros o' Ho'. apply H. right. exact Ho'.
Qed.

(** X19. When the name is not in the index yet, [_code_by_name] rebuilds
    the index from the records and finds the code of the last record whose
    label, with its whitespace runs collapsed, is that name. *)
Theorem code_by_name_finds_last :
  forall (pre post : list org) (o : org) (index : dict pystr),
    dict_get (index_name (preferredLabel o)) index = None ->
    (forall o', In o' post ->
                index_name (preferredLabel o') <> index_name (preferredLabel o)) ->
    _code_by_name (pre ++ o :: post) (index_name (preferredLabel o)) index
    = (Some (code o), build_index (pre ++ o :: post)).
Proof.
  intros pre post o index Hmiss Hpost. unfold _code_by_name. rewrite Hmiss.
  f_equal. unfold build_index. rewrite fold_left_app. simpl.
  rewrite index_fold_other by exact Hpost. apply dict_get_set_same.
Qed.

Lemma code_by_name_finds_last_witness :
  _code_by_name ([mk_org "1" "A  B" None] ++ mk_org "2" " A B " None
                   :: [mk_org "3" "C" None])
                (index_name (preferredLabel (mk_org "2" " A B " None))) []
  = (Some (code (mk_org "2" " A B " None)),
     build_index ([mk_org "1" "A  B" None] ++ mk_org "2" " A B " None
                    :: [mk_org "3" "C" None])).
Proof.
  apply code_by_name_finds_last.
  - reflexivity.
  - intros o' [<-|[]]. vm_compute. discriminate.
Defined.

(** X20. A name already in the index is answered from the index, whatever
    the records are now; a name that is in it neither before nor after the
    rebuild gives [None], and that is exactly when no record's collapsed
    label is the name. *)
Theorem code_by_name_hit_and_miss :
  forall (all_orgs : list org) (name : pystr) (index : dict pystr),
    (forall c, dict_get name index = Some c ->
               _code_by_name all_orgs name index = (Some c, index)) /\
    (dict_get name index = None ->
     (fst (_code_by_name all_orgs name index) = None <->
      forall o, In o all_orgs -> index_name (preferredLabel o) <> name)).
Proof.
  intros all_orgs name index. split.
  - intros c H. unfold _code_by_name. rewrite H. reflexivity.
  - intros Hmiss. unfold _code_by_name. rewrite Hmiss. simpl. split.
    + intros Hnone o Hin E.
      apply in_split in Hin. destruct Hin as (pre & post & ->).
      (* the last record of that name is found *)
      assert (Hlast : forall post pre o,
                 index_name (preferredLabel o) = name ->
                 dict_get name (build_index (pre ++ o :: post)) <> None).
      { clear. induction post as [|o1 post IH] using rev_ind; intros pre o E.
        - unfold build_index. rewrite fold_left_app. simpl.
          rewrite <- E, dict_get_set_same. discriminate.
        - destruct (pystr_eq_dec (index_name (preferredLabel o1)) name) as [E1|N1].
          + replace (pre ++ o :: post ++ [o1]) with ((pre ++ o :: post) ++ o1 :: [])
              by (rewrite <- app_assoc; reflexivity).
            unfold build_index. rewrite fold_left_app. simpl.
            rewrite <- E1, dict_get_set_same. discriminate.
          + replace (pre ++ o :: post ++ [o1]) with ((pre ++ o :: post) ++ [o1])
              by (rewrite <- app_assoc; reflexivity).
            unfold build_index. rewrite fold_left_app. simpl.
            rewrite dict_get_set_other by congruence.
            apply (IH pre o E). }
      exact (Hlast post pre o E Hnone).
    + intros H. unfold build_index. rewrite index_fold_other by exact H.
      reflexivity.
Qed.

(* ================================================================= *)
(** ** Units *)

Example units_sample :
  units (Some (lit "9")) (Some sample_units) (Some [41%Z; 3%Z])
  = Ok [unit_fields (sample_unit "3" 3 None); unit_fields (sample_unit "1" 41 None);
        unit_fields (sample_unit "4" 41 None)].
Proof. vm_compute. reflexivity. Qed.

Lemma unit_tree_induction (P : unit_tree -> Prop) :
  (forall fields, P (UnitNode fields None)) ->
  (forall fields children, Forall P children -> P (UnitNode fields (Some children))) ->
  forall u, P u.
Proof.
  intros Hleaf Hnode. fix IH 1. intros [fields [children|]].
  - apply Hnode. induction children as [|c cs IHcs]; constructor.
    + apply IH.
    + exact IHcs.
  - apply Hleaf.
Qed.

Lemma unit_below_weaken forest forest' u :
  (forall v, In v forest -> unit_below forest' v) ->
  unit_below forest u -> unit_below forest' u.
Proof.
  intros Hsub H. induction H as [u Hin|u v _ IH Hin].
  - apply Hsub. exact Hin.
  - apply (@unit_below_child forest' u v); assumption.
Qed.

Lemma add_sub_unit_sound : forall u f,
  In f (add_sub_unit u) -> exists v, unit_below [u] v /\ unit_fields v = f.
Proof.
  induction u as [fields|fields children IH] using unit_tree_induction;
    intros f Hf; cbn [add_sub_unit] in Hf.
  - destruct Hf as [<-|[]]. exists (UnitNode fields None). split; [|reflexivity].
    apply unit_below_top. left. reflexivity.
  - apply in_app_or in Hf. destruct Hf as [Hf|[<-|[]]].
    + apply in_flat_map in Hf. destruct Hf as (c & Hc & Hf).
      rewrite Forall_forall in IH. destruct (IH c Hc f Hf) as (v & Hv & Hfv).
      exists v. split; [|exact Hfv].
      apply (unit_below_weaken [c]); [|exact Hv].
      intros w [<-|[]].
      apply (@unit_below_child _ (UnitNode fields (Some children)) c);
        [apply unit_below_top; left; reflexivity | exact Hc].
    + exists (UnitNode fields (Some children)). split; [|reflexivity].
      apply unit_below_top. left. reflexivity.
Qed.

Lemma add_sub_unit_own u : In (unit_fields u) (add_sub_unit u).
Proof.
  destruct u as [fields children]. cbn [add_sub_unit unit_fields].
  apply in_or_app. right. left. reflexivity.
Qed.

Lemma add_sub_unit_child u v f :
  In v (unit_children u) -> In f (add_sub_unit v) -> In f (add_sub_unit u).
Proof.
  destruct u as [fields [children|]]; cbn [unit_children add_sub_unit];
    intros Hv Hf; [|contradiction].
  apply in_or_app. left. apply in_flat_map. exists v. auto.
Qed.

Lemma unit_below_appended forest u :
  unit_below forest u ->
  forall f, In f (add_sub_unit u) -> In f (flat_map add_sub_unit forest).
Proof.
  induction 1 as [u Hin|u v _ IH Hin]; intros f Hf.
  - apply in_flat_map. exists u. auto.
  - apply IH. apply (add_sub_unit_child u v f Hin Hf).
Qed.

Lemma all_units_spec forest f :
  In f (flat_map add_sub_unit forest) <->
  exists u, unit_below forest u /\ unit_fields u = f.
Proof.
  split.
  - intros H. apply in_flat_map in H. destruct H as (t & Ht & Hf).
    destruct (add_sub_unit_sound t f Hf) as (v & Hv & Hfv).
    exists v. split; [|exact Hfv].
    apply (unit_below_weaken [t]); [|exact Hv].
    intros w [<-|[]]. apply unit_below_top. exact Ht.
  - intros (u & Hu & <-). apply (unit_below_appended forest u Hu).
    apply add_sub_unit_own.
Qed.

Lemma add_sub_unit_length : forall u, length (add_sub_unit u) = count_units u.
Proof.
  induction u as [fields|fields children IH] using unit_tree_induction;
    cbn [add_sub_unit count_units]; [reflexivity|].
  rewrite length_app. simpl. rewrite Nat.add_1_r. f_equal.
  induction IH as [|c cs Hc _ IHcs]; [reflexivity|].
  simpl. rewrite length_app, Hc, IHcs. reflexivity.
Qed.

(** X21. Without a filter, [units] returns the units of the tree at every
    depth, each one once: the list has as many entries as the tree has
    units, and its entries are the fields of the units below the
    organization.  An unknown organization or a failed tree request gives
    the empty list. *)
Theorem units_flattens_the_tree :
  forall (org_code : pystr) (children : list unit_tree),
    (exists l, units (Some org_code) (Some children) None = Ok l /\
               length l = list_sum (map count_units children) /\
               forall f, In f l <->
                         exists u, unit_below children u /\ unit_fields u = f) /\
    units (Some org_code) None None = Ok [] /\
    (forall t, units None (Some children) t = Ok []).
Proof.
  intros org_code children. split; [|split; reflexivity].
  exists (flat_map add_sub_unit children). split; [reflexivity|]. split.
  - induction children as [|c cs IH]; [reflexivity|].
    simpl. rewrite length_app, add_sub_unit_length, IH. reflexivity.
  - intros f. apply all_units_spec.
Qed.

Lemma unit_type_in_spec types u v :
  dict_get (lit "unitType") u = Some v ->
  exists b, unit_type_in types u = Ok b /\
            (b = true <-> exists z, v = PInt z /\ In z types).
Proof.
  intros H. unfold unit_type_in. rewrite H.
  destruct v as [|s|z|vs|d];
    try (exists false; split; [reflexivity|]; split;
         [discriminate | intros (z0 & Hz0 & _); discriminate]).
  exists (existsb (Z.eqb z) types). split; [reflexivity|].
  rewrite existsb_exists. split.
  - intros (z' & Hin & Heq). apply Z.eqb_eq in Heq. subst. exists z'. auto.
  - intros (z0 & Hz0 & Hin). injection Hz0 as ->. exists z0.
    split; [exact Hin | apply Z.eqb_refl].
Qed.

Lemma filter_units_ok types : forall l,
  (forall f, In f l -> dict_get (lit "unitType") f <> None) ->
  exists kept, filter_units types l = Ok kept /\
    forall f, In f kept <->
              In f l /\ exists z, dict_get (lit "unitType") f = Some (PInt z) /\
                                  In z types.
Proof.
  induction l as [|u l IH]; intros H.
  - exists []. split; [reflexivity|]. intros f. split; [intros [] | intros [[] _]].
  - destruct IH as (kept & Hk & Hspec); [intros f Hf; apply H; right; exact Hf|].
    destruct (dict_get (lit "unitType") u) as [v|] eqn:Ev;
      [|exfalso; apply (H u); [left; reflexivity | exact Ev]].
    destruct (unit_type_in_spec types u v Ev) as (b & Hb & Hbspec).
    cbn [filter_units]. rewrite Hb, Hk. cbn [bind].
    exists (if b then u :: kept else kept). split; [reflexivity|].
    intros f. destruct b.
    + simpl. rewrite Hspec. split.
      * intros [<-|[Hf Hz]]; [|split; [right; exact Hf | exact Hz]].
        split; [left; reflexivity|].
        destruct (proj1 Hbspec eq_refl) as (z & -> & Hin). exists z. auto.
      * intros [[<-|Hf] Hz]; [left; reflexivity | right; split; assumption].
    + rewrite Hspec. split.
      * intros [Hf Hz]. split; [right; exact Hf | exact Hz].
      * intros [[<-|Hf] (z0 & Hz0 & Hin0)]; [|split; [exact Hf | eauto]].
        exfalso. assert (false = true); [|discriminate].
        apply Hbspec. exists z0. split; [congruence | exact Hin0].
Qed.

Lemma filter_units_raises types : forall l f,
  In f l -> dict_get (lit "unitType") f = None ->
  filter_units types l = Raise KeyError.
Proof.
  induction l as [|u l IH]; intros f Hin Hf; [contradiction|].
  cbn [filter_units]. unfold unit_type_in at 1.
  destruct (dict_get (lit "unitType") u) as [v|] eqn:Ev; [|reflexivity].
  destruct Hin as [->|Hin]; [congruence|].
  rewrite (IH f Hin Hf). destruct v; reflexivity.
Qed.

(** X22. With a list of unit types, [units] keeps, among the units of the
    tree, exactly those whose [unitType] is an integer of the list, when
    every unit has a [unitType]; a unit without one makes it raise
    [KeyError]. *)
Theorem units_filter_by_type :
  forall (org_code : pystr) (children : list unit_tree) (unit_types : list Z),
    ((forall u, unit_below children u ->
                dict_get (lit "unitType") (unit_fields u) <> None) ->
     exists l, units (Some org_code) (Some children) (Some unit_types) = Ok l /\
       forall f, In f l <->
         (exists u, unit_below children u /\ unit_fields u = f) /\
         exists z, dict_get (lit "unitType") f = Some (PInt z) /\ In z unit_types) /\
    (forall u, unit_below children u ->
               dict_get (lit "unitType") (unit_fields u) = None ->
               units (Some org_code) (Some children) (Some unit_types)
               = Raise KeyError).
Proof.
  intros org_code children types. split.
  - intros H.
    destruct (filter_units_ok types (flat_map add_sub_unit children))
      as (kept & Hk & Hspec).
    + intros f Hf. apply all_units_spec in Hf. destruct Hf as (u & Hu & <-).
      apply H. exact Hu.
    + exists kept. split; [exact Hk|]. intros f.
      rewrite Hspec, all_units_spec. reflexivity.
  - intros u Hu Hnone. cbn [units].
    apply (filter_units_raises types _ (unit_fields u)); [|exact Hnone].
    apply all_units_spec. exists u. split; [exact Hu | reflexivity].
Qed.

(* ================================================================= *)
(** ** Page names *)

Lemma page_names_from_answers api c titles :
  answers api c titles ->
  exists n, forall fuel, n <= fuel -> page_names_from api fuel c = Some titles.
Proof.
  induction 1 as [c Hlast|c c' rest Hmore _ (n & IH)].
  - exists 1. intros [|fuel] Hle; [lia|]. simpl. rewrite Hlast. reflexivity.
  - exists (S n). intros [|fuel] Hle; [lia|]. simpl. rewrite Hmore.
    rewrite IH by lia. reflexivity.
Qed.

(** X23. When the wiki's answers end after finitely many continuations,
    [_all_page_names] returns, for every bound on the number of queries
    that is large enough, the titles of all the answers in order (each
    with the namespace prefix text removed when asked). *)
Theorem all_page_names_collects_every_answer :
  forall (api : option pystr -> list pystr * option pystr)
         (titles : list pystr) (without_namespace : bool),
    answers api None titles ->
    exists n, forall fuel, n <= fuel ->
      _all_page_names api fuel without_namespace
      = Some (if without_namespace
              then map (replace (NAMESPACE ++ lit ":") []) titles
              else titles).
Proof.
  intros api titles b H.
  destruct (page_names_from_answers api None titles H) as (n & Hn).
  exists n. intros fuel Hle. unfold _all_page_names. rewrite (Hn fuel Hle).
  reflexivity.
Qed.

Lemma sample_answers :
  answers sample_api None [lit "Φορέας:A"; lit "Φορέας:B"; lit "Φορέας:C"].
Proof.
  apply (@answers_more sample_api None (lit "C") [lit "Φορέας:C"]).
  - reflexivity.
  - apply (@answers_last sample_api (Some (lit "C"))). reflexivity.
Qed.

Lemma all_page_names_collects_every_answer_witness :
  exists n, forall fuel, n <= fuel ->
    _all_page_names sample_api fuel true
    = Some (if true
            then map (replace (NAMESPACE ++ lit ":") [])
                     [lit "Φορέας:A"; lit "Φορέας:B"; lit "Φορέας:C"]
            else [lit "Φορέας:A"; lit "Φορέας:B"; lit "Φορέας:C"]).
Proof.
  apply all_page_names_collects_every_answer. exact sample_answers.
Defined.

Lemma namespace_not_at c s :
  c <> 934%N -> literal_matcher (NAMESPACE ++ lit ":") (c :: s) = None.
Proof.
  intros H. unfold literal_matcher.
  change (NAMESPACE ++ lit ":") with (934%N :: tl (NAMESPACE ++ lit ":")).
  rewrite starts_with_other_head by congruence. reflexivity.
Qed.

Lemma namespace_kept_text p s :
  ~ In 934%N p ->
  replace (NAMESPACE ++ lit ":") [] (p ++ s)
  = p ++ replace (NAMESPACE ++ lit ":") [] s.
Proof.
  intros H. rewrite !(@replace_scan (NAMESPACE ++ lit ":")) by discriminate.
  apply scan_plain. intros a c t ->.
  apply namespace_not_at.
  intros ->. apply H. apply in_or_app. right. left. reflexivity.
Qed.

(** X24. Removing the namespace gives the bare name: for a name without
    the letter Φ, the title "Φορέας:name" becomes the name, and a title
    without that letter is left as it is. *)
Theorem namespace_is_stripped :
  forall name : pystr,
    ~ In 934%N name ->
    replace (NAMESPACE ++ lit ":") [] (NAMESPACE ++ lit ":" ++ name) = name /\
    replace (NAMESPACE ++ lit ":") [] name = name.
Proof.
  intros name H.
  assert (E : replace (NAMESPACE ++ lit ":") [] name = name).
  { replace name with (name ++ []) at 1 by apply app_nil_r.
    rewrite (namespace_kept_text name [] H). apply app_nil_r. }
  split; [|exact E].
  rewrite app_assoc.
  rewrite (@replace_scan (NAMESPACE ++ lit ":")) by discriminate.
  rewrite scan_match;
    [| discriminate
     | unfold literal_matcher; rewrite starts_with_app; reflexivity].
  rewrite <- (@replace_scan (NAMESPACE ++ lit ":")) by discriminate.
  rewrite E. reflexivity.
Qed.

Lemma namespace_is_stripped_witness :
  replace (NAMESPACE ++ lit ":") [] (NAMESPACE ++ lit ":" ++ lit "Δήμος Αθηναίων")
  = lit "Δήμος Αθηναίων" /\
  replace (NAMESPACE ++ lit ":") [] (lit "Δήμος Αθηναίων") = lit "Δήμος Αθηναίων".
Proof.
  apply namespace_is_stripped. vm_compute. intuition discriminate.
Defined.

(* ================================================================= *)
(** ** The loop of [update_pages] and the assigned parameters *)

Lemma update_page_keeps u sd ser force p d pg :
  update_page u sd ser force (Some p) d = Ok pg ->
  exists p', pg = Some p' /\ page_name p' = page_name p /\
             (force = false -> page_exists p = false -> p' = p) /\
             (page_exists p = true -> page_exists p' = true).
Proof.
  unfold update_page. destruct (force || page_exists p) eqn:E.
  - destruct (template_text u sd ser d) as [t|]; simpl; [|discriminate].
    intros H. injection H as <-. eexists. split; [reflexivity|].
    split; [reflexivity|]. split; [|reflexivity].
    intros -> Hex. rewrite Hex in E. discriminate.
  - intros H. injection H as <-. exists p. auto.
Qed.

Lemma update_pages_step_frame u sd ser force w item w' r :
  update_pages_step u sd ser force w item = (w', r) ->
  wiki_categories w' = wiki_categories w /\
  wiki_catalogue w' = wiki_catalogue w /\
  (forall k, k <> NAMESPACE ++ lit ":" ++ fst item ->
             dict_get k (wiki_pages w') = dict_get k (wiki_pages w)) /\
  (forall k p, dict_get k (wiki_pages w) = Some p ->
     exists p', dict_get k (wiki_pages w') = Some p' /\
                (force = false -> page_exists p = false -> p' = p) /\
                (page_exists p = true -> page_exists p' = true)).
Proof.
  unfold update_pages_step.
  set (name := NAMESPACE ++ lit ":" ++ fst item).
  destruct (update_page u sd ser force (_get_site_page w name false) (snd item))
    as [pg|e] eqn:E; intros H; injection H as <- <-.
  - unfold _get_site_page in E.
    destruct (dict_get name (wiki_pages w)) as [p0|] eqn:E0.
    + destruct (update_page_keeps u sd ser force p0 (snd item) pg E)
        as (p' & -> & _ & Hsame & Hex).
      simpl. repeat split.
      * intros k Hk. apply dict_get_set_other. exact Hk.
      * intros k p Hget. destruct (pystr_eq_dec k name) as [->|Hn].
        -- rewrite dict_get_set_same. assert (p = p0) as -> by congruence.
           exists p'. auto.
        -- rewrite dict_get_set_other by exact Hn. exists p. auto.
    + simpl in E. injection E as <-. simpl. repeat split.
      intros k p Hget. exists p. auto.
  - repeat split. intros k p Hget. exists p. auto.
Qed.

(** X25. Whatever its outcome, [update_pages] leaves the category pages
    and the catalogue listing alone, changes no content page other than
    those of the organizations in [details], removes no page, and without
    [force_create] leaves every page that does not exist as it is. *)
Theorem update_pages_touches_only_its_pages :
  forall (unicode_isdigit : N -> bool)
         (str_of_dict : list (pystr * pyval) -> pystr)
         (serialize : list (pystr * pystr) -> pystr)
         (force_create : bool) (details : dict (dict pyval)) (w w' : wiki)
         (r : result unit),
    update_pages unicode_isdigit str_of_dict serialize force_create details w
    = (w', r) ->
    wiki_categories w' = wiki_categories w /\
    wiki_catalogue w' = wiki_catalogue w /\
    (forall k, (forall org, In org (dict_keys details) ->
                            k <> NAMESPACE ++ lit ":" ++ org) ->
               dict_get k (wiki_pages w') = dict_get k (wiki_pages w)) /\
    (forall k p, dict_get k (wiki_pages w) = Some p ->
       exists p', dict_get k (wiki_pages w') = Some p' /\
                  (force_create = false -> page_exists p = false -> p' = p) /\
                  (page_exists p = true -> page_exists p' = true)).
Proof.
  intros u sd ser force details. induction details as [|item rest IH];
    intros w w' r Hrun.
  - simpl in Hrun. injection Hrun as <- <-. repeat split.
    intros k p Hget. exists p. auto.
  - simpl in Hrun.
    destruct (update_pages_step u sd ser force w item) as [w1 r1] eqn:Estep.
    destruct (update_pages_step_frame u sd ser force w item w1 r1 Estep)
      as (Hc1 & Hl1 & Hf1 & Hk1).
    assert (Hstop : (w', r) = (w1, r1) ->
      wiki_categories w' = wiki_categories w /\
      wiki_catalogue w' = wiki_catalogue w /\
      (forall k, (forall org, In org (dict_keys (item :: rest)) ->
                              k <> NAMESPACE ++ lit ":" ++ org) ->
                 dict_get k (wiki_pages w') = dict_get k (wiki_pages w)) /\
      (forall k p, dict_get k (wiki_pages w) = Some p ->
         exists p', dict_get k (wiki_pages w') = Some p' /\
                    (force = false -> page_exists p = false -> p' = p) /\
                    (page_exists p = true -> page_exists p' = true))).
    { intros H. injection H as -> ->. repeat split; try assumption.
      intros k Hk. apply Hf1. apply Hk. left. reflexivity. }
    destruct r1 as [[]|e1]; [|apply Hstop; congruence].
    destruct (IH w1 w' r Hrun) as (Hc2 & Hl2 & Hf2 & Hk2).
    repeat split; try congruence.
    + intros k Hk. rewrite Hf2, Hf1; [reflexivity| |].
      * apply Hk. left. reflexivity.
      * intros org Horg. apply Hk. right. exact Horg.
    + intros k p Hget. destruct (Hk1 k p Hget) as (p1 & Hget1 & Hs1 & He1).
      destruct (Hk2 k p1 Hget1) as (p2 & Hget2 & Hs2 & He2).
      exists p2. split; [exact Hget2|]. split.
      * intros Hf Hex. rewrite <- (Hs1 Hf Hex). apply Hs2; [exact Hf|].
        rewrite (Hs1 Hf Hex). exact Hex.
      * auto.
Qed.

Lemma update_pages_touches_only_its_pages_witness :
  wiki_categories
    (fst (update_pages no_digit no_repr plain_serialize false
                       [(lit "A", sample_details)] blank_wiki))
  = wiki_categories blank_wiki /\
  dict_get (lit "Φορέας:A")
    (wiki_pages (fst (update_pages no_digit no_repr plain_serialize false
                                   [(lit "A", sample_details)] blank_wiki)))
  = dict_get (lit "Φορέας:A") (wiki_pages blank_wiki).
Proof.
  destruct (update_pages no_digit no_repr plain_serialize false
                         [(lit "A", sample_details)] blank_wiki)
    as [w' r] eqn:E.
  destruct (update_pages_touches_only_its_pages _ _ _ _ _ _ _ _ E)
    as (Hc & _ & _ & Hk).
  split; [exact Hc|]. simpl fst.
  destruct (Hk (lit "Φορέας:A") (blank_page "Φορέας:A" "A") eq_refl)
    as (p' & Hget & Hsame & _).
  rewrite Hget, (Hsame eq_refl eq_refl). reflexivity.
Defined.

Lemma update_pages_app u sd ser force : forall pre post w w1,
  update_pages u sd ser force pre w = (w1, Ok tt) ->
  update_pages u sd ser force (pre ++ post) w
  = update_pages u sd ser force post w1.
Proof.
  induction pre as [|item pre IH]; intros post w w1 H.
  - simpl in H. injection H as <-. reflexivity.
  - simpl in *. destruct (update_pages_step u sd ser force w item) as [w0 [[]|e]].
    + apply IH. exact H.
    + discriminate.
Qed.

(** X26. There is no isolation between the records: when the record of
    one organization cannot be rendered for a page that is to be updated,
    [update_pages] raises there; the pages of the earlier records are
    already updated and the later records are not processed. *)
Theorem update_pages_stops_at_first_failure :
  forall (unicode_isdigit : N -> bool)
         (str_of_dict : list (pystr * pyval) -> pystr)
         (serialize : list (pystr * pystr) -> pystr)
         (force_create : bool) (pre post : dict (dict pyval))
         (org : pystr) (org_details : dict pyval) (w w1 : wiki) (p : page)
         (e : exn),
    update_pages unicode_isdigit str_of_dict serialize force_create pre w
    = (w1, Ok tt) ->
    dict_get (NAMESPACE ++ lit ":" ++ org) (wiki_pages w1) = Some p ->
    force_create || page_exists p = true ->
    template_text unicode_isdigit str_of_dict serialize org_details = Raise e ->
    update_pages unicode_isdigit str_of_dict serialize force_create
                 (pre ++ (org, org_details) :: post) w
    = (w1, Raise e).
Proof.
  intros u sd ser force pre post org d w w1 p e Hpre Hget Hcond Hraise.
  rewrite (update_pages_app u sd ser force pre _ w w1 Hpre).
  simpl. unfold update_pages_step. simpl fst. simpl snd.
  unfold _get_site_page. rewrite Hget. unfold update_page.
  rewrite Hcond, Hraise. reflexivity.
Qed.

Lemma update_pages_stops_at_first_failure_witness :
  update_pages no_digit no_repr plain_serialize true
    ([] ++ (lit "A", [(lit "contactPoint", PStr (lit "x"))])
        :: [(lit "B", sample_details)]) blank_wiki
  = (blank_wiki, Raise AttributeError).
Proof.
  apply (update_pages_stops_at_first_failure
           no_digit no_repr plain_serialize true [] _ (lit "A") _
           blank_wiki blank_wiki (blank_page "Φορέας:A" "A")).
  - reflexivity.
  - reflexivity.
  - reflexivity.
  - vm_compute. reflexivity.
Defined.

Lemma parameter_value_cases u sd d key v :
  parameter_value u sd d key = Ok v ->
  (v = None /\ has_value d key = false) \/
  (exists value, v = Some value /\ has_value d key = true).
Proof.
  unfold parameter_value, has_value.
  destruct (lookup_value d key) as [value|e]; simpl; [|discriminate].
  destruct value as [|s|z|l|o]; simpl.
  - intros H. injection H as <-. left. split; reflexivity.
  - intros H. injection H as <-. right. eexists. split; reflexivity.
  - intros H. injection H as <-. right. eexists. split; reflexivity.
  - destruct (join_items l) as [joined|e]; simpl; [|discriminate].
    intros H. injection H as <-. right. eexists. split; reflexivity.
  - intros H. injection H as <-. right. eexists. split; reflexivity.
Qed.

Lemma assignments_names u sd d : forall keys l,
  assignments u sd d keys = Ok l ->
  map fst l = map (app TEMPLATE_PARAM_PREFIX) (filter (has_value d) keys).
Proof.
  induction keys as [|key keys IH]; intros l H.
  - simpl in H. injection H as <-. reflexivity.
  - cbn [assignments] in H.
    destruct (parameter_value u sd d key) as [v|e] eqn:Ev; [|discriminate].
    cbn [bind] in H.
    destruct (assignments u sd d keys) as [rest|e]; [|discriminate].
    cbn [bind] in H. injection H as <-.
    cbn [filter].
    destruct (parameter_value_cases u sd d key v Ev) as [[-> Hv]|(value & -> & Hv)];
      rewrite Hv.
    + apply IH. reflexivity.
    + simpl. f_equal. apply IH. reflexivity.
Qed.

(** X27. When the rendering succeeds, the template parameters that get a
    value are, in the fixed order of the field keys, those whose field is
    present in the record and not null; each is named by the prefix
    followed by the key. *)
Theorem assigned_parameters_are_the_present_fields :
  forall (unicode_isdigit : N -> bool)
         (str_of_dict : list (pystr * pyval) -> pystr)
         (org_details : dict pyval) (params : list (pystr * pystr)),
    assignments unicode_isdigit str_of_dict org_details
                TEMPLATE_FIELD_NAME_SUFFIXES = Ok params ->
    map fst params
    = map (app TEMPLATE_PARAM_PREFIX)
          (filter (has_value org_details) TEMPLATE_FIELD_NAME_SUFFIXES).
Proof.
  intros u sd d params. apply assignments_names.
Qed.

Lemma assigned_parameters_are_the_present_fields_witness :
  map fst [(lit "gov_org_code", lit "12");
           (lit "gov_org_preferredLabel", lit "A");
           (lit "gov_org_contactPoint_telephone", lit "2101234567");
           (lit "gov_org_status", lit "Active")]
  = map (app TEMPLATE_PARAM_PREFIX)
        (filter (has_value sample_details) TEMPLATE_FIELD_NAME_SUFFIXES).
Proof.
  apply (assigned_parameters_are_the_present_fields no_digit no_repr).
  vm_compute. reflexivity.
Defined.
